(** * mediCline: the pickup-request lifecycle

    A shallow embedding of the pickup-request code of the MediClean
    backend: the status table of [pickupRequestSchema.js] and of the
    standalone validator, the in-memory caches of the repositories,
    [PickupRepository] ([create], [findById], [update], [findNearby],
    [bulkUpdateStatus], [bulkAssignCollectors], [updatePriority],
    [calculateTrends]) and the service functions of [pickupservice.js].

    Conventions.  A JavaScript [throw] is the [Throw] constructor of
    [result]; [Date.now()] and [new Date()] are an explicit argument
    [now] (milliseconds); the identifier Mongoose gives to a new document
    is an explicit argument [oid]; the MongoDB collection is a finite map
    from [_id] to document and the [Map] used as cache is an association
    list in insertion order.  The test by which the driver takes a
    string for an [ObjectId], in [ObjectId.isValid] and in the casts of
    Mongoose, is a parameter (the class [ObjectIds]); the examples use
    the strings of 24 hexadecimal digits.  The volumes and response
    times that [calculateTrends] adds up are the doubles of the runtime
    (binary64, the primitive floats); the volume of a single request,
    which the code only compares with bounds, is a rational. *)

From Stdlib Require Import ZArith QArith Lia Ascii String DecimalString Sorted.
From Stdlib Require Import Floats.
From stdpp Require Import gmap strings list.

Local Open Scope string_scope.
Local Open Scope list_scope.
Local Open Scope Z_scope.

(** ** Errors ([utils/errors.js]) *)

Module Errors.

(** The classes of [utils/errors.js] that the pickup code throws, the
    plain [Error] of the schema method, the [TypeError] of the runtime,
    the error Mongoose raises when a validator fails (its [name] is
    ['ValidationError'], its class is not the one of [utils/errors.js]),
    the one it raises when a value of a query or of an update cannot be
    cast ([name] ['CastError']) and the duplicate-key error of the
    server ([code] 11000). *)
Inductive ErrorKind :=
| ValidationError
| NotFoundError
| InternalError
| PlainError
| TypeError
| MongooseValidationError
| MongooseCastError
| DuplicateKeyError.

Record JsError := mkError { kind : ErrorKind; message : string }.

(** [AppError]'s [statusCode]; errors that are not [AppError]s have none. *)
Definition statusCode (k : ErrorKind) : option Z :=
  match k with
  | ValidationError => Some 400
  | NotFoundError => Some 404
  | InternalError => Some 500
  | _ => None
  end.

Inductive result (A : Type) :=
| Ok (a : A)
| Throw (e : JsError).
Arguments Ok {A} a.
Arguments Throw {A} e.

Definition isOk {A} (r : result A) : bool :=
  match r with Ok _ => true | Throw _ => false end.


Global Instance ErrorKind_eq_dec : EqDecision ErrorKind.
Proof. solve_decision. Defined.

End Errors.
Export Errors.

(** ** JavaScript values, as far as the validators look at them *)

Module Js.

(** The values are those of JSON, with [undefined] and [NaN] added:
    what a request body holds and what the handlers build from it.  An
    object has the properties of its literal, and an array has its
    elements and no named property of its own; values that only a
    program can build (an array with a named property, a [Date], a
    function) are not among them. *)

(** A number is a rational or [NaN]. *)
Inductive JsNum :=
| Num (q : Q)
| NaN.

Local Unset Elimination Schemes.
Inductive JsVal :=
| JUndefined
| JNull
| JBool (b : bool)
| JNumber (n : JsNum)
| JString (s : string)
| JArray (items : list JsVal)
| JObject (fields : list (string * JsVal)).
Local Set Elimination Schemes.

(** [a < b] and [a > b]: every comparison with [NaN] is false. *)
Definition num_lt (a b : JsNum) : bool :=
  match a, b with
  | Num x, Num y => negb (Qle_bool y x)
  | _, _ => false
  end.
Definition num_gt (a b : JsNum) : bool := num_lt b a.

Definition QofZ (z : Z) : JsNum := Num (inject_Z z).

(** [Array.prototype.includes] on an array of strings, looking for a string. *)
Definition includes (l : list string) (s : string) : bool :=
  existsb (String.eqb s) l.

(** Own-property lookup in an object literal. *)
Fixpoint own_prop {A} (o : list (string * A)) (k : string) : option A :=
  match o with
  | [] => None
  | (k', v) :: rest => if String.eqb k k' then Some v else own_prop rest k
  end.

(** [o[k] = v] on an object: an existing key keeps its place. *)
Fixpoint obj_set {A} (o : list (string * A)) (k : string) (v : A)
  : list (string * A) :=
  match o with
  | [] => [(k, v)]
  | (k', v') :: rest =>
      if String.eqb k k' then (k', v) :: rest else (k', v') :: obj_set rest k v
  end.

(** Object spread [{...a, ...b}]: the keys of [b] are set in turn. *)
Definition spread {A} (a b : list (string * A)) : list (string * A) :=
  fold_left (fun acc kv => obj_set acc (fst kv) (snd kv)) b a.

(** [v?.k] for the values the services receive. *)
Definition opt_prop (v : JsVal) (k : string) : JsVal :=
  match v with
  | JObject fields =>
      match own_prop fields k with Some x => x | None => JUndefined end
  | _ => JUndefined
  end.

(** ToBoolean. *)
Definition truthy (v : JsVal) : bool :=
  match v with
  | JUndefined | JNull => false
  | JBool b => b
  | JNumber NaN => false
  | JNumber (Num q) => negb (Qeq_bool q 0)
  | JString s => negb (String.eqb s "")
  | JArray _ | JObject _ => true
  end.

(** A string is the sequence of its code units, those below 256 here.
    The white space and line terminators among them: *)
Definition is_space (c : ascii) : bool :=
  let n := nat_of_ascii c in
  (((9 <=? n) && (n <=? 13)) || (n =? 32) || (n =? 160))%nat.

Fixpoint trim_start (l : list ascii) : list ascii :=
  match l with
  | [] => []
  | c :: rest => if is_space c then trim_start rest else l
  end.

(** [String.prototype.trim] *)
Definition js_trim (s : string) : string :=
  string_of_list_ascii
    (List.rev (trim_start (List.rev (trim_start (list_ascii_of_string s))))).

(** The names every object literal inherits from [Object.prototype]. *)
Definition object_prototype_keys : list string :=
  [ "constructor"; "__proto__"; "hasOwnProperty"; "isPrototypeOf";
    "propertyIsEnumerable"; "toLocaleString"; "toString"; "valueOf";
    "__defineGetter__"; "__defineSetter__"; "__lookupGetter__";
    "__lookupSetter__" ].

End Js.
Export Js.

(** ** The status table *)

Module Status.

Definition PICKUP_STATUSES : list string :=
  ["pending"; "assigned"; "collected"; "cancelled"].

Definition validTransitions : list (string * list string) :=
  [ ("pending", ["assigned"; "cancelled"]);
    ("assigned", ["collected"; "cancelled"]);
    ("collected", []);
    ("cancelled", []) ].

(** What [validTransitions[s]] evaluates to. *)
Inductive TableEntry :=
| Targets (l : list string)
| Inherited
| Missing.

Definition table_lookup (s : string) : TableEntry :=
  match own_prop validTransitions s with
  | Some l => Targets l
  | None => if includes object_prototype_keys s then Inherited else Missing
  end.

(** [validTransitions[cur]?.includes(next)]: [Some b] is the value
    converted to a boolean, [None] the [TypeError] of calling the
    missing [includes] of an inherited member. *)
Definition table_allows (cur next : string) : option bool :=
  match table_lookup cur with
  | Targets l => Some (includes l next)
  | Missing => Some false
  | Inherited => None
  end.

Definition not_a_function : JsError :=
  mkError TypeError "validTransitions[...].includes is not a function".

(** The schema method [validateStatusTransition], on a document whose
    [status] is [cur]. *)
Definition method_validateStatusTransition (cur next : string) : result unit :=
  match table_allows cur next with
  | Some true => Ok tt
  | Some false =>
      Throw (mkError PlainError
               ("Invalid status transition from " ++ cur ++ " to " ++ next)%string)
  | None => Throw not_a_function
  end.

Record ValidationResult := { isValid : bool; vmessage : string }.

Definition createValidationResult (ok : bool) (msg : string) : ValidationResult :=
  {| isValid := ok; vmessage := if ok then "" else msg |}.

(** The standalone validator of the validations module. *)
Definition validateStatusTransition (cur next : string) : result ValidationResult :=
  match table_allows cur next with
  | Some true => Ok (createValidationResult true "")
  | Some false =>
      Ok (createValidationResult false
            ("Cannot transition from " ++ cur ++ " to " ++ next)%string)
  | None => Throw not_a_function
  end.

(** The four edges of the table. *)
Definition edge (cur next : string) : Prop :=
  (cur = "pending" /\ next = "assigned") \/
  (cur = "pending" /\ next = "cancelled") \/
  (cur = "assigned" /\ next = "collected") \/
  (cur = "assigned" /\ next = "cancelled").

End Status.

(** ** The bounded cache of the repositories

    [pickupRepository.js] keeps [this.cache = new Map()] and
    [userRepository.js] a module-level [cache]; both use the same two
    functions.  A [Map] iterates its keys in insertion order, and
    [Map.prototype.set] on a key that is present replaces the value
    without moving the key. *)

Module Cache.

Definition CACHE_TTL : Z := 5 * 60 * 1000.
Definition MAX_CACHE_SIZE : nat := 1000.

Record Entry (V : Type) := mkEntry { value : V; timestamp : Z }.
Arguments mkEntry {V} value timestamp.
Arguments value {V} e.
Arguments timestamp {V} e.

(** [cache.get(key)] *)
Definition map_get {V} (c : list (string * Entry V)) (key : string)
  : option (Entry V) := own_prop c key.

(** [cache.delete(key)] *)
Definition map_delete {V} (key : string) (c : list (string * Entry V))
  : list (string * Entry V) :=
  List.filter (fun kv => negb (String.eqb key (fst kv))) c.

(** [cache.set(key, entry)] *)
Definition map_set {V} (c : list (string * Entry V)) (key : string)
  (e : Entry V) : list (string * Entry V) := obj_set c key e.

(** [cache.keys().next().value]: the oldest key, [undefined] when empty. *)
Definition oldest_key {V} (c : list (string * Entry V)) : option string :=
  match c with
  | [] => None
  | (k, _) :: _ => Some k
  end.

Definition setCacheValue {V} (now : Z) (key : string) (v : V)
  (c : list (string * Entry V)) : list (string * Entry V) :=
  let c1 :=
    if (MAX_CACHE_SIZE <=? length c)%nat then
      match oldest_key c with
      | Some k => map_delete k c
      | None => c
      end
    else c in
  map_set c1 key (mkEntry v now).

(** The result is the cached value ([None] is the [null] of a miss)
    and the cache after the call. *)
Definition getCacheValue {V} (now : Z) (key : string)
  (c : list (string * Entry V)) : option V * list (string * Entry V) :=
  match map_get c key with
  | None => (None, c)
  | Some cached =>
      if CACHE_TTL <? now - timestamp cached
      then (None, map_delete key c)
      else (Some (value cached), c)
  end.

(** A call of one of the two functions. *)
Inductive Call (V : Type) :=
| CallSet (now : Z) (key : string) (v : V)
| CallGet (now : Z) (key : string).
Arguments CallSet {V} now key v.
Arguments CallGet {V} now key.

Definition call {V} (c : list (string * Entry V)) (op : Call V)
  : list (string * Entry V) :=
  match op with
  | CallSet now key v => setCacheValue now key v c
  | CallGet now key => snd (getCacheValue now key c)
  end.

(** The cache after a sequence of calls on the empty [Map]. *)
Definition run {V} (ops : list (Call V)) : list (string * Entry V) :=
  fold_left call ops [].

(** [n] insertions at time [0], under the keys ["0"], ["1"], ..., for
    the examples. *)
Definition fill (n : nat) : list (Call nat) :=
  List.map (fun i => CallSet 0 (NilZero.string_of_uint (Nat.to_uint i)) i)
           (seq 0 n).

End Cache.

(** ** The pickup-request document ([pickupRequestSchema.js]) *)

Module Schema.

Definition WASTE_TYPES : list string :=
  ["sharps"; "biohazard"; "expired_meds"; "others"].
Definition PRIORITIES : list string := ["low"; "medium"; "high"; "urgent"].

(** The driver's test of a string that is to be an [ObjectId].
    Mongoose casts the value of an [ObjectId] path with the constructor
    of the driver, and [mongoose.Types.ObjectId.isValid] asks the driver
    whether the constructor takes the value: both are this test.  (Every
    version of the driver takes 24 hexadecimal digits; which other
    strings it takes depends on the version.) *)
Class ObjectIds := mkIds { castObjectId : string -> bool }.

Definition is_hex (c : ascii) : bool :=
  let n := nat_of_ascii c in
  (((48 <=? n) && (n <=? 57)) || ((65 <=? n) && (n <=? 70))
   || ((97 <=? n) && (n <=? 102)))%nat.

(** The driver that takes the strings of 24 hexadecimal digits and no
    other, for the examples. *)
Definition hex24 (s : string) : bool :=
  (String.length s =? 24)%nat && forallb is_hex (list_ascii_of_string s).

Definition hexIds : ObjectIds := mkIds hex24.

Record HistoryEntry := mkHistory {
  h_status : string;
  h_updatedAt : Z;
  h_note : option string
}.

(** The paths of the schema that the pickup code reads or writes.  A
    path that is absent from a document is [None]; [priority],
    [emergency.isEmergency], [status], [statusHistory], [requestedAt] and
    [isDeleted] have defaults and are always present. *)
Record Doc := mkDoc {
  _id : string;
  clinicId : option string;
  collectorId : option string;
  wasteType : option string;
  volumeKg : option Q;
  priority : string;
  isEmergency : bool;
  status : string;
  statusHistory : list HistoryEntry;
  requestedAt : Z;
  collectedAt : option Z;
  cancelledAt : option Z;
  isDeleted : bool
}.

Definition with_priority (p : string) (d : Doc) : Doc :=
  mkDoc (_id d) (clinicId d) (collectorId d) (wasteType d) (volumeKg d) p
        (isEmergency d) (status d) (statusHistory d) (requestedAt d)
        (collectedAt d) (cancelledAt d) (isDeleted d).

Definition with_status (s : string) (d : Doc) : Doc :=
  mkDoc (_id d) (clinicId d) (collectorId d) (wasteType d) (volumeKg d)
        (priority d) (isEmergency d) s (statusHistory d) (requestedAt d)
        (collectedAt d) (cancelledAt d) (isDeleted d).

Definition with_statusHistory (h : list HistoryEntry) (d : Doc) : Doc :=
  mkDoc (_id d) (clinicId d) (collectorId d) (wasteType d) (volumeKg d)
        (priority d) (isEmergency d) (status d) h (requestedAt d)
        (collectedAt d) (cancelledAt d) (isDeleted d).

Definition with_collectorId (c : option string) (d : Doc) : Doc :=
  mkDoc (_id d) (clinicId d) c (wasteType d) (volumeKg d)
        (priority d) (isEmergency d) (status d) (statusHistory d)
        (requestedAt d) (collectedAt d) (cancelledAt d) (isDeleted d).

(** The object handed to [create], to [update] and to the model
    constructor: every key may be missing.  [data_isEmergency],
    [data_emergencyReason] and [data_responseDeadline] are the members
    of [data.emergency]; [data_statusNote] is read by [update] and is
    not a path of the schema.  The values have the types of their
    paths, so that no cast of a number, a date or a boolean fails. *)
Record PickupData := mkData {
  data_clinicId : option string;
  data_collectorId : option string;
  data_wasteType : option string;
  data_volumeKg : option Q;
  data_location : JsVal;
  data_priority : option string;
  data_isEmergency : option bool;
  data_status : option string;
  data_statusHistory : option (list HistoryEntry);
  data_statusNote : option string;
  data_requestedAt : option Z;
  data_collectedAt : option Z;
  data_cancelledAt : option Z;
  data_isDeleted : option bool;
  data_emergencyReason : option string;
  data_responseDeadline : option Z
}.

Definition noData : PickupData :=
  mkData None None None None JUndefined None None None None None None None
         None None None None.

(** The ids of a clinic and of a collector, for the examples. *)
Definition clinic1 : string := "64b7f0c2a1d3e4f5a6b7c8d9".
Definition collector1 : string := "64b7f0c2a1d3e4f5a6b7c8da".
Definition collector2 : string := "64b7f0c2a1d3e4f5a6b7c8db".

(** The ids of three requests. *)
Definition request1 : string := "64b7f0c2a1d3e4f5a6b7c8e1".
Definition request2 : string := "64b7f0c2a1d3e4f5a6b7c8e2".
Definition request3 : string := "64b7f0c2a1d3e4f5a6b7c8e3".

(** A request for 5 kg of sharps by the clinic [clinic1], for the
    examples. *)
Definition sampleRequest : PickupData :=
  mkData (Some clinic1) None (Some "sharps") (Some (5 # 1))
         (JObject [("type", JString "Point");
                   ("coordinates",
                    JArray [JNumber (QofZ 10); JNumber (QofZ 20)])])
         None None None None None None None None None None None.

(** The same request, with a status and a history chosen by the caller. *)
Definition presetRequest : PickupData :=
  mkData (Some clinic1) None (Some "sharps") (Some (5 # 1))
         (data_location sampleRequest) None None (Some "collected")
         (Some [mkHistory "collected" 0 None]) None None None None None
         None None.

(** An emergency that asks for a low priority, to be answered before
    the time 3600000. *)
Definition emergencyRequest : PickupData :=
  mkData (Some clinic1) None (Some "sharps") (Some (5 # 1))
         (data_location sampleRequest) (Some "low") (Some true) None None
         None None None None None (Some "needle injury") (Some 3600000).

(** Truthiness of an optional string and of an optional number. *)
Definition str_truthy (o : option string) : bool :=
  match o with
  | Some s => negb (String.eqb s "")
  | None => false
  end.

Definition num_truthy (o : option Q) : bool :=
  match o with
  | Some q => negb (Qeq_bool q 0)
  | None => false
  end.

Definition is_some {A} (o : option A) : bool :=
  match o with Some _ => true | None => false end.

Definition str_is (o : option string) (s : string) : bool :=
  match o with
  | Some x => String.eqb x s
  | None => false
  end.

(** A document instance as Mongoose tracks it: the paths marked
    modified.  The constructor of a new document marks every path it is
    given ([$__shouldModify] answers true while [$isNew]); the hook of
    [userSchema.js] that hashes the password of a new user when
    [isModified('password')] relies on the same behaviour.  The
    instance also holds the paths that are validated when it is saved
    and that the pickup code does not read afterwards: [location],
    [emergency.reason] and [emergency.responseDeadline]. *)
Record Instance := mkInstance {
  doc : Doc;
  modifiedPaths : list string;
  i_location : JsVal;
  i_emergencyReason : option string;
  i_responseDeadline : option Z
}.

Definition isModified (i : Instance) (path : string) : bool :=
  includes (modifiedPaths i) path.

Definition given {A} (name : string) (o : option A) : list string :=
  match o with Some _ => [name] | None => [] end.

Definition paths_of (data : PickupData) : list string :=
  given "clinicId" (data_clinicId data) ++
  given "collectorId" (data_collectorId data) ++
  given "wasteType" (data_wasteType data) ++
  given "volumeKg" (data_volumeKg data) ++
  given "priority" (data_priority data) ++
  given "emergency.isEmergency" (data_isEmergency data) ++
  given "status" (data_status data) ++
  given "statusHistory" (data_statusHistory data) ++
  given "requestedAt" (data_requestedAt data) ++
  given "collectedAt" (data_collectedAt data) ++
  given "cancelledAt" (data_cancelledAt data) ++
  given "isDeleted" (data_isDeleted data) ++
  given "emergency.reason" (data_emergencyReason data) ++
  given "emergency.responseDeadline" (data_responseDeadline data) ++
  match data_location data with JUndefined => [] | _ => ["location"] end.

(** The setter of [note] in the sub-schema of the history, [trim:
    true], which runs when an entry is cast. *)
Definition cast_entry (e : HistoryEntry) : HistoryEntry :=
  mkHistory (h_status e) (h_updatedAt e) (option_map js_trim (h_note e)).

Definition cast_history (h : list HistoryEntry) : list HistoryEntry :=
  List.map cast_entry h.

(** [new PickupRequest(data)], with the defaults of the schema; [now]
    is the [Date.now] default of [requestedAt]. *)
Definition new_model (now : Z) (oid : string) (data : PickupData) : Instance :=
  mkInstance
    (mkDoc oid
       (data_clinicId data)
       (data_collectorId data)
       (data_wasteType data)
       (data_volumeKg data)
       (default "medium" (data_priority data))
       (default false (data_isEmergency data))
       (default "pending" (data_status data))
       (cast_history (default [] (data_statusHistory data)))
       (default now (data_requestedAt data))
       (data_collectedAt data)
       (data_cancelledAt data)
       (default false (data_isDeleted data)))
    (paths_of data)
    (data_location data)
    (data_emergencyReason data)
    (data_responseDeadline data).

(** The [pre('save')] hook. *)
Definition pre_save (now : Z) (i : Instance) : Doc :=
  let this := doc i in
  let this :=
    if isModified i "status"
    then with_statusHistory
           (statusHistory this ++ [mkHistory (status this) now None]) this
    else this in
  if isEmergency this && negb (String.eqb (priority this) "urgent")
  then with_priority "urgent" this
  else this.

(** *** The validators

    The casts and the validators that the schema declares on the paths
    above: the cast of an id, [required], [enum], [min], [max] and
    [maxLength].  Paths that the model does not have ([description],
    [scheduledPickup], [wasteLogs], ...) are absent from every document
    here, and an absent path passes their validators. *)
Definition in_enum (values : list string) (o : option string) : bool :=
  match o with
  | Some s => includes values s
  | None => true
  end.

Definition volume_in_range (o : option Q) : bool :=
  match o with
  | Some q => Qle_bool 0 q && Qle_bool q 1000
  | None => true
  end.

(** A [note] that has gone through the sub-schema of the history: the
    setter has trimmed it, and it has no more than 200 characters. *)
Definition note_ok (o : option string) : bool :=
  match o with
  | Some s => String.eqb (js_trim s) s && (String.length s <=? 200)%nat
  | None => true
  end.

(** A [note] that the sub-schema accepts, once the setter has trimmed
    it. *)
Definition note_fits (o : option string) : bool :=
  match o with
  | Some s => (String.length (js_trim s) <=? 200)%nat
  | None => true
  end.

(** A history that has gone through the sub-schema: every [status] is
    one of the enumeration and every [note] is as above.  (On a history
    that has just been cast the test of the trimming is true by itself,
    and what is left are the validators.) *)
Definition history_valid (h : list HistoryEntry) : bool :=
  forallb (fun e => includes Status.PICKUP_STATUSES (h_status e)
                    && note_ok (h_note e)) h.

(** [emergency.reason]: required, as a string that is not empty, when
    the request is an emergency, and of no more than 500 characters. *)
Definition reason_ok (isEmergency : bool) (reason : option string) : bool :=
  match reason with
  | Some s =>
      (negb isEmergency || negb (String.eqb s ""))
      && (String.length s <=? 500)%nat
  | None => negb isEmergency
  end.

(** [emergency.responseDeadline]: required when the request is an
    emergency, and after the time of the validation. *)
Definition deadline_ok (now : Z) (isEmergency : bool) (deadline : option Z)
  : bool :=
  match deadline with
  | Some t => now <? t
  | None => negb isEmergency
  end.

(** [location], required, with the sub-schema of [baseSchema.js]: a
    [type] that is 'Point' (the default when it is left out) and
    [coordinates], two numbers, a longitude in [-180, 180] and a
    latitude in [-90, 90].  (Coordinates that Mongoose would first have
    to cast to numbers, a numeric string or a boolean, are refused
    here.) *)
Definition point_type_ok (fields : list (string * JsVal)) : bool :=
  match own_prop fields "type" with
  | None | Some JUndefined => true
  | Some (JString type) => String.eqb type "Point"
  | Some _ => false
  end.

Definition coordinates_ok (coordinates : JsVal) : bool :=
  match coordinates with
  | JArray [JNumber (Num lon); JNumber (Num lat)] =>
      Qle_bool (inject_Z (-180)) lon && Qle_bool lon (inject_Z 180)
      && Qle_bool (inject_Z (-90)) lat && Qle_bool lat (inject_Z 90)
  | _ => false
  end.

Definition location_valid (location : JsVal) : bool :=
  match location with
  | JObject fields =>
      point_type_ok fields
      && match own_prop fields "coordinates" with
         | Some coordinates => coordinates_ok coordinates
         | None => false
         end
  | _ => false
  end.

(** The [location] of an update: when one is given, it is validated
    as the sub-document it is to become. *)
Definition location_update_valid (location : JsVal) : bool :=
  match location with
  | JUndefined => true
  | _ => location_valid location
  end.

Section Casts.
Context {ids : ObjectIds}.

(** The cast of an id that is given. *)
Definition objectId_ok (o : option string) : bool :=
  match o with
  | Some s => castObjectId s
  | None => true
  end.

(** The validation of a document that is saved, at the time [now]. *)
Definition schema_valid (now : Z) (i : Instance) : bool :=
  let d := doc i in
  is_some (clinicId d) && objectId_ok (clinicId d) &&
  objectId_ok (collectorId d) &&
  is_some (wasteType d) && in_enum WASTE_TYPES (wasteType d) &&
  is_some (volumeKg d) && volume_in_range (volumeKg d) &&
  includes PRIORITIES (priority d) &&
  includes Status.PICKUP_STATUSES (status d) &&
  history_valid (statusHistory d) &&
  reason_ok (isEmergency d) (i_emergencyReason i) &&
  deadline_ok now (isEmergency d) (i_responseDeadline i) &&
  location_valid (i_location i).

End Casts.

(** The invariant of the emergency flag. *)
Definition emergency_urgent (d : Doc) : Prop :=
  isEmergency d = true -> priority d = "urgent".

End Schema.

(** ** [BaseRepository] and [PickupRepository] *)

Module Repository.
Import Status Schema Cache.

(** The state of the singleton [PickupRepository]: the collection behind
    its model and its cache. *)
Record Repo := mkRepo {
  db : gmap string Doc;
  cache : list (string * Entry Doc)
}.

Definition emptyRepo : Repo := mkRepo ∅ [].

Definition validateWasteType (type : string) : bool := includes WASTE_TYPES type.

(** [['pending', ...].includes(status)]: only a string can be strictly
    equal to a member of the array. *)
Definition validateStatus (status : JsVal) : bool :=
  match status with
  | JString s => includes PICKUP_STATUSES s
  | _ => false
  end.

(** *** [BaseRepository] *)

Section Driver.
Context {ids : ObjectIds}.

(** [doc.save()] on a new document: the validators, then the
    [pre('save')] hook, then the insertion. *)
Definition save (now : Z) (i : Instance) (st : Repo) : result Doc * Repo :=
  if negb (schema_valid now i) then
    (Throw (mkError MongooseValidationError "PickupRequest validation failed"), st)
  else
    let d := pre_save now i in
    match db st !! _id d with
    | Some _ => (Throw (mkError DuplicateKeyError "E11000 duplicate key error"), st)
    | None => (Ok d, mkRepo (<[_id d := d]> (db st)) (cache st))
    end.

Definition base_create (now : Z) (oid : string) (data : PickupData) (st : Repo)
  : result Doc * Repo :=
  match save now (new_model now oid data) st with
  | (Ok d, st1) => (Ok d, st1)
  | (Throw e, st1) =>
      match kind e with
      | MongooseValidationError =>
          (Throw (mkError ValidationError
                    ("Invalid PickupRequest data: " ++ message e)%string), st1)
      | DuplicateKeyError =>
          (Throw (mkError ValidationError
                    "PickupRequest with these details already exists"), st1)
      | _ =>
          (Throw (mkError InternalError
                    ("Error creating PickupRequest: " ++ message e)%string), st1)
      end
  end.

Definition or_old {A} (new old : option A) : option A :=
  match new with Some x => Some x | None => old end.

(** The document after [$set] of the keys of [update], once the update
    is cast: the notes of a history are trimmed.  (The keys [location],
    [emergency.reason] and [emergency.responseDeadline] are not among
    the paths of [Doc].) *)
Definition apply_update (update : PickupData) (d : Doc) : Doc :=
  mkDoc (_id d)
        (or_old (data_clinicId update) (clinicId d))
        (or_old (data_collectorId update) (collectorId d))
        (or_old (data_wasteType update) (wasteType d))
        (or_old (data_volumeKg update) (volumeKg d))
        (default (priority d) (data_priority update))
        (default (isEmergency d) (data_isEmergency update))
        (default (status d) (data_status update))
        (default (statusHistory d)
                 (option_map cast_history (data_statusHistory update)))
        (default (requestedAt d) (data_requestedAt update))
        (or_old (data_collectedAt update) (collectedAt d))
        (or_old (data_cancelledAt update) (cancelledAt d))
        (default (isDeleted d) (data_isDeleted update)).

(** The cast of the update: the ids in it. *)
Definition update_casts (update : PickupData) : bool :=
  objectId_ok (data_clinicId update) &&
  objectId_ok (data_collectorId update).

(** [runValidators: true]: the validators of the paths in the update,
    on the values the cast has left.  The function that makes
    [emergency.reason] and [emergency.responseDeadline] required reads
    [this.emergency.isEmergency]; in an update [this] is not a document
    and has no [emergency], the function throws and the path fails.
    (An update that gives [emergency.isEmergency] alone is taken to
    pass.) *)
Definition update_valid (update : PickupData) : bool :=
  in_enum WASTE_TYPES (data_wasteType update) &&
  volume_in_range (data_volumeKg update) &&
  in_enum PRIORITIES (data_priority update) &&
  in_enum PICKUP_STATUSES (data_status update) &&
  history_valid (cast_history (default [] (data_statusHistory update))) &&
  negb (is_some (data_emergencyReason update)) &&
  negb (is_some (data_responseDeadline update)) &&
  location_update_valid (data_location update).

(** [BaseRepository.update]: [findByIdAndUpdate] with [new: true]. *)
Definition base_update (id : string) (update : PickupData) (m : gmap string Doc)
  : result (Doc * gmap string Doc) :=
  if negb (update_casts update) then
    Throw (mkError MongooseCastError "Cast to ObjectId failed")
  else if negb (update_valid update) then
    Throw (mkError MongooseValidationError "Validation failed")
  else
    match m !! id with
    | None => Throw (mkError NotFoundError "PickupRequest not found")
    | Some d =>
        let d' := apply_update update d in
        Ok (d', <[id := d']> m)
    end.

(** *** [PickupRepository] *)

Definition cacheKey (id : string) : string := ("pickup:" ++ id)%string.

Definition create (now : Z) (oid : string) (data : PickupData) (st : Repo)
  : result Doc * Repo :=
  if negb (str_truthy (data_clinicId data)) then
    (Throw (mkError ValidationError "Clinic ID is required"), st)
  else if negb (str_truthy (data_wasteType data))
          || negb (validateWasteType (default "" (data_wasteType data))) then
    (Throw (mkError ValidationError "Invalid or missing waste type"), st)
  else if negb (num_truthy (data_volumeKg data))
          || Qle_bool (default 0%Q (data_volumeKg data)) 0
          || negb (Qle_bool (default 0%Q (data_volumeKg data)) 1000) then
    (Throw (mkError ValidationError "Volume must be between 0 and 1000 kg"), st)
  else if negb (truthy (opt_prop (data_location data) "coordinates"))
          || negb (match opt_prop (data_location data) "coordinates" with
                   | JArray _ => true
                   | _ => false
                   end) then
    (Throw (mkError ValidationError "Valid location coordinates are required"), st)
  else
    let priority' :=
      if default false (data_isEmergency data)
         && (negb (str_truthy (data_priority data))
             || negb (str_is (data_priority data) "urgent"))
      then Some "urgent"
      else data_priority data in
    base_create now oid
      (mkData (data_clinicId data) (data_collectorId data)
              (data_wasteType data) (data_volumeKg data) (data_location data)
              priority' (data_isEmergency data)
              (Some "pending")
              (Some [mkHistory "pending" now None])
              (data_statusNote data)
              (Some now)
              (data_collectedAt data) (data_cancelledAt data)
              (data_isDeleted data)
              (data_emergencyReason data) (data_responseDeadline data))
      st.

(** [findOne({ _id: id, isDeleted: { $ne: true } })] *)
Definition findOne_live (id : string) (m : gmap string Doc) : option Doc :=
  match m !! id with
  | Some d => if isDeleted d then None else Some d
  | None => None
  end.

Definition findById (now : Z) (id : string) (st : Repo) : result Doc * Repo :=
  let '(cached, c1) := getCacheValue now (cacheKey id) (cache st) in
  match cached with
  | Some d => (Ok d, mkRepo (db st) c1)
  | None =>
      match findOne_live id (db st) with
      | None =>
          (Throw (mkError NotFoundError "Pickup request not found"),
           mkRepo (db st) c1)
      | Some request =>
          (Ok request, mkRepo (db st) (setCacheValue now (cacheKey id) request c1))
      end
  end.

(** The checks of [update] on the status, once the request is loaded. *)
Definition check_transition (request : Doc) (data : PickupData) : result unit :=
  if str_truthy (data_status data) then
    if String.eqb (status request) "collected"
       && negb (str_is (data_status data) "collected") then
      Throw (mkError ValidationError "Cannot change status of collected requests")
    else if String.eqb (status request) "cancelled"
            && negb (str_is (data_status data) "cancelled") then
      Throw (mkError ValidationError "Cannot change status of cancelled requests")
    else if str_is (data_status data) "assigned"
            && negb (str_truthy (data_collectorId data)) then
      Throw (mkError ValidationError "Collector ID required for assigned status")
    else Ok tt
  else Ok tt.

(** The object [update] built from [data] and the loaded request. *)
Definition update_object (now : Z) (request : Doc) (data : PickupData)
  : PickupData :=
  mkData (data_clinicId data) (data_collectorId data)
         (data_wasteType data) (data_volumeKg data) (data_location data)
         (data_priority data) (data_isEmergency data)
         (data_status data)
         (if str_truthy (data_status data)
          then Some (statusHistory request ++
                       [mkHistory (default "" (data_status data)) now
                                  (data_statusNote data)])
          else data_statusHistory data)
         (data_statusNote data)
         (data_requestedAt data)
         (if str_is (data_status data) "collected"
          then Some now else data_collectedAt data)
         (data_cancelledAt data)
         (data_isDeleted data)
         (data_emergencyReason data)
         (data_responseDeadline data).

Definition update (now : Z) (id : string) (data : PickupData) (st : Repo)
  : result Doc * Repo :=
  if str_truthy (data_status data)
     && negb (validateStatus (JString (default "" (data_status data)))) then
    (Throw (mkError ValidationError "Invalid status"), st)
  else if str_truthy (data_wasteType data)
          && negb (validateWasteType (default "" (data_wasteType data))) then
    (Throw (mkError ValidationError "Invalid waste type"), st)
  else if num_truthy (data_volumeKg data)
          && Qle_bool (default 0%Q (data_volumeKg data)) 0 then
    (Throw (mkError ValidationError "Volume must be a positive number"), st)
  else
    match findById now id st with
    | (Throw e, st1) => (Throw e, st1)
    | (Ok request, st1) =>
        match check_transition request data with
        | Throw e => (Throw e, st1)
        | Ok _ =>
            match base_update id (update_object now request data) (db st1) with
            | Throw e => (Throw e, st1)
            | Ok (updated, m) =>
                (Ok updated, mkRepo m (map_delete (cacheKey id) (cache st1)))
            end
        end
    end.

Definition assignCollector (now : Z) (requestId : string)
  (collectorId : option string) (note : string) (st : Repo) : result Doc * Repo :=
  update now requestId
    (mkData None collectorId None None JUndefined None None (Some "assigned")
            None (Some note) None None None None None None) st.

Definition cancel (now : Z) (id : string) (reason : option string) (st : Repo)
  : result Doc * Repo :=
  if negb (str_truthy reason) then
    (Throw (mkError ValidationError "Cancellation reason is required"), st)
  else
    update now id
      (mkData None None None None JUndefined None None (Some "cancelled")
              None reason None None (Some now) None None None) st.

(** *** Bulk operations *)

Record StatusUpdate := mkStatusUpdate {
  u_id : option string;
  u_status : option string;
  u_note : option string
}.

Record Assignment := mkAssignment {
  a_pickupId : option string;
  a_collectorId : option string;
  a_note : option string
}.

(** An element of the [errors] array. *)
Record EntryError := mkEntryError {
  e_index : nat;
  e_id : option string;
  e_error : string
}.

(** An [updateOne] operation: [$set] of [status] (and of [collectorId]
    in an assignment), [$push] on [statusHistory].  [lastModifiedAt],
    which both functions also [$set], is not a path of the schema. *)
Record UpdateOne := mkUpdateOne {
  filter_id : string;
  set_status : string;
  set_collectorId : option string;
  push_statusHistory : HistoryEntry
}.

(** The call [this.model.bulkWrite(bulkOps, { ordered })]. *)
Record BulkWriteCall := mkBulkWrite {
  bulkOps : list UpdateOne;
  ordered : bool
}.

Record BulkResult := mkBulkResult {
  success : bool;
  modifiedCount : nat;
  matchedCount : nat;
  b_message : option string
}.

(** [note || ''] *)
Definition note_or_empty (note : option string) : option string :=
  Some (if str_truthy note then default "" note else "").

Definition apply_op (op : UpdateOne) (d : Doc) : Doc :=
  with_statusHistory (statusHistory d ++ [push_statusHistory op])
    (with_status (set_status op)
       (with_collectorId (or_old (set_collectorId op) (collectorId d)) d)).

(** The collection after the operations of a [bulkWrite], and the number
    of operations whose filter matched.  The operations are applied one
    after the other in the order of the array, which is one of the
    executions an unordered [bulkWrite] may choose. *)
Definition bulkWrite (c : BulkWriteCall) (m : gmap string Doc)
  : gmap string Doc * nat :=
  fold_left
    (fun acc op =>
       match fst acc !! filter_id op with
       | Some d => (<[filter_id op := apply_op op d]> (fst acc), S (snd acc))
       | None => acc
       end)
    (bulkOps c) (m, 0%nat).

(** The body of the inner [try] of [bulkUpdateStatus] for one entry. *)
Definition check_status_update (now : Z) (u : StatusUpdate) (st : Repo)
  : result UpdateOne * Repo :=
  if negb (str_truthy (u_id u)) || negb (str_truthy (u_status u)) then
    (Throw (mkError ValidationError "Missing required fields: id and status"), st)
  else
    match findById now (default "" (u_id u)) st with
    | (Throw e, st1) => (Throw e, st1)
    | (Ok pickup, st1) =>
        match method_validateStatusTransition (status pickup)
                (default "" (u_status u)) with
        | Throw e => (Throw e, st1)
        | Ok _ =>
            (Ok (mkUpdateOne (default "" (u_id u)) (default "" (u_status u)) None
                   (mkHistory (default "" (u_status u)) now
                              (note_or_empty (u_note u)))),
             st1)
        end
    end.

(** The body of the inner [try] of [bulkAssignCollectors] for one entry. *)
Definition check_assignment (now : Z) (a : Assignment) (st : Repo)
  : result UpdateOne * Repo :=
  if negb (str_truthy (a_pickupId a)) || negb (str_truthy (a_collectorId a)) then
    (Throw (mkError ValidationError
              "Missing required fields: pickupId and collectorId"), st)
  else
    match findById now (default "" (a_pickupId a)) st with
    | (Throw e, st1) => (Throw e, st1)
    | (Ok pickup, st1) =>
        if negb (String.eqb (status pickup) "pending") then
          (Throw (mkError ValidationError
                    ("Cannot assign collector to " ++ status pickup ++
                     " pickup request")%string), st1)
        else
          (Ok (mkUpdateOne (default "" (a_pickupId a)) "assigned"
                 (a_collectorId a)
                 (mkHistory "assigned" now (note_or_empty (a_note a)))),
           st1)
    end.

(** The validation loop: the operations and the errors it collects, in
    the order of the entries, and the repository after the look-ups. *)
Fixpoint validate_entries {U} (check : U -> Repo -> result UpdateOne * Repo)
  (ident : U -> option string) (index : nat) (entries : list U) (st : Repo)
  : list UpdateOne * list EntryError * Repo :=
  match entries with
  | [] => ([], [], st)
  | u :: rest =>
      let '(r, st1) := check u st in
      let '(ops, errors, st2) := validate_entries check ident (S index) rest st1 in
      match r with
      | Ok op => (op :: ops, errors, st2)
      | Throw e => (ops, mkEntryError index (ident u) (message e) :: errors, st2)
      end
  end.

(** What follows the loop in both functions. *)
Definition finish_bulk (failed none : string)
  (v : list UpdateOne * list EntryError * Repo) : result BulkResult * Repo :=
  let '(ops, errors, st) := v in
  if (0 <? length errors)%nat then
    (Throw (mkError ValidationError failed), st)
  else if (0 <? length ops)%nat then
    let '(m, matched) := bulkWrite (mkBulkWrite ops false) (db st) in
    (Ok (mkBulkResult true matched matched None), mkRepo m (cache st))
  else
    (Ok (mkBulkResult false 0 0 (Some none)), st).

Definition bulkUpdateStatus (now : Z) (updates : list StatusUpdate) (st : Repo)
  : result BulkResult * Repo :=
  finish_bulk "Bulk update validation failed" "No valid updates to process"
    (validate_entries (check_status_update now) u_id 0 updates st).

Definition bulkAssignCollectors (now : Z) (assignments : list Assignment)
  (st : Repo) : result BulkResult * Repo :=
  finish_bulk "Bulk assignment validation failed"
    "No valid assignments to process"
    (validate_entries (check_assignment now) a_pickupId 0 assignments st).

(** *** Priority *)

(** The note of [updatePriority]: the template literal. *)
Definition priority_note (priority note : string) : string :=
  ("Priority changed to " ++ priority ++
   (if String.eqb note "" then "" else ": " ++ note))%string.

(** The object [updatePriority] hands to [update]. *)
Definition priority_update (now : Z) (request : Doc) (priority note : string)
  : PickupData :=
  mkData None None None None JUndefined (Some priority) None None
    (Some (statusHistory request ++
             [mkHistory (status request) now
                (Some (priority_note priority note))]))
    None None None None None None None.

Definition updatePriority (now : Z) (id : string) (priority : string)
  (note : string) (st : Repo) : result Doc * Repo :=
  if negb (includes PRIORITIES priority) then
    (Throw (mkError ValidationError "Invalid priority level"), st)
  else
    match findById now id st with
    | (Throw e, st1) => (Throw e, st1)
    | (Ok request, st1) =>
        if isEmergency request && negb (String.eqb priority "urgent") then
          (Throw (mkError ValidationError
                    "Emergency requests must maintain urgent priority"), st1)
        else
          match
            update now id (priority_update now request priority note) st1
          with
          | (Throw e, st2) => (Throw e, st2)
          | (Ok updated, st2) =>
              (Ok updated, mkRepo (db st2) (map_delete (cacheKey id) (cache st2)))
          end
    end.

End Driver.

(** *** Queries *)

(** The [find] call a function hands to Mongoose. *)
Record FindCall := mkFind {
  criteria : list (string * JsVal);
  populate : list string
}.

Definition near (coordinates maxDistance : JsVal) : JsVal :=
  JObject
    [("$near",
      JObject
        [("$geometry",
          JObject [("type", JString "Point"); ("coordinates", coordinates)]);
         ("$maxDistance", maxDistance)])].

Definition notDeleted : JsVal := JObject [("$ne", JBool true)].

(** A parameter with a default: the default stands in for [undefined]. *)
Definition or_default (dflt : JsVal) (v : JsVal) : JsVal :=
  match v with
  | JUndefined => dflt
  | _ => v
  end.

(** [PickupRepository.findNearby]; [filters] is the object given, [{}]
    when the argument is left out. *)
Definition findNearby (coordinates maxDistance : JsVal)
  (filters : list (string * JsVal)) : result FindCall :=
  if negb (truthy coordinates)
     || negb (match coordinates with JArray _ => true | _ => false end)
     || negb (match coordinates with
              | JArray items => (length items =? 2)%nat
              | _ => false
              end) then
    Throw (mkError ValidationError
             "Valid coordinates [longitude, latitude] are required")
  else
    Ok (mkFind
          (spread
             [("location",
               near coordinates (or_default (JNumber (QofZ 10000)) maxDistance));
              ("isDeleted", notDeleted)]
             filters)
          ["clinicId"; "collectorId"]).


(** The documents of a page and the [metadata] beside them. *)
Record Page := mkPage {
  docs : list Doc;
  total : nat;
  page : nat;
  limit : nat
}.

(** Descending order on [priority], then on [requestedAt]: the default
    sort of [findWithFilters]. *)
Definition sorts_before (a b : Doc) : bool :=
  match String.compare (priority a) (priority b) with
  | Gt => true
  | Lt => false
  | Eq => requestedAt b <=? requestedAt a
  end.

Fixpoint insert_sorted (d : Doc) (l : list Doc) : list Doc :=
  match l with
  | [] => [d]
  | x :: rest =>
      if sorts_before x d then x :: insert_sorted d rest else d :: x :: rest
  end.

(** [findByStatus(status)] with no options: the first page of ten. *)
Definition findByStatus (status : JsVal) (st : Repo) : result Page :=
  if negb (validateStatus status) then
    Throw (mkError ValidationError "Invalid status")
  else
    let matching :=
      List.filter
        (fun d => negb (isDeleted d)
                  && match status with
                     | JString s => String.eqb (Schema.status d) s
                     | _ => false
                     end)
        (List.map snd (map_to_list (db st))) in
    Ok (mkPage (firstn 10 (fold_right insert_sorted [] matching))
               (length matching) 1 10).

(** *** Sample data *)

(** A stored request of the clinic [clinic1], pending since time 0. *)
Definition stored (id : string) : Doc :=
  mkDoc id (Some clinic1) None (Some "sharps") (Some (5 # 1)) "medium" false
        "pending" [mkHistory "pending" 0 None] 0 None None false.

(** A repository with the pending request [request1] and the collected
    request [request2], and nothing cached. *)
Definition sampleRepo : Repo :=
  mkRepo (<[request2 := with_status "collected" (stored request2)]>
            (<[request1 := stored request1]> ∅))
         [].

(** The status of a stored request. *)
Definition status_of (id : string) (st : Repo) : option string :=
  status <$> db st !! id.

(** Two status updates: a valid one for [request1] and one that asks to
    reopen the collected request [request2]. *)
Definition mixedUpdates : list StatusUpdate :=
  [ mkStatusUpdate (Some request1) (Some "assigned") None;
    mkStatusUpdate (Some request2) (Some "pending") (Some "reopen") ].

(** The repository after [request1] is cancelled in bulk at time 10: the
    look-up of the validation loop has cached the request as it was. *)
Definition cancelledRepo : Repo :=
  snd (bulkUpdateStatus 10
         [mkStatusUpdate (Some request1) (Some "cancelled")
            (Some "no longer needed")]
         sampleRepo).

(** A note of 201 characters. *)
Definition longNote : string :=
  string_of_list_ascii (List.repeat "x"%char 201).

(** An update of the priority alone. *)
Definition lowerPriority : PickupData :=
  mkData None None None None JUndefined (Some "low") None None None None
         None None None None None None.

(** An update that assigns a collector, as [assignCollector] builds it. *)
Definition assignData : PickupData :=
  mkData None (Some collector1) None None JUndefined None None
         (Some "assigned") None (Some "") None None None None None None.

(** The cache and the collection agree on the status of a request. *)
Definition cached_status_agrees (id : string) (st : Repo) : Prop :=
  forall e d,
    map_get (cache st) (cacheKey id) = Some e ->
    db st !! id = Some d ->
    status (value e) = status d.

Definition terminal (s : string) : Prop := s = "collected" \/ s = "cancelled".

End Repository.

(** ** Statistics: [calculateTrends] *)

Module Trends.

(** An element of [timeStats]: a group of the aggregation by calendar
    day of [requestedAt].  [count] is the [$sum: 1] of the group, an
    integer that the additions below keep exact (it stays far below
    2^53); [totalVolume] and [avgResponseTime] are doubles, the second
    [None] when the aggregation gives [null]. *)
Record StatId := mkId { year : Z; month : Z; day : Z }.

Record TimeStat := mkStat {
  stat_id : StatId;
  count : Z;
  totalVolume : float;
  avgResponseTime : option float
}.

Record Daily := mkDaily {
  date : Z;
  d_count : Z;
  d_volume : float;
  d_avgResponseTime : option float
}.

(** [currentWeek] and [currentMonth]. *)
Record Current := mkCurrent {
  c_count : Z;
  c_volume : float;
  c_responseTime : list float;
  c_days : list Z
}.

Record Weekly := mkWeekly {
  startDate : Z;
  endDate : Z;
  w_count : Z;
  w_volume : float;
  w_avgResponseTime : option float
}.

Record Monthly := mkMonthly {
  m_month : Z;
  m_year : Z;
  m_count : Z;
  m_volume : float;
  m_avgResponseTime : option float
}.

Record TrendsResult := mkTrends {
  daily : list Daily;
  weekly : list Weekly;
  monthly : list Monthly
}.

Definition WEEK_MS : Z := 7 * 24 * 60 * 60 * 1000.

(** The length of an array, as a double. *)
Definition float_of_nat (n : nat) : float :=
  PrimFloat.of_uint63 (Uint63.of_Z (Z.of_nat n)).

(** [l.length ? l.reduce((a, b) => a + b) / l.length : null] *)
Definition average (l : list float) : option float :=
  match l with
  | [] => None
  | x :: rest =>
      Some (PrimFloat.div (fold_left PrimFloat.add rest x)
                          (float_of_nat (length l)))
  end.

(** The numbers that a test [if (stat.avgResponseTime)] lets through:
    all but the zeros and [NaN]. *)
Definition responseTime_of (s : TimeStat) : list float :=
  match avgResponseTime s with
  | Some q => if PrimFloat.eqb q 0%float || PrimFloat.is_nan q then [] else [q]
  | None => []
  end.

Definition emptyCurrent : Current := mkCurrent 0 0%float [] [].

Definition accumulate (d : Z) (s : TimeStat) (c : Current) : Current :=
  mkCurrent (c_count c + count s)
            (PrimFloat.add (c_volume c) (totalVolume s))
            (c_responseTime c ++ responseTime_of s)
            (c_days c ++ [d]).

Definition restart (d : Z) (s : TimeStat) : Current :=
  mkCurrent (count s) (totalVolume s) (responseTime_of s) [d].

Definition week_of (c : Current) : Weekly :=
  mkWeekly (hd 0 (c_days c)) (List.last (c_days c) 0)
           (c_count c) (c_volume c) (average (c_responseTime c)).

Section JsDate.

(** The [Date] of the runtime, which works in the time zone of the
    server: [mkDate y m d] is the time value of [new Date(y, m, d)],
    and [getMonth] and [getFullYear] read a time value back. *)
Variable mkDate : Z -> Z -> Z -> Z.
Variable getMonth : Z -> Z.
Variable getFullYear : Z -> Z.

(** [new Date(stat._id.year, stat._id.month - 1, stat._id.day)] *)
Definition date_of (s : TimeStat) : Z :=
  mkDate (year (stat_id s)) (month (stat_id s) - 1) (day (stat_id s)).

(** [timeStats.sort((a, b) => dateA - dateB)]: the sort of the runtime
    is stable, and so is this insertion sort. *)
Fixpoint insert_stat (s : TimeStat) (l : list TimeStat) : list TimeStat :=
  match l with
  | [] => [s]
  | x :: rest =>
      if date_of x <? date_of s then x :: insert_stat s rest else s :: x :: rest
  end.

Definition sort_stats (l : list TimeStat) : list TimeStat :=
  fold_right insert_stat [] l.

Definition month_of (c : Current) : Monthly :=
  mkMonthly (getMonth (hd 0 (c_days c)) + 1) (getFullYear (hd 0 (c_days c)))
            (c_count c) (c_volume c) (average (c_responseTime c)).

Definition same_week (d : Z) (c : Current) : bool :=
  match c_days c with
  | [] => true
  | first :: _ => d - first <=? WEEK_MS
  end.

Definition same_month (d : Z) (c : Current) : bool :=
  match c_days c with
  | [] => true
  | first :: _ =>
      (getMonth d =? getMonth first) && (getFullYear d =? getFullYear first)
  end.

(** The variables of the [forEach] loop. *)
Record Loop := mkLoop {
  l_weekly : list Weekly;
  currentWeek : Current;
  l_monthly : list Monthly;
  currentMonth : Current
}.

Definition each (l : Loop) (s : TimeStat) : Loop :=
  let d := date_of s in
  let '(wk, cw) :=
    if same_week d (currentWeek l)
    then (l_weekly l, accumulate d s (currentWeek l))
    else (l_weekly l ++ [week_of (currentWeek l)], restart d s) in
  let '(mo, cm) :=
    if same_month d (currentMonth l)
    then (l_monthly l, accumulate d s (currentMonth l))
    else (l_monthly l ++ [month_of (currentMonth l)], restart d s) in
  mkLoop wk cw mo cm.

Definition calculateTrends (timeStats : list TimeStat) : TrendsResult :=
  let sortedStats := sort_stats timeStats in
  let l := fold_left each sortedStats (mkLoop [] emptyCurrent [] emptyCurrent) in
  mkTrends
    (List.map (fun s => mkDaily (date_of s) (count s) (totalVolume s)
                                (avgResponseTime s)) sortedStats)
    (l_weekly l ++
       (if (0 <? length (c_days (currentWeek l)))%nat
        then [week_of (currentWeek l)] else []))
    (l_monthly l ++
       (if (0 <? length (c_days (currentMonth l)))%nat
        then [month_of (currentMonth l)] else [])).

End JsDate.



(** The rational that a finite double is. *)
Definition exact (f : float) : Q :=
  match Prim2SF f with
  | S754_finite sign m e =>
      ((if sign then -1 else 1) * inject_Z (Z.pos m) * Qpower 2 e)%Q
  | _ => 0%Q
  end.




(** A server in UTC, for the examples: days are counted from
    1970-01-01 with the usual civil-calendar arithmetic. *)
Definition DAY_MS : Z := 24 * 60 * 60 * 1000.

Definition days_from_civil (y m d : Z) : Z :=
  let y := if m <=? 2 then y - 1 else y in
  let era := y / 400 in
  let yoe := y - era * 400 in
  let doy := (153 * (if 2 <? m then m - 3 else m + 9) + 2) / 5 + d - 1 in
  let doe := yoe * 365 + yoe / 4 - yoe / 100 + doy in
  era * 146097 + doe - 719468.

(** Year and month (1 to 12) of a day number. *)
Definition civil_from_days (z : Z) : Z * Z :=
  let z := z + 719468 in
  let era := z / 146097 in
  let doe := z - era * 146097 in
  let yoe := (doe - doe / 1460 + doe / 36524 - doe / 146096) / 365 in
  let doy := doe - (365 * yoe + yoe / 4 - yoe / 100) in
  let mp := (5 * doy + 2) / 153 in
  let m := if mp <? 10 then mp + 3 else mp - 9 in
  (if m <=? 2 then yoe + era * 400 + 1 else yoe + era * 400, m).

Definition utc_mkDate (y m d : Z) : Z :=
  (days_from_civil (y + m / 12) (m mod 12 + 1) 1 + (d - 1)) * DAY_MS.

Definition utc_getMonth (t : Z) : Z := snd (civil_from_days (t / DAY_MS)) - 1.
Definition utc_getFullYear (t : Z) : Z := fst (civil_from_days (t / DAY_MS)).

(** Four days given out of order, on a server in UTC: 1, 5 and 20
    January and 3 February 2024.  The first two share a week, and
    January is one month. *)
Definition sample : list TimeStat :=
  [ mkStat (mkId 2024 2 3) 4 2.5%float None;
    mkStat (mkId 2024 1 20) 1 7%float (Some 3600000%float);
    mkStat (mkId 2024 1 1) 2 0.5%float None;
    mkStat (mkId 2024 1 5) 3 3%float (Some 7200000%float) ].



End Trends.

(** ** The pickup service ([pickupservice.js]) *)

Module Service.
Import Schema Repository.

Definition MAX_ACTIVE_REQUESTS : nat := 5.

(** [validateCoordinates] of [utils/validation.js]. *)
Definition validateCoordinates (coordinates : JsVal) : bool :=
  match coordinates with
  | JArray [longitude; latitude] =>
      match longitude, latitude with
      | JNumber lon, JNumber lat =>
          if num_lt lon (QofZ (-180)) || num_gt lon (QofZ 180) then false
          else if num_lt lat (QofZ (-90)) || num_gt lat (QofZ 90) then false
          else true
      | _, _ => false
      end
  | _ => false
  end.

Definition upper (c : ascii) : ascii :=
  let n := nat_of_ascii c in
  if ((97 <=? n) && (n <=? 122))%nat then ascii_of_nat (n - 32) else c.

(** [String.prototype.toUpperCase], on ASCII. *)
Definition toUpperCase (s : string) : string :=
  string_of_list_ascii (List.map upper (list_ascii_of_string s)).

(** The argument of [createNotification]. *)
Record Notification := mkNotification {
  n_userId : option string;
  n_type : string;
  n_title : string;
  n_message : string;
  n_priority : option string
}.

(** The [catch] clauses of the service: the errors of the classes in
    [pass] are thrown again, every other one becomes an [InternalError]. *)
Definition rethrow (pass : list ErrorKind) (failed : string) (e : JsError)
  : JsError :=
  if bool_decide (kind e ∈ pass) then e else mkError InternalError failed.

Definition catching {A} (pass : list ErrorKind) (failed : string)
  (r : result A) : result A :=
  match r with
  | Ok a => Ok a
  | Throw e => Throw (rethrow pass failed e)
  end.

Section External.

(** [mongoose.Types.ObjectId.isValid] and the notification service are
    outside the pickup code: the first is any predicate on strings, the
    second any function that returns or throws. *)
Variable ObjectId_isValid : string -> bool.
Variable createNotification : Notification -> result unit.

(** The test of the driver is the one the schema casts with: the
    repository is called with [mkIds ObjectId_isValid]. *)

(** [validateObjectId] of [utils/validation.js]. *)
Definition validateObjectId (id : option string) : bool :=
  if negb (str_truthy id) then false else ObjectId_isValid (default "" id).

Definition addPickupRequest (now : Z) (oid : string) (data : PickupData)
  (st : Repo) : result Doc * Repo :=
  let '(r, st') :=
    if negb (validateObjectId (data_clinicId data)) then
      (Throw (mkError ValidationError "Invalid clinic ID"), st)
    else if truthy (data_location data)
            && negb (validateCoordinates
                       (opt_prop (data_location data) "coordinates")) then
      (Throw (mkError ValidationError "Invalid coordinates"), st)
    else
      match findByStatus (JArray [JString "pending"; JString "assigned"]) st with
      | Throw e => (Throw e, st)
      | Ok activeRequests =>
          if (MAX_ACTIVE_REQUESTS <=? length (docs activeRequests))%nat then
            (Throw (mkError ValidationError "Maximum active requests (5) reached"),
             st)
          else
            let data' :=
              if default false (data_isEmergency data)
              then mkData (data_clinicId data) (data_collectorId data)
                     (data_wasteType data) (data_volumeKg data)
                     (data_location data) (Some "urgent")
                     (data_isEmergency data) (data_status data)
                     (data_statusHistory data) (data_statusNote data)
                     (data_requestedAt data) (data_collectedAt data)
                     (data_cancelledAt data) (data_isDeleted data)
                     (data_emergencyReason data) (data_responseDeadline data)
              else data in
            match create (ids := mkIds ObjectId_isValid) now oid data' st with
            | (Throw e, st1) => (Throw e, st1)
            | (Ok pickupRequest, st1) =>
                match
                  createNotification
                    (mkNotification (clinicId pickupRequest) "pickup_request"
                       "New Pickup Request Created"
                       (toUpperCase (priority pickupRequest) ++
                        " priority pickup request #" ++ _id pickupRequest ++
                        " has been created")%string
                       (Some (priority pickupRequest)))
                with
                | Throw e => (Throw e, st1)
                | Ok _ => (Ok pickupRequest, st1)
                end
            end
      end in
  (catching [ValidationError] "Failed to create pickup request" r, st').

Definition fetchPickupRequestById (now : Z) (id : string) (st : Repo)
  : result Doc * Repo :=
  let '(r, st') :=
    if negb (validateObjectId (Some id)) then
      (Throw (mkError ValidationError "Invalid pickup request ID"), st)
    else findById now id st in
  (catching [ValidationError; NotFoundError] "Failed to fetch pickup request" r,
   st').

(** [radius] has the default 5000; the repository is called with the
    location object itself and no filters. *)
Definition findNearbyPickups (location radius : JsVal) : result FindCall :=
  catching [] "Failed to fetch nearby pickups"
    (if negb (validateCoordinates (opt_prop location "coordinates")) then
       Throw (mkError ValidationError "Invalid location coordinates")
     else findNearby location (or_default (JNumber (QofZ 5000)) radius) []).

End External.

End Service.

(** ** Further code of the same files *)

(** *** Sequences of transitions *)

Module StatusPaths.
Import Status.

(** A request whose status is [cur] goes through [steps], each of them
    accepted by the schema method [validateStatusTransition]. *)
Fixpoint accepted_steps (cur : string) (steps : list string) : bool :=
  match steps with
  | [] => true
  | next :: rest =>
      isOk (method_validateStatusTransition cur next) && accepted_steps next rest
  end.

End StatusPaths.

(** *** Virtuals and methods of the schema *)

Module Virtuals.
Import Schema.

(** [isEditable] *)
Definition isEditable (this : Doc) : bool :=
  includes ["pending"; "assigned"] (status this) && negb (isDeleted this).

(** [isDeletable] *)
Definition isDeletable (this : Doc) : bool :=
  String.eqb (status this) "pending" && negb (isDeleted this).

(** [responseTime]: a date that is present is truthy. *)
Definition responseTime (this : Doc) : option Z :=
  if String.eqb (status this) "collected" && is_some (collectedAt this)
  then Some (default 0 (collectedAt this) - requestedAt this)
  else None.

(** The table [overdueLimits], in hours. *)
Definition overdueLimits : list (string * Z) :=
  [("urgent", 2); ("high", 6); ("medium", 24); ("low", 48)].

Definition HOUR_MS : Z := 1000 * 60 * 60.

(** [isOverdue], at the time [now]: a priority without a limit of its
    own compares the hours with a value that is not a number, which is
    false. *)
Definition isOverdue (now : Z) (this : Doc) : bool :=
  if String.eqb (status this) "pending" then
    let hoursSinceRequest :=
      (inject_Z (now - requestedAt this) / inject_Z HOUR_MS)%Q in
    match own_prop overdueLimits (priority this) with
    | Some limit => negb (Qle_bool hoursSinceRequest (inject_Z limit))
    | None => false
    end
  else false.

(** [waitTime] *)
Definition waitTime (this : Doc) : option Z :=
  if String.eqb (status this) "assigned" || String.eqb (status this) "collected"
  then
    match List.find (fun h => String.eqb (h_status h) "assigned")
                    (statusHistory this) with
    | Some assignedStatus => Some (h_updatedAt assignedStatus - requestedAt this)
    | None => None
    end
  else None.

(** The method [addStatusHistory(status, note)]. *)
Definition addStatusHistory (now : Z) (s : string) (note : string) (this : Doc)
  : Doc :=
  with_status s
    (with_statusHistory (statusHistory this ++ [mkHistory s now (Some note)]) this).

End Virtuals.

(** *** More of the repositories *)

Module Repository2.
Import Status Schema Cache Repository Virtuals.

(** The clauses of the [$or] that [findWithFilters] adds for
    [filters.isOverdue]: a priority, the status 'pending' and the latest
    [requestedAt] that matches. *)
Definition overdue_clauses (now : Z) : list (string * string * Z) :=
  List.map (fun entry => (fst entry, "pending", now - snd entry * 60 * 60 * 1000))
           overdueLimits.

(** A document satisfies a clause when its [priority] and [status] equal
    those of the clause and its [requestedAt] is [$lte] the date. *)
Definition clause_matches (d : Doc) (clause : string * string * Z) : bool :=
  String.eqb (priority d) (fst (fst clause))
  && String.eqb (status d) (snd (fst clause))
  && (requestedAt d <=? snd clause).

Definition matches_overdue (now : Z) (d : Doc) : bool :=
  existsb (clause_matches d) (overdue_clauses now).

(** An update of the status, with the collector, the note and the date
    of cancellation that go with it. *)
Definition status_change_at (s : string) (collector note : option string)
  (cancelled : option Z) : PickupData :=
  mkData None collector None None JUndefined None None (Some s) None note
         None None cancelled None None None.

Definition status_change (s : string) (collector note : option string)
  : PickupData := status_change_at s collector note None.

Section Driver.
Context {ids : ObjectIds}.

(** The document that [update] writes over the loaded request [d]. *)
Definition changed (now : Z) (d : Doc) (data : PickupData) : Doc :=
  apply_update (update_object now d data) d.

(** [BaseRepository.delete]: [findByIdAndDelete]. *)
Definition base_delete (id : string) (st : Repo) : result Doc * Repo :=
  match db st !! id with
  | None => (Throw (mkError NotFoundError "PickupRequest not found"), st)
  | Some d => (Ok d, mkRepo (delete id (db st)) (cache st))
  end.



End Driver.

(** [BaseRepository.findWithPagination] on the documents [found] that
    satisfy the criteria, in the order of the sort.  [page] and [limit]
    are integers, [None] when the option is left out. *)
Definition page_number (page : option Z) : Z :=
  Z.max 1 (match page with Some p => if p =? 0 then 1 else p | None => 1 end).

Definition page_limit (limit : option Z) : Z :=
  Z.min 100
    (Z.max 1 (match limit with Some l => if l =? 0 then 10 else l | None => 10 end)).

Record Paginated := mkPaginated {
  p_docs : list Doc;
  p_total : Z;
  p_page : Z;
  p_limit : Z;
  p_pages : Z
}.

(** [Math.ceil(total / limit)] for a positive [limit]. *)
Definition ceil_div (total limit : Z) : Z := (total + limit - 1) / limit.

Definition findWithPagination (found : list Doc) (page limit : option Z)
  : Paginated :=
  let page := page_number page in
  let limit := page_limit limit in
  let skip := (page - 1) * limit in
  mkPaginated (firstn (Z.to_nat limit) (skipn (Z.to_nat skip) found))
              (Z.of_nat (length found)) page limit
              (ceil_div (Z.of_nat (length found)) limit).

(** One operation of a [bulkWrite]. *)
Definition write_one (acc : gmap string Doc * nat) (op : UpdateOne)
  : gmap string Doc * nat :=
  match fst acc !! filter_id op with
  | Some d => (<[filter_id op := apply_op op d]> (fst acc), S (snd acc))
  | None => acc
  end.

End Repository2.

(** *** Conditions on the state of the repository *)

Module Conditions.
Import Status Schema Cache Repository.

(** Every cached request was cached at the time [now] and is the stored
    request, which is not soft-deleted: the state within one call of a
    bulk function that started without these requests in the cache. *)
Definition cache_current (now : Z) (st : Repo) : Prop :=
  forall id e,
    map_get (cache st) (cacheKey id) = Some e ->
    timestamp e = now /\ findOne_live id (db st) = Some (value e).

(** An entry of [bulkUpdateStatus] that names a stored request and a
    status the table allows next. *)
Definition allowed_update (m : gmap string Doc) (u : StatusUpdate) : Prop :=
  exists id s d,
    u_id u = Some id /\ id <> "" /\ u_status u = Some s /\
    m !! id = Some d /\ isDeleted d = false /\ edge (status d) s.

End Conditions.

(** *** Conditions on the loop of [calculateTrends] *)

Module TrendsConditions.
Import Trends.

(** A weekly bucket that ends no more than a week after it starts. *)
Definition week_span (w : Weekly) : Prop :=
  startDate w <= endDate w <= startDate w + WEEK_MS.

(** A bucket that is over before the next one starts. *)
Definition week_before (a b : Weekly) : Prop := endDate a < startDate b.

(** What the loop keeps true of the weeks pushed so far and of the days
    of the current week. *)
Definition weeks_invariant (l : Loop) : Prop :=
  Forall week_span (l_weekly l) /\
  StronglySorted week_before (l_weekly l) /\
  (forall w d, In w (l_weekly l) -> In d (c_days (currentWeek l)) ->
               endDate w < d) /\
  (c_days (currentWeek l) = [] -> l_weekly l = []) /\
  (forall d, In d (c_days (currentWeek l)) ->
             hd 0 (c_days (currentWeek l)) <= d
             <= hd 0 (c_days (currentWeek l)) + WEEK_MS).

End TrendsConditions.

(** *** The other functions of the pickup service *)

Module Service2.
Import Schema Repository Repository2 Service.

(** [s.charAt(0).toUpperCase() + s.slice(1)] *)
Definition capitalize (s : string) : string :=
  match s with
  | EmptyString => EmptyString
  | String c rest => String (upper c) rest
  end.

(** The notification of [modifyPickupRequest] for a change of status
    ([recipients] and [data] are not among the modelled fields). *)
Definition status_notification (pickupRequest : Doc) (s : string)
  : Notification :=
  mkNotification (clinicId pickupRequest) ("pickup_" ++ s)%string
    ("Pickup Request " ++ capitalize s)%string
    ("Pickup request #" ++ _id pickupRequest ++ " has been " ++ s)%string
    None.

(** The notification of [assignPickupCollector]. *)
Definition assigned_notification (updatedRequest : Doc)
  (pickupRequestId : string) : Notification :=
  mkNotification (clinicId updatedRequest) "pickup_assigned" "Pickup Assigned"
    ("Collector assigned to pickup request #" ++ pickupRequestId)%string None.

(** What a string gives for [update.id], [update.status] and
    [update.note]: [undefined], as it has no such property. *)
Definition entry_of_string (id : string) : StatusUpdate :=
  mkStatusUpdate None None None.

Section External.

Variable ObjectId_isValid : string -> bool.
Variable createNotification : Notification -> result unit.

Definition modifyPickupRequest (now : Z) (id : string)
  (updatedData : PickupData) (st : Repo) : result Doc * Repo :=
  let '(r, st') :=
    if negb (validateObjectId ObjectId_isValid (Some id)) then
      (Throw (mkError ValidationError "Invalid pickup request ID"), st)
    else if truthy (data_location updatedData)
            && negb (validateCoordinates
                       (opt_prop (data_location updatedData) "coordinates")) then
      (Throw (mkError ValidationError "Invalid coordinates"), st)
    else
      match update (ids := mkIds ObjectId_isValid) now id updatedData st with
      | (Throw e, st1) => (Throw e, st1)
      | (Ok pickupRequest, st1) =>
          if str_truthy (data_status updatedData) then
            match
              createNotification
                (status_notification pickupRequest
                   (default "" (data_status updatedData)))
            with
            | Throw e => (Throw e, st1)
            | Ok _ => (Ok pickupRequest, st1)
            end
          else (Ok pickupRequest, st1)
      end in
  (catching [ValidationError; NotFoundError] "Failed to update pickup request" r,
   st').

Definition assignPickupCollector (now : Z) (pickupRequestId : string)
  (collectorId : option string) (st : Repo) : result Doc * Repo :=
  let '(r, st') :=
    if negb (validateObjectId ObjectId_isValid (Some pickupRequestId))
       || negb (validateObjectId ObjectId_isValid collectorId) then
      (Throw (mkError ValidationError "Invalid pickup request or collector ID"),
       st)
    else
      match
        assignCollector (ids := mkIds ObjectId_isValid) now pickupRequestId
          collectorId "" st
      with
      | (Throw e, st1) => (Throw e, st1)
      | (Ok updatedRequest, st1) =>
          match
            createNotification
              (assigned_notification updatedRequest pickupRequestId)
          with
          | Throw e => (Throw e, st1)
          | Ok _ => (Ok updatedRequest, st1)
          end
      end in
  (catching [ValidationError; NotFoundError]
     "Failed to assign collector to pickup request" r,
   st').

(** The repository has no method [updateStatus] (nor has
    [BaseRepository]): the call is a [TypeError], and the notification
    after it is never reached. *)
Definition cancelPickup (pickupRequestId : string) (reason : option string)
  (st : Repo) : result Doc * Repo :=
  let r :=
    if negb (validateObjectId ObjectId_isValid (Some pickupRequestId)) then
      Throw (mkError ValidationError "Invalid pickup request ID")
    else
      Throw (mkError TypeError "pickupRepository.updateStatus is not a function")
  in
  (catching [ValidationError] "Failed to cancel pickup request" r, st).

(** [ids] is the array of the ids, which the repository reads as its
    array of updates; the arguments after it are not parameters of
    [bulkUpdateStatus]. *)
Definition bulkUpdatePickupStatus (now : Z) (ids : list string) (st : Repo)
  : result BulkResult * Repo :=
  let '(r, st') :=
    if (length ids =? 0)%nat then
      (Throw (mkError ValidationError "Invalid pickup request IDs"), st)
    else bulkUpdateStatus now (List.map entry_of_string ids) st in
  (catching [ValidationError] "Failed to bulk update pickup statuses" r, st').

(** [pickupRepository.delete] is [BaseRepository.delete], which returns
    the document or throws. *)
Definition deletePickupRequest (id : string) (st : Repo) : result Doc * Repo :=
  let '(r, st') :=
    if negb (validateObjectId ObjectId_isValid (Some id)) then
      (Throw (mkError ValidationError "Invalid pickup request ID"), st)
    else base_delete id st in
  (catching [ValidationError; NotFoundError] "Failed to delete pickup request" r,
   st').

End External.

End Service2.

(** ** The validators ([commonValidation.js]) *)

Module Validation.
Import Status.

(** *** Strings *)

Definition lower (c : ascii) : ascii :=
  let n := nat_of_ascii c in
  if ((65 <=? n) && (n <=? 90))%nat then ascii_of_nat (n + 32) else c.

(** [String.prototype.toLowerCase], on ASCII. *)
Definition toLowerCase (s : string) : string :=
  string_of_list_ascii (List.map lower (list_ascii_of_string s)).

(** An integer inside a template literal. *)
Definition show_Z (z : Z) : string := NilZero.string_of_int (Z.to_int z).

(** [values.join(', ')] *)
Definition join (l : list string) : string := String.concat ", " l.

(** *** Type checks *)

Definition isString (v : JsVal) : bool :=
  match v with JString _ => true | _ => false end.

Definition isNumber (v : JsVal) : bool :=
  match v with JNumber (Num _) => true | _ => false end.

Definition isObject (v : JsVal) : bool :=
  match v with JObject _ => true | _ => false end.

Definition isArray (v : JsVal) : bool :=
  match v with JArray _ => true | _ => false end.

Definition isEmpty (v : JsVal) : bool :=
  match v with
  | JUndefined | JNull => true
  | JString s => String.eqb s ""
  | _ => false
  end.

(** [Number.isInteger] *)
Definition isInteger (q : Q) : bool := (Qden (Qred q) =? 1)%positive.

(** *** Options

    The members of an [options] object: a validator reads the ones it
    names and leaves the others alone. *)
Inductive Opt :=
| OBool (b : bool)
| ONum (z : Z)
| OStr (s : string)
| OValues (l : list string)
| OPattern (test : string -> bool)
| OValidator (f : JsVal -> result ValidationResult).

Definition bool_opt (options : list (string * Opt)) (k : string) (d : bool)
  : bool :=
  match own_prop options k with Some (OBool b) => b | _ => d end.

Definition num_opt (options : list (string * Opt)) (k : string) : option Z :=
  match own_prop options k with Some (ONum z) => Some z | _ => None end.

Definition str_opt (options : list (string * Opt)) (k : string) (d : string)
  : string :=
  match own_prop options k with Some (OStr s) => s | _ => d end.

Definition values_opt (options : list (string * Opt)) (k : string)
  : option (list string) :=
  match own_prop options k with Some (OValues l) => Some l | _ => None end.

Definition pattern_opt (options : list (string * Opt)) (k : string)
  : option (string -> bool) :=
  match own_prop options k with Some (OPattern t) => Some t | _ => None end.

Definition validator_opt (options : list (string * Opt)) (k : string)
  : option (JsVal -> result ValidationResult) :=
  match own_prop options k with Some (OValidator f) => Some f | _ => None end.

Definition valid : ValidationResult := createValidationResult true "".

Definition invalid (msg : string) : ValidationResult :=
  createValidationResult false msg.

(** [combineValidations] *)
Fixpoint combineValidations (validations : list ValidationResult)
  : ValidationResult :=
  match validations with
  | [] => valid
  | validation :: rest =>
      if negb (isValid validation) then validation else combineValidations rest
  end.

(** *** The validators *)

Definition validateString (str : JsVal) (options : list (string * Opt))
  : ValidationResult :=
  let required := bool_opt options "required" true in
  let min := num_opt options "min" in
  let max := num_opt options "max" in
  let pattern := pattern_opt options "pattern" in
  let trim := bool_opt options "trim" true in
  let fieldName := str_opt options "fieldName" "Field" in
  if isEmpty str then
    createValidationResult (negb required) (fieldName ++ " is required")
  else
    match str with
    | JString s =>
        let value := if trim then js_trim s else s in
        if match min with
           | Some m => Z.of_nat (String.length value) <? m
           | None => false
           end then
          invalid (fieldName ++ " must be at least " ++ show_Z (default 0 min)
                   ++ " characters long")
        else if match max with
                | Some m => m <? Z.of_nat (String.length value)
                | None => false
                end then
          invalid (fieldName ++ " cannot exceed " ++ show_Z (default 0 max)
                   ++ " characters")
        else if match pattern with
                | Some test => negb (test value)
                | None => false
                end then
          invalid (fieldName ++ " format is invalid")
        else valid
    | _ => invalid (fieldName ++ " must be a string")
    end.

Definition validateNumber (num : JsVal) (options : list (string * Opt))
  : ValidationResult :=
  let required := bool_opt options "required" true in
  let min := num_opt options "min" in
  let max := num_opt options "max" in
  let integer := bool_opt options "integer" false in
  let positive := bool_opt options "positive" false in
  let fieldName := str_opt options "fieldName" "Number" in
  if isEmpty num then
    createValidationResult (negb required) (fieldName ++ " is required")
  else
    match num with
    | JNumber (Num q) =>
        if integer && negb (isInteger q) then
          invalid (fieldName ++ " must be an integer")
        else if positive && Qle_bool q 0 then
          invalid (fieldName ++ " must be positive")
        else if match min with
                | Some m => num_lt (Num q) (QofZ m)
                | None => false
                end then
          invalid (fieldName ++ " must be at least " ++ show_Z (default 0 min))
        else if match max with
                | Some m => num_gt (Num q) (QofZ m)
                | None => false
                end then
          invalid (fieldName ++ " cannot exceed " ++ show_Z (default 0 max))
        else valid
    | _ => invalid (fieldName ++ " must be a number")
    end.

(** The comparison of a [Set]: objects and arrays are equal to
    themselves only, and the elements of a parsed array are distinct
    objects. *)
Definition sameValueZero (v w : JsVal) : bool :=
  match v, w with
  | JUndefined, JUndefined => true
  | JNull, JNull => true
  | JBool a, JBool b => Bool.eqb a b
  | JNumber (Num a), JNumber (Num b) => Qeq_bool a b
  | JNumber NaN, JNumber NaN => true
  | JString a, JString b => String.eqb a b
  | _, _ => false
  end.

(** [new Set(arr).size] *)
Fixpoint set_size (arr : list JsVal) : nat :=
  match arr with
  | [] => 0
  | v :: rest =>
      if existsb (sameValueZero v) rest then set_size rest else S (set_size rest)
  end.

(** The loop over the elements, from the index [i] on. *)
Fixpoint validate_elements (elementValidator : JsVal -> result ValidationResult)
  (i : nat) (arr : list JsVal) : result ValidationResult :=
  match arr with
  | [] => Ok valid
  | v :: rest =>
      match elementValidator v with
      | Throw e => Throw e
      | Ok elementValidation =>
          if negb (isValid elementValidation) then
            Ok (invalid ("Invalid element at index " ++ show_Z (Z.of_nat i)
                         ++ ": " ++ vmessage elementValidation))
          else validate_elements elementValidator (S i) rest
      end
  end.

Definition validateArray (arr : JsVal) (options : list (string * Opt))
  : result ValidationResult :=
  let required := bool_opt options "required" true in
  let minLength := num_opt options "minLength" in
  let maxLength := num_opt options "maxLength" in
  let elementValidator := validator_opt options "elementValidator" in
  let unique := bool_opt options "unique" false in
  let fieldName := str_opt options "fieldName" "Array" in
  if isEmpty arr then
    Ok (createValidationResult (negb required) (fieldName ++ " is required"))
  else
    match arr with
    | JArray items =>
        if match minLength with
           | Some m => Z.of_nat (length items) <? m
           | None => false
           end then
          Ok (invalid (fieldName ++ " must contain at least "
                       ++ show_Z (default 0 minLength) ++ " elements"))
        else if match maxLength with
                | Some m => m <? Z.of_nat (length items)
                | None => false
                end then
          Ok (invalid (fieldName ++ " cannot contain more than "
                       ++ show_Z (default 0 maxLength) ++ " elements"))
        else if unique && negb (set_size items =? length items)%nat then
          Ok (invalid (fieldName ++ " must contain unique elements"))
        else
          match elementValidator with
          | Some f => validate_elements f 0 items
          | None => Ok valid
          end
    | _ => Ok (invalid (fieldName ++ " must be an array"))
    end.

(** An entry of a [schema]. *)
Record FieldValidator := mkField {
  required : bool;
  validate : JsVal -> result ValidationResult
}.

(** [schema[key]] is truthy for the keys of the schema and for the
    names every object inherits. *)
Definition known_key (schema : list (string * FieldValidator)) (key : string)
  : bool :=
  match own_prop schema key with
  | Some _ => true
  | None => includes object_prototype_keys key
  end.

(** The loop over [Object.entries(schema)].  No schema of the callers
    has a key that objects inherit, so that [obj[key]] is the own
    property of that name, [undefined] when there is none. *)
Fixpoint validate_fields (obj : list (string * JsVal))
  (schema : list (string * FieldValidator)) : result ValidationResult :=
  match schema with
  | [] => Ok valid
  | (key, validator) :: rest =>
      match opt_prop (JObject obj) key with
      | JUndefined =>
          if required validator then Ok (invalid (key ++ " is required"))
          else validate_fields obj rest
      | v =>
          match validate validator v with
          | Throw e => Throw e
          | Ok validation =>
              if negb (isValid validation) then
                Ok (invalid (key ++ ": " ++ vmessage validation))
              else validate_fields obj rest
          end
      end
  end.

(** The own keys of [obj] are those of [fields], in their order. *)
Definition validateObject (obj : JsVal) (schema : list (string * FieldValidator))
  (options : list (string * Opt)) : result ValidationResult :=
  let required := bool_opt options "required" true in
  let allowUnknown := bool_opt options "allowUnknown" false in
  let fieldName := str_opt options "fieldName" "Object" in
  if isEmpty obj then
    Ok (createValidationResult (negb required) (fieldName ++ " is required"))
  else
    match obj with
    | JObject fields =>
        let unknownFields :=
          List.filter (fun key => negb (known_key schema key))
                      (List.map fst fields) in
        if negb allowUnknown && (0 <? length unknownFields)%nat then
          Ok (invalid ("Unknown field(s): " ++ join unknownFields))
        else validate_fields fields schema
    | _ => Ok (invalid (fieldName ++ " must be an object"))
    end.

Definition enum_error : JsError :=
  mkError PlainError "Enum values must be provided as an array".

Definition validateEnum (value : JsVal) (options : list (string * Opt))
  : result ValidationResult :=
  let required := bool_opt options "required" true in
  let values := values_opt options "values" in
  let caseSensitive := bool_opt options "caseSensitive" true in
  let fieldName := str_opt options "fieldName" "Value" in
  if isEmpty value then
    Ok (createValidationResult (negb required) (fieldName ++ " is required"))
  else
    match values with
    | None => Throw enum_error
    | Some values =>
        let found :=
          match value with
          | JString s =>
              if caseSensitive then includes values s
              else includes (List.map toLowerCase values) (toLowerCase s)
          | _ => false
          end in
        if negb found then
          Ok (invalid (fieldName ++ " must be one of: " ++ join values))
        else Ok valid
    end.

End Validation.

(** ** The validators of the pickup requests *)

Module PickupValidation.
Import Status Validation.

Definition WASTE_TYPES : list string :=
  ["sharps"; "biohazard"; "expired_meds"; "others"].
Definition PRIORITIES : list string := ["low"; "medium"; "high"; "urgent"].
Definition MAX_DESCRIPTION_LENGTH : Z := 500.
Definition MAX_VOLUME_KG : Z := 1000.
Definition MAX_NOTE_LENGTH : Z := 200.
Definition MAX_BULK_OPERATIONS : Z := 50.

Definition validateWasteType (type : JsVal) : result ValidationResult :=
  validateEnum type
    [("values", OValues WASTE_TYPES); ("fieldName", OStr "Waste type");
     ("caseSensitive", OBool true)].

Definition validateStatus (status : JsVal) : result ValidationResult :=
  validateEnum status
    [("values", OValues PICKUP_STATUSES); ("fieldName", OStr "Status");
     ("caseSensitive", OBool true)].

Definition validatePriority (priority : JsVal) : result ValidationResult :=
  validateEnum priority
    [("values", OValues PRIORITIES); ("fieldName", OStr "Priority");
     ("caseSensitive", OBool true)].

Definition validateVolume (volumeKg : JsVal) : ValidationResult :=
  validateNumber volumeKg
    [("min", ONum 0); ("max", ONum MAX_VOLUME_KG); ("positive", OBool true);
     ("fieldName", OStr "Volume")].

Definition validateDescription (description : JsVal) : ValidationResult :=
  validateString description
    [("required", OBool false); ("max", ONum MAX_DESCRIPTION_LENGTH);
     ("trim", OBool true); ("fieldName", OStr "Description")].

Definition validateNote (note : JsVal) : ValidationResult :=
  validateString note
    [("required", OBool false); ("max", ONum MAX_NOTE_LENGTH);
     ("trim", OBool true); ("fieldName", OStr "Note")].

(** The validator of [coordinates] inside [validateLocation]. *)
Definition validateCoords (coords : JsVal) : ValidationResult :=
  match coords with
  | JArray [longitude; latitude] =>
      let lonValidation :=
        validateNumber longitude
          [("min", ONum (-180)); ("max", ONum 180);
           ("fieldName", OStr "Longitude")] in
      if negb (isValid lonValidation) then lonValidation
      else
        let latValidation :=
          validateNumber latitude
            [("min", ONum (-90)); ("max", ONum 90);
             ("fieldName", OStr "Latitude")] in
        if negb (isValid latValidation) then latValidation else valid
  | _ => invalid "Coordinates must be an array of [longitude, latitude]"
  end.

Definition validateLocation (location : JsVal) : result ValidationResult :=
  if negb (truthy location) then Ok (invalid "Location is required")
  else
    validateObject location
      [("type",
        mkField true
          (fun type =>
             validateEnum type
               [("values", OValues ["Point"]);
                ("fieldName", OStr "Location type")]));
       ("coordinates", mkField true (fun coords => Ok (validateCoords coords)))]
      [("fieldName", OStr "Location")].

(** [validatePagination(page, limit)] *)
Definition validatePagination (page limit : JsVal) : ValidationResult :=
  combineValidations
    ((match page with
      | JUndefined => []
      | _ =>
          [validateNumber page
             [("required", OBool true); ("min", ONum 1);
              ("integer", OBool true); ("fieldName", OStr "Page")]]
      end) ++
     (match limit with
      | JUndefined => []
      | _ =>
          [validateNumber limit
             [("required", OBool true); ("min", ONum 1); ("max", ONum 100);
              ("integer", OBool true); ("fieldName", OStr "Limit")]]
      end)).

Section External.

(** [mongoose.Types.ObjectId.isValid], on strings. *)
Variable ObjectId_isValid : string -> bool.

(** [validateId]: with [required], [validateString] accepts nothing
    but strings, so that [isValid] is asked about a string. *)
Definition validateId (id : JsVal) (fieldName : string) : ValidationResult :=
  let stringValidation :=
    validateString id [("required", OBool true); ("fieldName", OStr fieldName)] in
  if negb (isValid stringValidation) then stringValidation
  else
    match id with
    | JString s =>
        if negb (ObjectId_isValid s) then
          invalid ("Invalid " ++ fieldName ++ " format")
        else valid
    | _ => valid
    end.

(** The schema of [validatePickupRequestUpdate].  [validateStatus]
    accepts strings only, so that [validateStatusTransition] is called
    with one. *)
Definition update_schema (currentStatus : string)
  : list (string * FieldValidator) :=
  [("wasteType", mkField false validateWasteType);
   ("volumeKg", mkField false (fun v => Ok (validateVolume v)));
   ("description", mkField false (fun v => Ok (validateDescription v)));
   ("location", mkField false validateLocation);
   ("priority", mkField false validatePriority);
   ("status",
    mkField false
      (fun status =>
         match validateStatus status with
         | Throw e => Throw e
         | Ok statusValidation =>
             if negb (isValid statusValidation) then Ok statusValidation
             else
               match status with
               | JString s => validateStatusTransition currentStatus s
               | _ => Ok statusValidation
               end
         end));
   ("note", mkField false (fun v => Ok (validateNote v)))].

Definition validatePickupRequestUpdate (data : JsVal) (currentStatus : string)
  : result ValidationResult :=
  match
    validateObject data (update_schema currentStatus)
      [("fieldName", OStr "Pickup request update"); ("allowUnknown", OBool false)]
  with
  | Throw e => Throw e
  | Ok baseValidation =>
      if negb (isValid baseValidation) then Ok baseValidation
      else if match opt_prop data "status" with
              | JString s => String.eqb s "assigned"
              | _ => false
              end
              && negb (truthy (opt_prop data "collectorId")) then
        Ok (invalid "Collector ID is required when assigning a request")
      else if truthy (opt_prop data "priority")
              && truthy (opt_prop (opt_prop data "emergency") "isEmergency")
              && negb (match opt_prop data "priority" with
                       | JString s => String.eqb s "urgent"
                       | _ => false
                       end) then
        Ok (invalid "Emergency requests must maintain urgent priority")
      else Ok valid
  end.

(** The validator that [validateBulkStatusUpdate] hands to
    [validateArray] under the name [validate]. *)
Definition validate_update (update : JsVal) : result ValidationResult :=
  validateObject update
    [("id", mkField true (fun id => Ok (validateId id "Request ID")));
     ("status", mkField true validateStatus);
     ("note", mkField false (fun v => Ok (validateNote v)))]
    [].

Definition validateBulkStatusUpdate (updates : JsVal) : result ValidationResult :=
  match updates with
  | JArray items =>
      if (length items =? 0)%nat then
        Ok (invalid "Updates array cannot be empty")
      else if MAX_BULK_OPERATIONS <? Z.of_nat (length items) then
        Ok (invalid ("Cannot update more than " ++ show_Z MAX_BULK_OPERATIONS
                     ++ " requests at once"))
      else
        validateArray updates
          [("validate", OValidator validate_update);
           ("fieldName", OStr "Status updates")]
  | _ => Ok (invalid "Updates must be an array")
  end.

End External.

End PickupValidation.

(** ** The cache of the user repository ([userRepository.js]) *)

Module UserCache.
Import Schema Cache Validation.

(** The key under which [findByEmail] caches a user. *)
Definition emailKey (email : string) : string :=
  ("email:" ++ toLowerCase email)%string.

(** [invalidateUserCache(user, oldEmail)], where [email] is
    [user.email].  The loop deletes keys of the [Map] it iterates over,
    which a [Map] allows: every key that is present when its turn comes
    is visited. *)
Definition invalidateUserCache {V} (email oldEmail : option string)
  (c : list (string * Entry V)) : list (string * Entry V) :=
  let c1 :=
    if str_truthy email then map_delete (emailKey (default "" email)) c else c in
  let c2 :=
    if str_truthy oldEmail then map_delete (emailKey (default "" oldEmail)) c1
    else c1 in
  fold_left
    (fun acc key =>
       if String.prefix "search:" key then map_delete key acc else acc)
    (List.map fst c2) c2.

End UserCache.

(** *** Conditions on the values given to the validators *)

Module ValidationConditions.

(** The number [v] is the integer [z]. *)
Definition is_int (v : JsVal) (z : Z) : Prop :=
  exists q, v = JNumber (Num q) /\ (q == inject_Z z)%Q.

End ValidationConditions.

(** * Properties *)

(** ** The status table *)

Module StatusFacts.
Import Status.

Lemma includes_In (l : list string) (s : string) :
  includes l s = true <-> In s l.
Proof.
  unfold includes. rewrite existsb_exists. split.
  - intros (x & Hx & Heq). apply String.eqb_eq in Heq. now subst.
  - intros H. exists s. split; [assumption | apply String.eqb_refl].
Qed.

(** The table, read as a decision on a pair of strings. *)
Lemma table_allows_edge (cur next : string) :
  table_allows cur next = Some true <-> edge cur next.
Proof.
  unfold table_allows, table_lookup, edge. cbn [own_prop validTransitions].
  destruct (String.eqb_spec cur "pending") as [-> | Hp].
  { cbn [includes existsb].
    destruct (String.eqb_spec next "assigned") as [-> | Ha];
      [ cbn; intuition congruence | ].
    destruct (String.eqb_spec next "cancelled") as [-> | Hc];
      [ cbn; intuition congruence | ].
    cbn. intuition congruence. }
  destruct (String.eqb_spec cur "assigned") as [-> | Has].
  { cbn [includes existsb].
    destruct (String.eqb_spec next "collected") as [-> | Ha];
      [ cbn; intuition congruence | ].
    destruct (String.eqb_spec next "cancelled") as [-> | Hc];
      [ cbn; intuition congruence | ].
    cbn. intuition congruence. }
  destruct (String.eqb_spec cur "collected") as [-> | Hco];
    [ cbn; intuition congruence | ].
  destruct (String.eqb_spec cur "cancelled") as [-> | Hca];
    [ cbn; intuition congruence | ].
  destruct (includes object_prototype_keys cur); intuition congruence.
Qed.


(** Nothing is allowed out of collected or cancelled. *)
Lemma method_terminal (cur next : string) :
  cur = "collected" \/ cur = "cancelled" ->
  isOk (method_validateStatusTransition cur next) = false.
Proof. intros [-> | ->]; reflexivity. Qed.



End StatusFacts.

(** ** The cache *)

Module CacheFacts.
Import Cache.

Section WithValue.
Context {V : Type}.
Implicit Types (c : list (string * Entry V)) (key : string) (e : Entry V).

Lemma map_delete_length key c : (length (map_delete key c) <= length c)%nat.
Proof. unfold map_delete. apply filter_length_le. Qed.

Lemma map_delete_oldest key e c :
  (length (map_delete key ((key, e) :: c)) <= length c)%nat.
Proof.
  unfold map_delete. cbn [List.filter fst].
  rewrite String.eqb_refl. cbn [negb]. apply filter_length_le.
Qed.

Lemma map_set_length c key e :
  (length (map_set c key e) <= S (length c))%nat.
Proof.
  unfold map_set. induction c as [| [k' v'] rest IH]; cbn [obj_set length].
  - lia.
  - destruct (String.eqb key k'); cbn [length]; lia.
Qed.

Lemma map_get_delete key c : map_get (map_delete key c) key = None.
Proof.
  unfold map_get, map_delete. induction c as [| [k' v'] rest IH].
  - reflexivity.
  - cbn [List.filter fst]. destruct (String.eqb key k') eqn:E; cbn [negb].
    + exact IH.
    + cbn [own_prop]. rewrite E. exact IH.
Qed.

Lemma map_get_delete_ne key key' c :
  key <> key' -> map_get (map_delete key c) key' = map_get c key'.
Proof.
  intros Hne. unfold map_get, map_delete.
  induction c as [| [k' v'] rest IH].
  - reflexivity.
  - cbn [List.filter fst own_prop].
    destruct (String.eqb_spec key k') as [<- | Hk]; cbn [negb].
    + destruct (String.eqb_spec key' key) as [-> | _]; [congruence | exact IH].
    + cbn [own_prop]. destruct (String.eqb key' k'); [reflexivity | exact IH].
Qed.

Lemma map_get_set key c e : map_get (map_set c key e) key = Some e.
Proof.
  unfold map_get, map_set. induction c as [| [k' v'] rest IH]; cbn [obj_set].
  - cbn [own_prop]. now rewrite String.eqb_refl.
  - destruct (String.eqb key k') eqn:E; cbn [own_prop]; rewrite E;
      [reflexivity | exact IH].
Qed.

Lemma map_get_set_ne key key' c e :
  key <> key' -> map_get (map_set c key e) key' = map_get c key'.
Proof.
  intros Hne. unfold map_get, map_set.
  induction c as [| [k' v'] rest IH]; cbn [obj_set own_prop].
  - destruct (String.eqb_spec key' key); [congruence | reflexivity].
  - destruct (String.eqb_spec key k') as [<- | Hk]; cbn [own_prop].
    + destruct (String.eqb_spec key' key); [congruence | reflexivity].
    + destruct (String.eqb key' k'); [reflexivity | exact IH].
Qed.

(** One call keeps the bound. *)
Lemma setCacheValue_bound now key (v : V) c :
  (length c <= MAX_CACHE_SIZE)%nat ->
  (length (setCacheValue now key v c) <= MAX_CACHE_SIZE)%nat.
Proof.
  intros Hc. unfold setCacheValue.
  destruct (Nat.leb_spec MAX_CACHE_SIZE (length c)) as [Hfull | Hroom].
  - destruct c as [| [k0 e0] rest]; cbn [oldest_key].
    + cbn in Hfull. unfold MAX_CACHE_SIZE in Hfull. lia.
    + etransitivity; [apply map_set_length | ].
      pose proof (map_delete_oldest k0 e0 rest). cbn [length] in Hc. lia.
  - etransitivity; [apply map_set_length | ]. lia.
Qed.

Lemma getCacheValue_length now key c :
  (length (snd (getCacheValue now key c)) <= length c)%nat.
Proof.
  unfold getCacheValue. destruct (map_get c key) as [cached |]; [ | cbn; lia].
  destruct (CACHE_TTL <? now - timestamp cached); cbn [snd];
    [apply map_delete_length | lia].
Qed.

Lemma call_bound c (op : Call V) :
  (length c <= MAX_CACHE_SIZE)%nat -> (length (call c op) <= MAX_CACHE_SIZE)%nat.
Proof.
  intros Hc. destruct op as [now key v | now key]; cbn [call].
  - now apply setCacheValue_bound.
  - etransitivity; [apply getCacheValue_length | exact Hc].
Qed.

Lemma calls_bound (ops : list (Call V)) c :
  (length c <= MAX_CACHE_SIZE)%nat ->
  (length (fold_left call ops c) <= MAX_CACHE_SIZE)%nat.
Proof.
  revert c. induction ops as [| op ops IH]; intros c Hc; cbn [fold_left].
  - exact Hc.
  - apply IH. now apply call_bound.
Qed.

End WithValue.

(** C4.  After every sequence of [setCacheValue] and [getCacheValue]
    calls on a new [Map] the cache holds at most [MAX_CACHE_SIZE] = 1000
    entries.  On a cache of 1000 entries or more, [setCacheValue] deletes
    the oldest-inserted key and then sets the new one: afterwards the
    new key is bound to the value with the time of the call, and the
    oldest key, unless it is the new key, is gone.  [getCacheValue] on
    an entry whose age exceeds [CACHE_TTL] = 300000 ms returns the miss
    and deletes the entry. *)
Theorem cache_bounded (V : Type) :
  MAX_CACHE_SIZE = 1000%nat /\ CACHE_TTL = 300000 /\
  (forall ops : list (Call V), (length (run ops) <= MAX_CACHE_SIZE)%nat) /\
  (forall now key (v : V) oldest e rest,
     (MAX_CACHE_SIZE <= length ((oldest, e) :: rest))%nat ->
     setCacheValue now key v ((oldest, e) :: rest)
     = map_set (map_delete oldest ((oldest, e) :: rest)) key (mkEntry v now) /\
     map_get (setCacheValue now key v ((oldest, e) :: rest)) key
     = Some (mkEntry v now) /\
     (oldest <> key ->
      map_get (setCacheValue now key v ((oldest, e) :: rest)) oldest = None)) /\
  (forall now key (c : list (string * Entry V)) cached,
     map_get c key = Some cached ->
     CACHE_TTL < now - timestamp cached ->
     getCacheValue now key c = (None, map_delete key c) /\
     map_get (map_delete key c) key = None).
Proof.
  split; [reflexivity | ]. split; [reflexivity | ]. split; [ | split].
  - intros ops. unfold run. apply calls_bound. cbn. unfold MAX_CACHE_SIZE. lia.
  - intros now key v oldest e rest Hfull.
    assert (Hset : setCacheValue now key v ((oldest, e) :: rest)
                   = map_set (map_delete oldest ((oldest, e) :: rest)) key
                             (mkEntry v now)).
    { unfold setCacheValue. apply Nat.leb_le in Hfull. now rewrite Hfull. }
    split; [exact Hset | ]. rewrite Hset. split.
    + apply map_get_set.
    + intros Hne. rewrite map_get_set_ne by congruence. apply map_get_delete.
  - intros now key c cached Hget Hold. split; [ | apply map_get_delete].
    unfold getCacheValue. rewrite Hget.
    apply Z.ltb_lt in Hold. now rewrite Hold.
Qed.

(** The theorem on the cache filled by 1000 insertions: the next
    insertion evicts the key ["0"], and a look-up 300001 ms after the
    insertion of ["7"] misses. *)
Lemma cache_bounded_witness :
  length (run (fill 1000)) = 1000%nat /\
  map_get (setCacheValue 1 "fresh" 0%nat (run (fill 1000))) "0" = None /\
  length (setCacheValue 1 "fresh" 0%nat (run (fill 1000))) = 1000%nat /\
  fst (getCacheValue 300001 "7" (run (fill 1000))) = None.
Proof.
  destruct (cache_bounded nat) as (_ & _ & _ & Hset & Hget).
  assert (Hc : exists e rest, run (fill 1000) = ("0", e) :: rest).
  { vm_compute. eauto. }
  destruct Hc as (e & rest & Hc).
  assert (Hlen : length (run (fill 1000)) = 1000%nat) by (vm_compute; reflexivity).
  split; [exact Hlen | ]. split; [ | split].
  - rewrite Hc. apply (Hset 1 "fresh" 0%nat "0" e rest).
    + rewrite <- Hc, Hlen. unfold MAX_CACHE_SIZE. lia.
    + discriminate.
  - vm_compute. reflexivity.
  - assert (Hin : map_get (run (fill 1000)) "7" = Some (mkEntry 7%nat 0))
      by (vm_compute; reflexivity).
    destruct (Hget 300001 "7" (run (fill 1000)) _ Hin) as [-> _];
      [ vm_compute; reflexivity | reflexivity ].
Defined.

End CacheFacts.

(** ** Statistics *)

Module TrendsFacts.
Import Trends.



Section Dates.
Variable mkDate : Z -> Z -> Z -> Z.
Variable getMonth : Z -> Z.
Variable getFullYear : Z -> Z.

Local Abbreviation date_of := (Trends.date_of mkDate).
Local Abbreviation insert_stat := (Trends.insert_stat mkDate).
Local Abbreviation sort_stats := (Trends.sort_stats mkDate).
Local Abbreviation each := (Trends.each mkDate getMonth getFullYear).

(** *** The sort *)

Lemma insert_stat_hd (s x : TimeStat) (l : list TimeStat) :
  date_of x <= date_of s ->
  HdRel Z.le (date_of x) (List.map date_of l) ->
  HdRel Z.le (date_of x) (List.map date_of (insert_stat s l)).
Proof.
  intros Hxs Hl. destruct l as [| y l]; cbn [insert_stat List.map].
  - now constructor.
  - destruct (date_of y <? date_of s); cbn [List.map]; constructor;
      [now inversion Hl | exact Hxs].
Qed.

Lemma insert_stat_sorted (s : TimeStat) (l : list TimeStat) :
  Sorted Z.le (List.map date_of l) ->
  Sorted Z.le (List.map date_of (insert_stat s l)).
Proof.
  induction l as [| x l IH]; intros Hl; cbn [insert_stat List.map].
  - repeat constructor.
  - inversion Hl as [| ? ? Hsorted Hhd]; subst.
    destruct (Z.ltb_spec (date_of x) (date_of s)) as [Hlt | Hge];
      cbn [List.map].
    + constructor; [now apply IH | apply insert_stat_hd; [lia | exact Hhd]].
    + constructor; [exact Hl | constructor; lia].
Qed.

Lemma sort_stats_sorted (l : list TimeStat) :
  Sorted Z.le (List.map date_of (sort_stats l)).
Proof.
  unfold Trends.sort_stats. induction l as [| s l IH]; cbn [fold_right].
  - constructor.
  - now apply insert_stat_sorted.
Qed.





(** *** The loop *)








End Dates.


(** The sample on a server in UTC. *)
Example sample_trends :
  let trends := calculateTrends utc_mkDate utc_getMonth utc_getFullYear sample in
  List.map d_count (daily trends) = [2; 3; 1; 4] /\
  List.map date (daily trends)
  = [1704067200000; 1704412800000; 1705708800000; 1706918400000] /\
  List.map w_count (weekly trends) = [5; 1; 4] /\
  List.map (fun m => (m_year m, m_month m, m_count m)) (monthly trends)
  = [(2024, 1, 6); (2024, 2, 4)].
Proof. vm_compute. repeat split. Qed.

End TrendsFacts.

(** ** The pickup service *)

Module ServiceFacts.
Import Schema Repository Service.

(** No array is a status. *)
Lemma findByStatus_array (items : list JsVal) (st : Repo) :
  findByStatus (JArray items) st = Throw (mkError ValidationError "Invalid status").
Proof. reflexivity. Qed.

Section External.
Variable ObjectId_isValid : string -> bool.
Variable createNotification : Notification -> result unit.

(** C8.  [addPickupRequest] throws a [ValidationError] on every input
    and leaves the repository as it was, so no pickup request is
    created: past its own two checks it calls [findByStatus] with the
    array [['pending', 'assigned']], which [validateStatus] rejects with
    'Invalid status', and the [catch] clause throws that error again. *)
Theorem addPickupRequest_always_throws (now : Z) (oid : string)
  (data : PickupData) (st : Repo) :
  exists msg,
    addPickupRequest ObjectId_isValid createNotification now oid data st
    = (Throw (mkError ValidationError msg), st) /\
    (msg = "Invalid clinic ID" \/ msg = "Invalid coordinates" \/
     msg = "Invalid status") /\
    (validateObjectId ObjectId_isValid (data_clinicId data) = true ->
     (truthy (data_location data) = true ->
      validateCoordinates (opt_prop (data_location data) "coordinates") = true) ->
     msg = "Invalid status").
Proof.
  unfold addPickupRequest.
  destruct (validateObjectId ObjectId_isValid (data_clinicId data)) eqn:Hid;
    cbn [negb].
  - destruct (truthy (data_location data)
              && negb (validateCoordinates
                         (opt_prop (data_location data) "coordinates")))
      eqn:Hloc.
    + exists "Invalid coordinates". cbn. split; [reflexivity | ].
      split; [tauto | ]. intros _ Hc.
      apply andb_true_iff in Hloc as [Ht Hv]. rewrite (Hc Ht) in Hv.
      discriminate.
    + rewrite findByStatus_array. exists "Invalid status". cbn. tauto.
  - exists "Invalid clinic ID". cbn. split; [reflexivity | ].
    split; [tauto | ]. intros H. discriminate.
Qed.

(** C10.  [findNearbyPickups] answers coordinates that
    [validateCoordinates] rejects with the [InternalError] 'Failed to
    fetch nearby pickups' (status code 500), and every error it throws
    is an [InternalError]; [fetchPickupRequestById] throws the
    [ValidationError] (status code 400) of an invalid id as it is. *)
Theorem findNearbyPickups_wraps_validation (location radius : JsVal) :
  (validateCoordinates (opt_prop location "coordinates") = false ->
   findNearbyPickups location radius
   = Throw (mkError InternalError "Failed to fetch nearby pickups")) /\
  (forall e, findNearbyPickups location radius = Throw e ->
             kind e = InternalError /\ kind e <> ValidationError /\
             statusCode (kind e) = Some 500) /\
  (forall now id st,
     validateObjectId ObjectId_isValid (Some id) = false ->
     fetchPickupRequestById ObjectId_isValid now id st
     = (Throw (mkError ValidationError "Invalid pickup request ID"), st) /\
     statusCode ValidationError = Some 400).
Proof.
  split; [ | split].
  - intros Hv. unfold findNearbyPickups. rewrite Hv. reflexivity.
  - intros e. unfold findNearbyPickups, catching.
    destruct (if negb _ then _ else _) as [call | e0]; [discriminate | ].
    intros [= <-]. cbn. repeat split. discriminate.
  - intros now id st Hid. unfold fetchPickupRequestById. rewrite Hid.
    split; reflexivity.
Qed.

End External.

(** The theorem at a point of longitude 200 and at the empty id. *)
Lemma findNearbyPickups_wraps_validation_witness :
  findNearbyPickups
    (JObject [("type", JString "Point");
              ("coordinates", JArray [JNumber (QofZ 200); JNumber (QofZ 0)])])
    JUndefined
  = Throw (mkError InternalError "Failed to fetch nearby pickups") /\
  fetchPickupRequestById hex24 0 "" emptyRepo
  = (Throw (mkError ValidationError "Invalid pickup request ID"), emptyRepo).
Proof.
  split.
  - apply (findNearbyPickups_wraps_validation hex24). reflexivity.
  - apply (findNearbyPickups_wraps_validation hex24 JNull JNull).
    reflexivity.
Defined.

(** The theorem at a well-formed request from a clinic with no active
    request at all: it is refused like every other. *)
Lemma addPickupRequest_always_throws_witness :
  addPickupRequest hex24 (fun _ => Ok tt) 0 request1 sampleRequest
    emptyRepo
  = (Throw (mkError ValidationError "Invalid status"), emptyRepo).
Proof.
  destruct (addPickupRequest_always_throws hex24 (fun _ => Ok tt)
              0 request1 sampleRequest emptyRepo) as (msg & Heq & _ & Hmsg).
  rewrite Heq, Hmsg; reflexivity.
Defined.

(** The repository itself accepts that request. *)
Example create_accepts :
  isOk (fst (create (ids := hexIds) 0 request1 sampleRequest emptyRepo)) = true.
Proof. vm_compute. reflexivity. Qed.

End ServiceFacts.

(** ** The casts and the validators of the schema *)

Module SchemaFacts.
Import Status Schema.

(** What [trim_start] returns does not start with white space. *)
Lemma trim_start_head (l : list ascii) :
  trim_start l = [] \/
  exists c rest, trim_start l = c :: rest /\ is_space c = false.
Proof.
  induction l as [| c rest IH]; cbn [trim_start]; [now left | ].
  destruct (is_space c) eqn:Hc; [exact IH | right; eauto].
Qed.

Lemma trim_start_idem (l : list ascii) :
  trim_start (trim_start l) = trim_start l.
Proof.
  destruct (trim_start_head l) as [-> | (c & rest & -> & Hc)];
    [reflexivity | ].
  cbn [trim_start]. now rewrite Hc.
Qed.

Lemma trim_start_snoc (l : list ascii) (c : ascii) :
  is_space c = false -> trim_start (l ++ [c]) = trim_start l ++ [c].
Proof.
  intros Hc. induction l as [| x rest IH]; cbn [trim_start app].
  - now rewrite Hc.
  - destruct (is_space x); [exact IH | reflexivity].
Qed.

(** Trimming twice is trimming once. *)
Lemma js_trim_idem (s : string) : js_trim (js_trim s) = js_trim s.
Proof.
  unfold js_trim. rewrite list_ascii_of_string_of_list_ascii. f_equal.
  set (a := trim_start (list_ascii_of_string s)).
  assert (Hhead : trim_start (List.rev (trim_start (List.rev a)))
                  = List.rev (trim_start (List.rev a))).
  { destruct (trim_start_head (list_ascii_of_string s))
      as [Hnil | (c & rest & Ha & Hc)]; fold a in Hnil || fold a in Ha.
    - rewrite Hnil. reflexivity.
    - rewrite Ha. cbn [List.rev]. rewrite (trim_start_snoc _ _ Hc).
      rewrite List.rev_app_distr. cbn [List.rev app trim_start].
      now rewrite Hc. }
  rewrite Hhead, List.rev_involutive. now rewrite trim_start_idem.
Qed.

(** A note that the setter has left as it was is a note the setter
    leaves as it is. *)
Lemma cast_entry_valid (e : HistoryEntry) :
  note_ok (h_note e) = true -> cast_entry e = e.
Proof.
  destruct e as [s t [n |]]; unfold cast_entry;
    cbn [note_ok h_note h_status h_updatedAt option_map]; [ | reflexivity].
  intros H. apply andb_true_iff in H as [H _]. apply String.eqb_eq in H.
  now rewrite H.
Qed.

(** The cast changes nothing in a history that has gone through it. *)
Lemma cast_history_valid (h : list HistoryEntry) :
  history_valid h = true -> cast_history h = h.
Proof.
  unfold history_valid, cast_history.
  induction h as [| e rest IH]; cbn [forallb List.map]; [reflexivity | ].
  intros H. apply andb_true_iff in H as [He Hrest].
  apply andb_true_iff in He as [_ He].
  now rewrite (cast_entry_valid _ He), (IH Hrest).
Qed.

Lemma history_valid_app (h1 h2 : list HistoryEntry) :
  history_valid (h1 ++ h2) = history_valid h1 && history_valid h2.
Proof. unfold history_valid. apply forallb_app. Qed.

Lemma cast_history_app (h1 h2 : list HistoryEntry) :
  cast_history (h1 ++ h2) = cast_history h1 ++ cast_history h2.
Proof. apply List.map_app. Qed.

(** The validators on an entry that has just been cast: the status is
    one of the enumeration and the trimmed note has no more than 200
    characters. *)
Lemma history_valid_cast_entry (s : string) (t : Z) (note : option string) :
  history_valid (cast_history [mkHistory s t note])
  = includes PICKUP_STATUSES s && note_fits note.
Proof.
  unfold history_valid, cast_history, cast_entry, note_fits.
  cbn [List.map forallb h_status h_note h_updatedAt]. rewrite andb_true_r.
  destruct note as [n |]; cbn [option_map note_ok]; [ | reflexivity].
  now rewrite js_trim_idem, String.eqb_refl.
Qed.

(** A valid history with one more entry, through the cast of an
    update. *)
Lemma history_valid_cast_snoc (h : list HistoryEntry) (s : string) (t : Z)
  (note : option string) :
  history_valid h = true ->
  cast_history (h ++ [mkHistory s t note])
  = h ++ [mkHistory s t (option_map js_trim note)] /\
  history_valid (cast_history (h ++ [mkHistory s t note]))
  = includes PICKUP_STATUSES s && note_fits note.
Proof.
  intros Hh. rewrite cast_history_app, (cast_history_valid _ Hh). split.
  - reflexivity.
  - now rewrite history_valid_app, Hh, history_valid_cast_entry.
Qed.

End SchemaFacts.

(** ** The repository *)

Module RepositoryFacts.
Import Status Schema Cache Repository.
Import StatusFacts CacheFacts.

(** *** The document model and the hook *)

Lemma includes_app (l1 l2 : list string) (s : string) :
  includes (l1 ++ l2) s = includes l1 s || includes l2 s.
Proof. unfold includes. apply existsb_app. Qed.

Lemma includes_given {A} (name : string) (o : option A) (s : string) :
  includes (given name o) s = is_some o && String.eqb s name.
Proof. destruct o; cbn; [now rewrite orb_false_r | reflexivity]. Qed.

(** The constructor marks [status] exactly when it is given one. *)
Lemma new_model_status_modified (now : Z) (oid : string) (data : PickupData) :
  isModified (new_model now oid data) "status" = is_some (data_status data).
Proof.
  unfold isModified, new_model, paths_of. cbn [modifiedPaths].
  rewrite !includes_app, !includes_given.
  destruct (data_location data); cbn;
    rewrite ?andb_false_r, ?andb_true_r, ?orb_false_r; reflexivity.
Qed.

(** The hook leaves an emergency urgent, whatever the document was. *)
Lemma pre_save_emergency_urgent (now : Z) (i : Instance) :
  emergency_urgent (pre_save now i).
Proof.
  unfold emergency_urgent, pre_save.
  set (this := if isModified i "status" then _ else doc i).
  destruct (isEmergency this) eqn:He; cbn [andb].
  - destruct (String.eqb_spec (priority this) "urgent") as [Hp | Hp]; cbn [negb].
    + intros _. exact Hp.
    + intros _. reflexivity.
  - congruence.
Qed.

(** The hook keeps the status and extends the history by at most the
    entry of the current status. *)
Lemma pre_save_status (now : Z) (i : Instance) :
  status (pre_save now i) = status (doc i) /\
  _id (pre_save now i) = _id (doc i) /\
  statusHistory (pre_save now i)
  = statusHistory (doc i) ++
    (if isModified i "status" then [mkHistory (status (doc i)) now None] else []).
Proof.
  unfold pre_save. destruct (isModified i "status");
    match goal with |- context [if ?b then _ else _] => destruct b end;
    cbn; rewrite ?app_nil_r; repeat split.
Qed.

(** *** [create] *)

(** What a successful [create] has done. *)
Lemma create_ok {ids : ObjectIds}
  (now : Z) (oid : string) (data : PickupData) (st st' : Repo)
  (created : Doc) :
  create now oid data st = (Ok created, st') ->
  _id created = oid /\
  status created = "pending" /\
  statusHistory created
  = [mkHistory "pending" now None; mkHistory "pending" now None] /\
  emergency_urgent created /\
  db st !! oid = None /\
  st' = mkRepo (<[oid := created]> (db st)) (cache st).
Proof.
  unfold create.
  repeat match goal with
         | |- context [if ?b then (Throw _, _) else _] =>
             destruct b; [discriminate | ]
         end.
  match goal with |- base_create _ _ ?d _ = _ -> _ => set (data' := d) end.
  unfold base_create, save.
  destruct (schema_valid now (new_model now oid data')); cbn [negb];
    [ | cbn; discriminate].
  pose proof (pre_save_status now (new_model now oid data')) as (Hs & Hid & Hh).
  pose proof (pre_save_emergency_urgent now (new_model now oid data')) as He.
  rewrite new_model_status_modified in Hh.
  set (d := pre_save now (new_model now oid data')) in *.
  cbn in Hs, Hid, Hh.
  destruct (db st !! _id d) eqn:Hfree; [cbn; discriminate | ].
  intros [= <- <-]. rewrite Hid in *. repeat split; assumption.
Qed.

(** C5 as the code has it.  A pickup request that [create] returns
    has status 'pending' whatever status and history the caller
    supplied, and its [statusHistory] holds two 'pending' entries: the
    one [create] writes and the one the [pre('save')] hook pushes,
    because the constructor has marked [status] as modified. *)
Theorem create_status_history {ids : ObjectIds}
  (now : Z) (oid : string) (data : PickupData)
  (st st' : Repo) (created : Doc) :
  create now oid data st = (Ok created, st') ->
  status created = "pending" /\
  List.map h_status (statusHistory created) = ["pending"; "pending"] /\
  statusHistory created <> [mkHistory "pending" now None].
Proof.
  intros H. apply create_ok in H as (_ & Hs & Hh & _).
  rewrite Hh. repeat split; [exact Hs | discriminate].
Qed.

(** The theorem on a request that names a status and a history of
    its own. *)
Lemma create_status_history_witness :
  exists created st',
    create (ids := hexIds) 7 request1 presetRequest emptyRepo
    = (Ok created, st') /\
    status created = "pending" /\
    List.map h_status (statusHistory created) = ["pending"; "pending"].
Proof.
  destruct (create (ids := hexIds) 7 request1 presetRequest emptyRepo)
    as [[created | e] st'] eqn:Hc.
  - exists created, st'. split; [reflexivity | ].
    destruct (create_status_history _ _ _ _ _ _ Hc) as (Hs & Hh & _).
    now split.
  - exfalso. vm_compute in Hc. discriminate.
Defined.

(** *** [findById] and the cache *)

Lemma cacheKey_inj (id id' : string) : cacheKey id = cacheKey id' -> id = id'.
Proof. unfold cacheKey. cbn. intros [= H]. exact H. Qed.

Lemma map_get_delete_Some {V} (key key' : string)
  (c : list (string * Entry V)) (e : Entry V) :
  map_get (map_delete key c) key' = Some e -> map_get c key' = Some e.
Proof.
  destruct (String.eqb_spec key key') as [<- | Hne].
  - rewrite map_get_delete. discriminate.
  - now rewrite map_get_delete_ne.
Qed.

Lemma setCacheValue_get {V} (now : Z) (key key' : string) (v : V)
  (c : list (string * Entry V)) (e : Entry V) :
  map_get (setCacheValue now key v c) key' = Some e ->
  (key' = key /\ e = mkEntry v now) \/ map_get c key' = Some e.
Proof.
  unfold setCacheValue.
  set (c1 := if (MAX_CACHE_SIZE <=? length c)%nat then _ else c).
  assert (Hc1 : forall k x, map_get c1 k = Some x -> map_get c k = Some x).
  { intros k x. subst c1. destruct (MAX_CACHE_SIZE <=? length c)%nat; [ | tauto].
    destruct (oldest_key c); [apply map_get_delete_Some | tauto]. }
  destruct (String.eqb_spec key key') as [<- | Hne].
  - rewrite map_get_set. intros [= <-]. now left.
  - rewrite map_get_set_ne by assumption. intros H. right. now apply Hc1.
Qed.

(** A look-up changes nothing in the collection; what it returns is a
    cached value or the stored document, and what it leaves in the cache
    was there before or is the stored document under its own key. *)
Lemma findById_spec (now : Z) (id : string) (st st1 : Repo) (r : result Doc) :
  findById now id st = (r, st1) ->
  db st1 = db st /\
  (forall key e,
     map_get (cache st1) key = Some e ->
     map_get (cache st) key = Some e \/
     (key = cacheKey id /\ db st !! id = Some (value e))) /\
  (forall request,
     r = Ok request ->
     (exists e, map_get (cache st) (cacheKey id) = Some e /\
                value e = request /\ now - timestamp e <= CACHE_TTL) \/
     (db st !! id = Some request /\ isDeleted request = false)).
Proof.
  unfold findById, getCacheValue.
  destruct (map_get (cache st) (cacheKey id)) as [cached |] eqn:Hget.
  - destruct (Z.ltb_spec CACHE_TTL (now - timestamp cached)) as [Hold | Hfresh].
    + unfold findOne_live. destruct (db st !! id) as [d |] eqn:Hdb.
      * destruct (isDeleted d) eqn:Hdel.
        -- intros [= <- <-]. cbn. split; [reflexivity | ]. split.
           ++ intros key e H. left. eapply map_get_delete_Some, H.
           ++ intros request [=].
        -- intros [= <- <-]. cbn. split; [reflexivity | ]. split.
           ++ intros key e H. apply setCacheValue_get in H as [[-> ->] | H].
              ** right. now split.
              ** left. eapply map_get_delete_Some, H.
           ++ intros request [= <-]. right. now split.
      * intros [= <- <-]. cbn. split; [reflexivity | ]. split.
        -- intros key e H. left. eapply map_get_delete_Some, H.
        -- intros request [=].
    + intros [= <- <-]. cbn. split; [reflexivity | ]. split.
      * intros key e H. now left.
      * intros request [= <-]. left. exists cached. repeat split. lia.
  - unfold findOne_live. destruct (db st !! id) as [d |] eqn:Hdb.
    + destruct (isDeleted d) eqn:Hdel.
      * intros [= <- <-]. cbn. split; [reflexivity | ]. split.
        -- intros key e H. now left.
        -- intros request [=].
      * intros [= <- <-]. cbn. split; [reflexivity | ]. split.
        -- intros key e H. apply setCacheValue_get in H as [[-> ->] | H].
           ++ right. now split.
           ++ now left.
        -- intros request [= <-]. right. now split.
    + intros [= <- <-]. cbn. split; [reflexivity | ]. split.
      * intros key e H. now left.
      * intros request [=].
Qed.

(** *** [update] *)

(** An [update] that throws has written nothing; one that returns has
    loaded the request, passed the checks and replaced the stored
    document.  Either way the cache holds nothing new but, possibly,
    the stored document. *)
Lemma update_spec {ids : ObjectIds}
  (now : Z) (id : string) (data : PickupData) (st st' : Repo)
  (r : result Doc) :
  update now id data st = (r, st') ->
  (forall key e,
     map_get (cache st') key = Some e ->
     map_get (cache st) key = Some e \/
     (key = cacheKey id /\ db st !! id = Some (value e))) /\
  match r with
  | Throw _ => db st' = db st
  | Ok updated =>
      exists request st1 d,
        findById now id st = (Ok request, st1) /\
        check_transition request data = Ok tt /\
        db st !! id = Some d /\
        updated = apply_update (update_object now request data) d /\
        db st' = <[id := updated]> (db st) /\
        update_valid (update_object now request data) = true /\
        map_get (cache st') (cacheKey id) = None
  end.
Proof.
  unfold update.
  repeat match goal with
         | |- context [if ?b then (Throw _, _) else _] =>
             destruct b; [intros [= <- <-]; split; [tauto | reflexivity] | ]
         end.
  destruct (findById now id st) as [[request | e] st1] eqn:Hf.
  2:{ intros [= <- <-]. apply findById_spec in Hf as (Hdb & Hcache & _).
      now split. }
  pose proof Hf as Hspec. apply findById_spec in Hspec as (Hdb & Hcache & _).
  destruct (check_transition request data) as [[] | e] eqn:Hcheck.
  2:{ intros [= <- <-]. now split. }
  unfold base_update.
  destruct (update_casts (update_object now request data)) eqn:Hcasts;
    cbn [negb].
  2:{ intros [= <- <-]. now split. }
  destruct (update_valid (update_object now request data)) eqn:Hvalid;
    cbn [negb].
  2:{ intros [= <- <-]. now split. }
  rewrite Hdb. destruct (db st !! id) as [d |] eqn:Hd.
  2:{ intros [= <- <-]. now split. }
  intros [= <- <-]. cbn [cache db]. split.
  - intros key e H. apply map_get_delete_Some in H. now apply Hcache.
  - exists request, st1, d. repeat split; try reflexivity; try assumption.
    apply map_get_delete.
Qed.

(** *** The emergency flag *)

(** [updatePriority] refuses to lower an emergency. *)
Lemma updatePriority_rejects {ids : ObjectIds}
  (now : Z) (id level note : string)
  (st st1 : Repo) (request : Doc) :
  findById now id st = (Ok request, st1) ->
  isEmergency request = true ->
  level <> "urgent" ->
  exists e st2,
    updatePriority now id level note st = (Throw e, st2) /\
    kind e = ValidationError /\ db st2 = db st.
Proof.
  intros Hf He Hl. unfold updatePriority.
  destruct (includes PRIORITIES level); cbn [negb].
  - rewrite Hf, He. apply String.eqb_neq in Hl. rewrite Hl. cbn [andb negb].
    apply findById_spec in Hf as (Hdb & _). eauto.
  - eauto.
Qed.

(** *** Bulk operations *)

Lemma check_status_update_db (now : Z) (u : StatusUpdate) (st st1 : Repo)
  (r : result UpdateOne) :
  check_status_update now u st = (r, st1) -> db st1 = db st.
Proof.
  unfold check_status_update.
  destruct (negb (str_truthy (u_id u)) || negb (str_truthy (u_status u)));
    [now intros [= _ <-] | ].
  destruct (findById now (default "" (u_id u)) st) as [[pickup | e] st'] eqn:Hf;
    apply findById_spec in Hf as (Hdb & _).
  - destruct (method_validateStatusTransition _ _); now intros [= _ <-].
  - now intros [= _ <-].
Qed.

Lemma check_assignment_db (now : Z) (a : Assignment) (st st1 : Repo)
  (r : result UpdateOne) :
  check_assignment now a st = (r, st1) -> db st1 = db st.
Proof.
  unfold check_assignment.
  destruct (negb (str_truthy (a_pickupId a)) || negb (str_truthy (a_collectorId a)));
    [now intros [= _ <-] | ].
  destruct (findById now (default "" (a_pickupId a)) st)
    as [[pickup | e] st'] eqn:Hf;
    apply findById_spec in Hf as (Hdb & _).
  - destruct (negb (String.eqb (status pickup) "pending")); now intros [= _ <-].
  - now intros [= _ <-].
Qed.

Section Validation.
Context {U : Type}.
Variable check : U -> Repo -> result UpdateOne * Repo.
Variable ident : U -> option string.
Hypothesis check_db :
  forall u st st1 r, check u st = (r, st1) -> db st1 = db st.

(** The loop writes nothing, sorts every entry into an operation or an
    error, and files each error under the index and the id of its
    entry. *)
Lemma validate_entries_spec (entries : list U) (index : nat) (st st1 : Repo)
  (ops : list UpdateOne) (errors : list EntryError) :
  validate_entries check ident index entries st = (ops, errors, st1) ->
  db st1 = db st /\
  (length ops + length errors = length entries)%nat /\
  (forall err, In err errors ->
     exists u, (index <= e_index err)%nat /\
               nth_error entries (e_index err - index) = Some u /\
               e_id err = ident u).
Proof.
  revert index st st1 ops errors.
  induction entries as [| u rest IH]; intros index st st1 ops errors;
    cbn [validate_entries].
  - intros [= <- <- <-]. repeat split. intros err [].
  - destruct (check u st) as [r st'] eqn:Hcheck.
    destruct (validate_entries check ident (S index) rest st')
      as [[ops' errors'] st2] eqn:Hrest.
    apply IH in Hrest as (Hdb & Hlen & Herr).
    apply check_db in Hcheck.
    assert (Hold : forall err, In err errors' ->
              exists u0, (index <= e_index err)%nat /\
                nth_error (u :: rest) (e_index err - index) = Some u0 /\
                e_id err = ident u0).
    { intros err Hin. destruct (Herr err Hin) as (u0 & Hle & Hnth & Hid).
      exists u0. split; [lia | ]. split; [ | exact Hid].
      replace (e_index err - index)%nat with (S (e_index err - S index)) by lia.
      exact Hnth. }
    destruct r as [op | e]; intros [= <- <- <-]; cbn [length].
    + split; [congruence | ]. split; [lia | exact Hold].
    + split; [congruence | ]. split; [lia | ].
      intros err [<- | Hin]; [ | now apply Hold].
      exists u. cbn [e_index e_id]. rewrite Nat.sub_diag. now repeat split.
Qed.

(** After the loop: one error is enough for nothing to be written;
    with none, the operations go out in a single unordered [bulkWrite]. *)
Lemma finish_bulk_spec (failed none : string) (ops : list UpdateOne)
  (errors : list EntryError) (st1 : Repo) :
  (errors <> [] ->
   finish_bulk failed none (ops, errors, st1)
   = (Throw (mkError ValidationError failed), st1)) /\
  (errors = [] -> ops <> [] ->
   finish_bulk failed none (ops, errors, st1)
   = (Ok (mkBulkResult true
            (snd (bulkWrite (mkBulkWrite ops false) (db st1)))
            (snd (bulkWrite (mkBulkWrite ops false) (db st1))) None),
      mkRepo (fst (bulkWrite (mkBulkWrite ops false) (db st1))) (cache st1))) /\
  (errors = [] -> ops = [] ->
   finish_bulk failed none (ops, errors, st1)
   = (Ok (mkBulkResult false 0 0 (Some none)), st1)).
Proof.
  unfold finish_bulk. split; [ | split].
  - intros Hne. destruct errors; [contradiction | reflexivity].
  - intros -> Hne. destruct ops; [contradiction | ]. cbn [length Nat.ltb Nat.leb].
    destruct (bulkWrite _ _). reflexivity.
  - intros -> ->. reflexivity.
Qed.

End Validation.




(** *** Terminal statuses and the cache *)

(** C3 on the code.  The request [request1] is cancelled by
    [bulkUpdateStatus] at time 10; the collection then says 'cancelled'
    while the cache still holds the request as 'pending', because the
    bulk functions, unlike [update], do not delete the cache entry.  At
    time 20, within the five minutes of the entry, each of
    [bulkUpdateStatus], [bulkAssignCollectors] and [update] validates
    against the cached status, returns, and leaves the stored request
    'assigned'.  Once the entry has expired the same calls throw and the
    request stays 'cancelled'. *)
Theorem cancelled_request_reassigned_through_cache :
  status_of request1 cancelledRepo = Some "cancelled" /\
  List.map (fun kv => (fst kv, status (value (snd kv)))) (cache cancelledRepo)
  = [(cacheKey request1, "pending")] /\
  (isOk (fst (bulkUpdateStatus 20
                [mkStatusUpdate (Some request1) (Some "assigned") None]
                cancelledRepo)) = true /\
   status_of request1 (snd (bulkUpdateStatus 20
                          [mkStatusUpdate (Some request1) (Some "assigned") None]
                          cancelledRepo)) = Some "assigned") /\
  (isOk (fst (bulkAssignCollectors 20
                [mkAssignment (Some request1) (Some collector1) None]
                cancelledRepo)) = true /\
   status_of request1 (snd (bulkAssignCollectors 20
                          [mkAssignment (Some request1) (Some collector1) None]
                          cancelledRepo)) = Some "assigned") /\
  (isOk (fst (update (ids := hexIds) 20 request1 assignData cancelledRepo))
   = true /\
   status_of request1
     (snd (update (ids := hexIds) 20 request1 assignData cancelledRepo))
   = Some "assigned") /\
  (isOk (fst (bulkUpdateStatus 300011
                [mkStatusUpdate (Some request1) (Some "assigned") None]
                cancelledRepo)) = false /\
   status_of request1 (snd (bulkUpdateStatus 300011
                          [mkStatusUpdate (Some request1) (Some "assigned") None]
                          cancelledRepo)) = Some "cancelled") /\
  (isOk (fst (update (ids := hexIds) 300011 request1 assignData cancelledRepo))
   = false /\
   status_of request1
     (snd (update (ids := hexIds) 300011 request1 assignData cancelledRepo))
   = Some "cancelled").
Proof. vm_compute. repeat split. Qed.

(** The three operations do keep a terminal status when the cache
    agrees with the collection on the status of the request: the defect
    above needs the stale entry. *)

Lemma findById_status_agrees (now : Z) (id id' : string) (st st1 : Repo)
  (r : result Doc) :
  findById now id' st = (r, st1) ->
  cached_status_agrees id st -> cached_status_agrees id st1.
Proof.
  intros Hf Hagree. apply findById_spec in Hf as (Hdb & Hcache & _).
  intros e d Hget Hd. rewrite Hdb in Hd.
  apply Hcache in Hget as [Hold | [Hkey Hnew]].
  - eapply Hagree; eassumption.
  - apply cacheKey_inj in Hkey as ->. congruence.
Qed.

Lemma findById_loads_status (now : Z) (id : string) (st st1 : Repo)
  (request d : Doc) :
  cached_status_agrees id st -> db st !! id = Some d ->
  findById now id st = (Ok request, st1) -> status request = status d.
Proof.
  intros Hagree Hd Hf. apply findById_spec in Hf as (_ & _ & Hreq).
  destruct (Hreq request eq_refl) as [(e & Hget & <- & _) | [Hst _]].
  - eapply Hagree; eassumption.
  - congruence.
Qed.

Lemma update_keeps_terminal {ids : ObjectIds}
  (now : Z) (id s : string) (data : PickupData)
  (st : Repo) (d : Doc) :
  db st !! id = Some d -> terminal (status d) -> cached_status_agrees id st ->
  data_status data = Some s -> s <> status d ->
  exists e st', update now id data st = (Throw e, st') /\ db st' = db st.
Proof.
  intros Hd Hterm Hagree Hs Hne.
  destruct (update now id data st) as [[updated | e] st'] eqn:Hu.
  - exfalso. apply update_spec in Hu
      as (_ & request & st1 & d' & Hf & Hcheck & _ & _ & _ & Hvalid & _).
    pose proof (findById_loads_status _ _ _ _ _ _ Hagree Hd Hf) as Hst.
    unfold check_transition in Hcheck. rewrite Hs, Hst in Hcheck.
    cbn [str_truthy str_is] in Hcheck.
    destruct (String.eqb_spec s "") as [-> | Hs0]; cbn [negb] in Hcheck.
    + unfold update_valid, update_object in Hvalid. cbn [data_status] in Hvalid.
      rewrite Hs in Hvalid. cbn in Hvalid.
      rewrite !andb_false_r in Hvalid. discriminate.
    + destruct Hterm as [Ht | Ht]; rewrite Ht in *; cbn in Hcheck;
        destruct (String.eqb_spec s "collected");
        destruct (String.eqb_spec s "cancelled");
        cbn in Hcheck; congruence.
  - apply update_spec in Hu as (_ & Hdb). eauto.
Qed.

Section Refusal.
Context {U : Type}.
Variable check : U -> Repo -> result UpdateOne * Repo.
Variable ident : U -> option string.
Variable holds : Repo -> Prop.
Hypothesis check_holds :
  forall u st st1 r, holds st -> check u st = (r, st1) -> holds st1.

(** An entry whose check throws in every state of the loop leaves an
    error behind. *)
Lemma validate_entries_error (u : U) (entries : list U) (index : nat)
  (st st1 : Repo) (ops : list UpdateOne) (errors : list EntryError) :
  In u entries ->
  (forall st0, holds st0 -> isOk (fst (check u st0)) = false) ->
  holds st ->
  validate_entries check ident index entries st = (ops, errors, st1) ->
  errors <> [].
Proof.
  intros Hin Hfail. revert index st st1 ops errors.
  induction entries as [| x rest IH]; intros index st st1 ops errors Hst;
    [destruct Hin | ].
  cbn [validate_entries].
  destruct (check x st) as [r st'] eqn:Hcheck.
  destruct (validate_entries check ident (S index) rest st')
    as [[ops' errors'] st2] eqn:Hrest.
  pose proof (check_holds _ _ _ _ Hst Hcheck) as Hst'.
  destruct Hin as [-> | Hin].
  - specialize (Hfail st Hst). rewrite Hcheck in Hfail. cbn in Hfail.
    destruct r; [discriminate | ]. intros [= _ <- _]. discriminate.
  - pose proof (IH Hin _ _ _ _ _ Hst' Hrest) as Hne.
    destruct r; intros [= _ <- _]; [exact Hne | discriminate].
Qed.

End Refusal.

Lemma bulk_keeps_terminal (now : Z) (id : string) (st : Repo) (d : Doc) :
  db st !! id = Some d -> terminal (status d) -> cached_status_agrees id st ->
  (forall updates u,
     In u updates -> u_id u = Some id ->
     exists e st', bulkUpdateStatus now updates st = (Throw e, st') /\
                   db st' = db st) /\
  (forall assignments a,
     In a assignments -> a_pickupId a = Some id ->
     exists e st', bulkAssignCollectors now assignments st = (Throw e, st') /\
                   db st' = db st).
Proof.
  intros Hd Hterm Hagree.
  set (holds := fun st0 => db st0 = db st /\ cached_status_agrees id st0).
  assert (Hst : holds st) by (split; [reflexivity | exact Hagree]).
  split.
  - intros updates u Hin Hid.
    destruct (validate_entries (check_status_update now) u_id 0 updates st)
      as [[ops errors] st1] eqn:Hv.
    assert (Hne : errors <> []).
    { eapply (validate_entries_error (check_status_update now) u_id holds);
        [ | exact Hin | | exact Hst | exact Hv].
      - intros u0 st0 st0' r [Hdb0 Hag0] Hc. split.
        + apply check_status_update_db in Hc. congruence.
        + unfold check_status_update in Hc.
          destruct (negb (str_truthy (u_id u0)) || negb (str_truthy (u_status u0)));
            [now injection Hc as _ <- | ].
          destruct (findById now (default "" (u_id u0)) st0)
            as [[pickup | e] st2] eqn:Hf;
            pose proof (findById_status_agrees _ _ _ _ _ _ Hf Hag0);
            [destruct (method_validateStatusTransition _ _) | ];
            now injection Hc as _ <-.
      - intros st0 [Hdb0 Hag0]. unfold check_status_update. rewrite Hid.
        destruct (negb (str_truthy (Some id)) || negb (str_truthy (u_status u)));
          [reflexivity | ].
        change (default "" (Some id)) with id.
        destruct (findById now id st0) as [[pickup | e] st2] eqn:Hf;
          [ | reflexivity].
        rewrite <- Hdb0 in Hd.
        rewrite (findById_loads_status _ _ _ _ _ _ Hag0 Hd Hf).
        pose proof (method_terminal (status d) (default "" (u_status u)) Hterm).
        destruct (method_validateStatusTransition _ _); [discriminate | reflexivity]. }
    destruct (validate_entries_spec _ u_id (check_status_update_db now)
                _ _ _ _ _ _ Hv) as (Hdb & _).
    unfold bulkUpdateStatus. rewrite Hv.
    destruct (finish_bulk_spec "Bulk update validation failed"
                "No valid updates to process" ops errors st1) as (Hthrow & _).
    rewrite (Hthrow Hne). eauto.
  - intros assignments a Hin Hid.
    destruct (validate_entries (check_assignment now) a_pickupId 0 assignments st)
      as [[ops errors] st1] eqn:Hv.
    assert (Hne : errors <> []).
    { eapply (validate_entries_error (check_assignment now) a_pickupId holds);
        [ | exact Hin | | exact Hst | exact Hv].
      - intros a0 st0 st0' r [Hdb0 Hag0] Hc. split.
        + apply check_assignment_db in Hc. congruence.
        + unfold check_assignment in Hc.
          destruct (negb (str_truthy (a_pickupId a0))
                    || negb (str_truthy (a_collectorId a0)));
            [now injection Hc as _ <- | ].
          destruct (findById now (default "" (a_pickupId a0)) st0)
            as [[pickup | e] st2] eqn:Hf;
            pose proof (findById_status_agrees _ _ _ _ _ _ Hf Hag0);
            [destruct (negb (String.eqb (status pickup) "pending")) | ];
            now injection Hc as _ <-.
      - intros st0 [Hdb0 Hag0]. unfold check_assignment. rewrite Hid.
        destruct (negb (str_truthy (Some id))
                  || negb (str_truthy (a_collectorId a)));
          [reflexivity | ].
        change (default "" (Some id)) with id.
        destruct (findById now id st0) as [[pickup | e] st2] eqn:Hf;
          [ | reflexivity].
        rewrite <- Hdb0 in Hd.
        rewrite (findById_loads_status _ _ _ _ _ _ Hag0 Hd Hf).
        destruct Hterm as [-> | ->]; reflexivity. }
    destruct (validate_entries_spec _ a_pickupId (check_assignment_db now)
                _ _ _ _ _ _ Hv) as (Hdb & _).
    unfold bulkAssignCollectors. rewrite Hv.
    destruct (finish_bulk_spec "Bulk assignment validation failed"
                "No valid assignments to process" ops errors st1) as (Hthrow & _).
    rewrite (Hthrow Hne). eauto.
Qed.

(** *** [findNearby] *)







End RepositoryFacts.

(** ** The emergency flag and the priority, across the layers *)

Module EmergencyFacts.
Import Schema Cache Repository Service Service2 RepositoryFacts.

(** [update] on a stored request that is not cached, with the priority
    'low' and nothing else: the checks pass, the validators of the
    update have nothing against 'low', and the priority is written. *)
Lemma update_lowerPriority {ids : ObjectIds} (now : Z) (id : string)
  (st : Repo) (d : Doc) :
  db st !! id = Some d -> isDeleted d = false ->
  map_get (cache st) (cacheKey id) = None ->
  update now id lowerPriority st
  = (Ok (with_priority "low" d),
     mkRepo (<[id := with_priority "low" d]> (db st))
            (map_delete (cacheKey id)
               (setCacheValue now (cacheKey id) d (cache st)))).
Proof.
  intros Hd Hlive Hnone. unfold update, findById, getCacheValue, findOne_live.
  cbn [lowerPriority data_status data_wasteType data_volumeKg str_truthy
       num_truthy andb].
  rewrite Hnone, Hd, Hlive. cbn [check_transition lowerPriority data_status
                                  str_truthy].
  unfold base_update. cbn [db]. rewrite Hd.
  destruct d; reflexivity.
Qed.

Section External.
Variable ObjectId_isValid : string -> bool.
Variable createNotification : Notification -> result unit.

(** C9 as the code has it.  The [pre('save')] hook returns an urgent
    document for an emergency, whatever it was given; a request that
    [create] returns and stores is urgent when it is an emergency; and
    [updatePriority] throws a [ValidationError], writing nothing, when
    the request it has loaded is an emergency and the priority asked for
    is not 'urgent'.  The priority of a stored emergency is nevertheless
    not kept at 'urgent': [update], called with the priority 'low' and
    nothing else on a stored emergency that is not cached, returns and
    stores the request with the priority 'low', and so does
    [modifyPickupRequest] of the service, which checks the id and calls
    [update]. *)
Theorem emergency_priority_lowered_by_update :
  (forall now i, emergency_urgent (pre_save now i)) /\
  (forall now oid data st created st',
     create (ids := mkIds ObjectId_isValid) now oid data st
     = (Ok created, st') ->
     emergency_urgent created /\ db st' !! oid = Some created) /\
  (forall now id level note st st1 request,
     findById now id st = (Ok request, st1) ->
     isEmergency request = true ->
     level <> "urgent" ->
     exists e st2,
       updatePriority (ids := mkIds ObjectId_isValid) now id level note st
       = (Throw e, st2) /\
       kind e = ValidationError /\ db st2 = db st) /\
  (forall now id st d,
     db st !! id = Some d -> isDeleted d = false ->
     map_get (cache st) (cacheKey id) = None ->
     isEmergency d = true -> priority d = "urgent" ->
     exists updated st',
       update (ids := mkIds ObjectId_isValid) now id lowerPriority st
       = (Ok updated, st') /\
       db st' !! id = Some updated /\
       isEmergency updated = true /\ priority updated = "low" /\
       (id <> "" -> ObjectId_isValid id = true ->
        modifyPickupRequest ObjectId_isValid createNotification now id
          lowerPriority st
        = (Ok updated, st'))).
Proof.
  split; [exact pre_save_emergency_urgent | ].
  split; [ | split].
  - intros now oid data st created st' Hc.
    apply create_ok in Hc as (_ & _ & _ & Hurgent & _ & ->).
    split; [exact Hurgent | ]. cbn [db]. apply lookup_insert_eq.
  - intros; eapply updatePriority_rejects; eassumption.
  - intros now id st d Hd Hlive Hnone Hem _.
    pose proof (update_lowerPriority (ids := mkIds ObjectId_isValid)
                  now id st d Hd Hlive Hnone) as Hu.
    eexists _, _. split; [exact Hu | ].
    split; [cbn [db]; apply lookup_insert_eq | ].
    split; [exact Hem | ]. split; [reflexivity | ].
    intros Hid Hvalid. unfold modifyPickupRequest, validateObjectId.
    cbn [str_truthy from_option Datatypes.id]. apply String.eqb_neq in Hid.
    rewrite Hid, Hvalid.
    cbn [negb lowerPriority data_location truthy andb]. rewrite Hu.
    reflexivity.
Qed.

End External.

(** The theorem on an emergency that asks for the priority 'low' and
    for an answer before the time 3600000: at time 7 it is stored as
    urgent; at time 8 [updatePriority] refuses to lower it, and
    [update] and [modifyPickupRequest] lower it. *)
Lemma emergency_priority_lowered_by_update_witness :
  exists created st',
    create (ids := hexIds) 7 request1 emergencyRequest emptyRepo
    = (Ok created, st') /\
    isEmergency created = true /\ priority created = "urgent" /\
    (exists e st2,
       updatePriority (ids := hexIds) 8 request1 "low" "" st'
       = (Throw e, st2) /\
       kind e = ValidationError /\ db st2 = db st') /\
    (exists updated st3,
       update (ids := hexIds) 8 request1 lowerPriority st'
       = (Ok updated, st3) /\
       db st3 !! request1 = Some updated /\
       isEmergency updated = true /\ priority updated = "low" /\
       modifyPickupRequest hex24 (fun _ => Ok tt) 8 request1
         lowerPriority st'
       = (Ok updated, st3)).
Proof.
  destruct (emergency_priority_lowered_by_update hex24 (fun _ => Ok tt))
    as (_ & Hcreate & Hreject & Hlower).
  destruct (create (ids := hexIds) 7 request1 emergencyRequest emptyRepo)
    as [[created | e] st'] eqn:Hc; [ | exfalso; vm_compute in Hc; discriminate].
  destruct (Hcreate _ _ _ _ _ _ Hc) as (Hurgent & Hstored).
  assert (Hem : isEmergency created = true).
  { vm_compute in Hc. injection Hc as <- _. reflexivity. }
  assert (Hcache : cache st' = []).
  { vm_compute in Hc. injection Hc as _ <-. reflexivity. }
  assert (Hlive : isDeleted created = false).
  { vm_compute in Hc. injection Hc as <- _. reflexivity. }
  exists created, st'. split; [reflexivity | ]. split; [exact Hem | ].
  split; [exact (Hurgent Hem) | ]. split.
  - destruct (findById 8 request1 st') as [[request | e] st1] eqn:Hf.
    + eapply Hreject; [exact Hf | | discriminate].
      unfold findById, getCacheValue, findOne_live in Hf.
      rewrite Hcache, Hstored, Hlive in Hf. cbn in Hf.
      injection Hf as <- _. exact Hem.
    + exfalso. unfold findById, getCacheValue, findOne_live in Hf.
      rewrite Hcache, Hstored, Hlive in Hf. cbn in Hf. discriminate.
  - destruct (Hlower 8 request1 st' created Hstored Hlive)
      as (updated & st3 & Hu & Hdb & Hflag & Hlow & Hservice);
      [rewrite Hcache; reflexivity | exact Hem | exact (Hurgent Hem) | ].
    exists updated, st3. repeat split; try assumption.
    apply Hservice; [discriminate | reflexivity].
Defined.

End EmergencyFacts.

(** ** Sequences of transitions, virtuals *)

Module LifecycleFacts.
Import Status Schema Repository StatusPaths Virtuals Repository2 StatusFacts.

Lemma method_ok_edge (cur next : string) :
  isOk (method_validateStatusTransition cur next) = true <-> edge cur next.
Proof.
  rewrite <- table_allows_edge. unfold method_validateStatusTransition.
  destruct (table_allows cur next) as [[|]|]; cbn; intuition congruence.
Qed.

(** X1.  A request goes through at most two transitions that the
    schema method accepts; none of them leads back to 'pending', and two
    of them are pending -> assigned followed by assigned -> collected or
    assigned -> cancelled. *)
Theorem accepted_steps_at_most_two (cur : string) (steps : list string) :
  accepted_steps cur steps = true ->
  (length steps <= 2)%nat /\
  ~ In "pending" steps /\
  (forall a b, steps = [a; b] ->
     cur = "pending" /\ a = "assigned" /\ (b = "collected" \/ b = "cancelled")).
Proof.
  intros H.
  assert (Hshape : steps = [] \/ (exists a, steps = [a] /\ edge cur a) \/
                   (exists a b, steps = [a; b] /\ edge cur a /\ edge a b)).
  { destruct steps as [| a [| b [| c rest]]]; cbn in H.
    - now left.
    - right. left. exists a. rewrite andb_true_r in H.
      apply method_ok_edge in H. now split.
    - right. right. exists a, b. rewrite andb_true_r in H.
      apply andb_true_iff in H as [Ha Hb].
      apply method_ok_edge in Ha. apply method_ok_edge in Hb. now repeat split.
    - exfalso. apply andb_true_iff in H as [Ha H].
      apply andb_true_iff in H as [Hb H]. apply andb_true_iff in H as [Hc _].
      apply method_ok_edge in Ha. apply method_ok_edge in Hb.
      apply method_ok_edge in Hc. unfold edge in *. intuition congruence. }
  destruct Hshape as [-> | [(a & -> & Ha) | (a & b & -> & Ha & Hb)]].
  - cbn. split; [lia | split; [tauto | discriminate]].
  - cbn. split; [lia | ]. split; [ | discriminate].
    unfold edge in Ha. intuition congruence.
  - cbn. split; [lia | ]. split.
    + unfold edge in *. intuition congruence.
    + intros a' b' [= <- <-]. unfold edge in *. intuition congruence.
Qed.

Lemma accepted_steps_at_most_two_witness :
  "pending" = "pending" /\ "assigned" = "assigned" /\
  ("collected" = "collected" \/ "collected" = "cancelled").
Proof.
  apply (accepted_steps_at_most_two "pending" ["assigned"; "collected"]);
    reflexivity.
Defined.

(** X2.  [isEditable] is true exactly for the requests that are not
    soft-deleted and whose status has a transition left in the table;
    a deletable request is editable. *)
Theorem isEditable_iff_transition_left (this : Doc) :
  (isEditable this = true <->
   isDeleted this = false /\ exists next, edge (status this) next) /\
  (isDeletable this = true -> isEditable this = true).
Proof.
  unfold isEditable, isDeletable. split; [split | ].
  - intros H. apply andb_true_iff in H as [Hs Hd].
    apply negb_true_iff in Hd. split; [exact Hd | ].
    apply includes_In in Hs. cbn in Hs.
    destruct Hs as [<- | [<- | []]].
    + exists "assigned". unfold edge. tauto.
    + exists "collected". unfold edge. tauto.
  - intros [Hd (next & He)]. rewrite Hd. cbn [negb]. rewrite andb_true_r.
    apply includes_In. unfold edge in He. cbn. intuition.
  - intros H. apply andb_true_iff in H as [Hs Hd].
    apply String.eqb_eq in Hs. rewrite Hs, Hd. reflexivity.
Qed.

Lemma isEditable_iff_transition_left_witness :
  isEditable (stored request1) = true.
Proof.
  apply (isEditable_iff_transition_left (stored request1)). reflexivity.
Defined.

(** Hours against a limit, as a comparison of milliseconds. *)
Lemma hours_le (ms limit : Z) :
  Qle_bool (inject_Z ms / inject_Z HOUR_MS) (inject_Z limit) = true
  <-> ms <= limit * HOUR_MS.
Proof.
  rewrite Qle_bool_iff. unfold HOUR_MS.
  change (1000 * 60 * 60) with 3600000.
  unfold Qle, Qdiv, Qmult, Qinv, inject_Z. cbn. lia.
Qed.

Lemma overdue_limit (p : string) :
  own_prop overdueLimits p
  = if String.eqb p "urgent" then Some 2
    else if String.eqb p "high" then Some 6
    else if String.eqb p "medium" then Some 24
    else if String.eqb p "low" then Some 48 else None.
Proof. reflexivity. Qed.

(** X3.  [isOverdue] holds exactly for the pending requests whose
    priority has a limit and that were requested more than that many
    hours before; so it is false for the other statuses, and once true
    it stays true as time passes while the request is pending. *)
Theorem isOverdue_threshold (now : Z) (this : Doc) :
  (isOverdue now this = true <->
   status this = "pending" /\
   exists limit, own_prop overdueLimits (priority this) = Some limit /\
                 limit * HOUR_MS < now - requestedAt this) /\
  (forall later, now <= later -> isOverdue now this = true ->
                 isOverdue later this = true).
Proof.
  assert (Hiff : forall t,
            isOverdue t this = true <->
            status this = "pending" /\
            exists limit, own_prop overdueLimits (priority this) = Some limit /\
                          limit * HOUR_MS < t - requestedAt this).
  { intros t. unfold isOverdue.
    destruct (String.eqb_spec (status this) "pending") as [Hs | Hs].
    - destruct (own_prop overdueLimits (priority this)) as [limit |].
      + rewrite negb_true_iff, <- not_true_iff_false, hours_le. split.
        * intros H. split; [exact Hs | ]. exists limit. split; [reflexivity | lia].
        * intros [_ (l & [= <-] & Hl)]. lia.
      + split; [discriminate | ]. intros [_ (l & [=] & _)].
    - split; [discriminate | ]. intros [H _]. contradiction. }
  split; [apply Hiff | ].
  intros later Hle H. apply Hiff in H as [Hs (limit & Hl & Hlt)].
  apply Hiff. split; [exact Hs | ]. exists limit. split; [exact Hl | lia].
Qed.

Lemma isOverdue_threshold_witness :
  isOverdue (3 * HOUR_MS) (with_priority "urgent" (stored request1)) = true.
Proof.
  destruct (isOverdue_threshold (2 * HOUR_MS + 1)
              (with_priority "urgent" (stored request1))) as [_ Hmono].
  apply Hmono; [vm_compute; discriminate | vm_compute; reflexivity].
Defined.

(** X4.  The overdue clauses of [findWithFilters] and the virtual
    [isOverdue] disagree only at the limit itself: every request the
    virtual calls overdue satisfies a clause, and a request that
    satisfies a clause is pending, has a limit, and was requested at
    least that many hours before, the exact limit included. *)
Theorem overdue_filter_and_virtual (now : Z) (this : Doc) :
  (isOverdue now this = true -> matches_overdue now this = true) /\
  (matches_overdue now this = true <->
   status this = "pending" /\
   exists limit, own_prop overdueLimits (priority this) = Some limit /\
                 limit * HOUR_MS <= now - requestedAt this).
Proof.
  assert (Hm : matches_overdue now this = true <->
               status this = "pending" /\
               exists limit, own_prop overdueLimits (priority this) = Some limit /\
                             limit * HOUR_MS <= now - requestedAt this).
  { unfold matches_overdue, overdue_clauses. rewrite overdue_limit.
    cbn [List.map overdueLimits existsb fst snd]. unfold clause_matches.
    cbn [fst snd]. unfold HOUR_MS.
    destruct (String.eqb_spec (status this) "pending") as [Hs | Hs].
    2:{ rewrite !andb_false_r. cbn. split; [discriminate | tauto]. }
    rewrite !andb_true_r. generalize (priority this). intros p.
    destruct (String.eqb_spec p "urgent") as [-> | Hp1];
      [ | destruct (String.eqb_spec p "high") as [-> | Hp2];
          [ | destruct (String.eqb_spec p "medium") as [-> | Hp3];
              [ | destruct (String.eqb_spec p "low") as [-> | Hp4]]]];
      cbn [String.eqb Ascii.eqb Bool.eqb andb orb];
      rewrite ?orb_false_r, ?Z.leb_le;
      try (split; [intros H; split; [exact Hs | ]; eexists;
                     (split; [reflexivity | lia])
                  | intros [_ (l & [= <-] & H)]; lia]).
    split; [discriminate | ]. intros [_ (l & [=] & _)]. }
  split; [ | exact Hm].
  intros H. apply isOverdue_threshold in H as [Hs (limit & Hl & Hlt)].
  apply Hm. split; [exact Hs | ]. exists limit. split; [exact Hl | lia].
Qed.

(** At exactly two hours an urgent request matches the filter and is
    not yet overdue for the virtual. *)
Lemma overdue_filter_and_virtual_witness :
  matches_overdue (2 * HOUR_MS) (with_priority "urgent" (stored request1)) = true /\
  isOverdue (2 * HOUR_MS) (with_priority "urgent" (stored request1)) = false.
Proof.
  split; [ | vm_compute; reflexivity].
  apply (overdue_filter_and_virtual (2 * HOUR_MS)
           (with_priority "urgent" (stored request1))).
  split; [reflexivity | ]. exists 2. split; [reflexivity | vm_compute; discriminate].
Defined.

End LifecycleFacts.

(** ** More on the cache *)

Module CacheFacts2.
Import Cache CacheFacts.

Section WithValue.
Context {V : Type}.
Implicit Types (c : list (string * Entry V)) (key : string) (e : Entry V).

Lemma map_set_keys_present c key e e0 :
  map_get c key = Some e0 ->
  List.map fst (map_set c key e) = List.map fst c.
Proof.
  unfold map_get, map_set. induction c as [| [k' v'] rest IH];
    cbn [own_prop obj_set]; [discriminate | ].
  destruct (String.eqb key k') eqn:E; [reflexivity | ].
  intros H. cbn [List.map fst]. now rewrite IH.
Qed.

Lemma map_set_keys_absent c key e :
  map_get c key = None ->
  List.map fst (map_set c key e) = List.map fst c ++ [key].
Proof.
  unfold map_get, map_set. induction c as [| [k' v'] rest IH];
    cbn [own_prop obj_set]; [reflexivity | ].
  destruct (String.eqb key k') eqn:E; [discriminate | ].
  intros H. cbn [List.map fst app]. now rewrite IH.
Qed.

Lemma map_get_None_keys c key :
  map_get c key = None -> ~ In key (List.map fst c).
Proof.
  unfold map_get. induction c as [| [k' v'] rest IH]; cbn [own_prop List.map fst].
  - intros _ [].
  - destruct (String.eqb_spec key k') as [-> | Hne]; [discriminate | ].
    intros H [Heq | Hin]; [congruence | now apply IH].
Qed.

Lemma map_delete_keys key c :
  List.map fst (map_delete key c)
  = List.filter (fun k => negb (String.eqb key k)) (List.map fst c).
Proof.
  unfold map_delete. induction c as [| [k' v'] rest IH]; [reflexivity | ].
  cbn [List.filter List.map fst]. destruct (negb (String.eqb key k'));
    cbn [List.map fst]; now rewrite IH.
Qed.

Lemma map_set_NoDup c key e :
  NoDup (List.map fst c) -> NoDup (List.map fst (map_set c key e)).
Proof.
  intros Hnd. destruct (map_get c key) as [e0 |] eqn:Hget.
  - now rewrite (map_set_keys_present _ _ _ _ Hget).
  - rewrite (map_set_keys_absent _ _ _ Hget).
    apply NoDup_app. split; [exact Hnd | ]. split.
    + intros k Hin [-> | []]%list_elem_of_In.
      apply list_elem_of_In in Hin. now apply map_get_None_keys in Hget.
    + apply NoDup_singleton.
Qed.

Lemma map_delete_NoDup key c :
  NoDup (List.map fst c) -> NoDup (List.map fst (map_delete key c)).
Proof.
  intros Hnd. rewrite map_delete_keys.
  apply NoDup_ListNoDup. apply List.NoDup_filter. now apply NoDup_ListNoDup.
Qed.

Lemma setCacheValue_eq now key (v : V) c :
  setCacheValue now key v c
  = map_set (if (MAX_CACHE_SIZE <=? length c)%nat
             then match oldest_key c with
                  | Some k => map_delete k c
                  | None => c
                  end
             else c) key (mkEntry v now).
Proof. reflexivity. Qed.

Lemma call_NoDup c (op : Call V) :
  NoDup (List.map fst c) -> NoDup (List.map fst (call c op)).
Proof.
  intros Hnd. destruct op as [now key v | now key]; cbn [call].
  - rewrite setCacheValue_eq. apply map_set_NoDup.
    destruct (MAX_CACHE_SIZE <=? length c)%nat; [ | exact Hnd].
    destruct (oldest_key c); [now apply map_delete_NoDup | exact Hnd].
  - unfold getCacheValue. destruct (map_get c key) as [cached |]; [ | exact Hnd].
    destruct (CACHE_TTL <? now - timestamp cached); cbn [snd];
      [now apply map_delete_NoDup | exact Hnd].
Qed.

End WithValue.

(** X5.  A value that was set is returned by a look-up at any time
    up to [CACHE_TTL] after the call, and the look-up leaves the cache as
    it is; setting a key loses no other key but, on a full cache, the
    oldest one. *)
Theorem cache_set_then_get (V : Type) (now later : Z) (key : string) (v : V)
  (c : list (string * Entry V)) :
  (later - now <= CACHE_TTL ->
   getCacheValue later key (setCacheValue now key v c)
   = (Some v, setCacheValue now key v c)) /\
  (forall key',
     key' <> key -> oldest_key c <> Some key' ->
     map_get (setCacheValue now key v c) key' = map_get c key') /\
  (forall key',
     key' <> key -> (length c < MAX_CACHE_SIZE)%nat ->
     map_get (setCacheValue now key v c) key' = map_get c key').
Proof.
  split; [ | split].
  - intros Hfresh. unfold getCacheValue.
    rewrite setCacheValue_eq at 1. rewrite map_get_set. cbn [timestamp value].
    apply Z.ltb_ge in Hfresh. now rewrite Hfresh.
  - intros key' Hne Hold. rewrite setCacheValue_eq.
    rewrite map_get_set_ne by congruence.
    destruct (MAX_CACHE_SIZE <=? length c)%nat; [ | reflexivity].
    destruct (oldest_key c) as [k |]; [ | reflexivity].
    apply map_get_delete_ne. congruence.
  - intros key' Hne Hroom. rewrite setCacheValue_eq.
    rewrite map_get_set_ne by congruence.
    apply Nat.leb_gt in Hroom. now rewrite Hroom.
Qed.

Lemma cache_set_then_get_witness :
  getCacheValue 300000 "a" (setCacheValue 0 "a" 1%nat (run (fill 3)))
  = (Some 1%nat, setCacheValue 0 "a" 1%nat (run (fill 3))) /\
  map_get (setCacheValue 0 "a" 1%nat (run (fill 3))) "2"
  = map_get (run (fill 3)) "2".
Proof.
  destruct (cache_set_then_get nat 0 300000 "a" 1%nat (run (fill 3)))
    as (Hget & _ & Hroom).
  split; [apply Hget; vm_compute; discriminate | ].
  apply Hroom; [discriminate | vm_compute; lia].
Defined.

(** X6.  The cache is first-in first-out, not least-recently-used:
    its keys stay distinct after every sequence of calls, a look-up that
    hits changes nothing, and setting a key that is present (in a cache
    that is not full) replaces the value without moving the key, so that
    the order of eviction is the order of first insertion. *)
Theorem cache_is_fifo (V : Type) :
  (forall ops : list (Call V), NoDup (List.map fst (run ops))) /\
  (forall now key (c c' : list (string * Entry V)) v,
     getCacheValue now key c = (Some v, c') -> c' = c) /\
  (forall now key (v : V) (c : list (string * Entry V)) e,
     map_get c key = Some e -> (length c < MAX_CACHE_SIZE)%nat ->
     List.map fst (setCacheValue now key v c) = List.map fst c /\
     oldest_key (setCacheValue now key v c) = oldest_key c).
Proof.
  split; [ | split].
  - intros ops. unfold run.
    assert (H : forall c : list (string * Entry V),
               NoDup (List.map fst c) ->
               NoDup (List.map fst (fold_left call ops c))).
    { induction ops as [| op ops IH]; intros c Hc; cbn [fold_left];
        [exact Hc | ]. apply IH. now apply call_NoDup. }
    apply H. constructor.
  - intros now key c c' v. unfold getCacheValue.
    destruct (map_get c key) as [cached |]; [ | discriminate].
    destruct (CACHE_TTL <? now - timestamp cached); [discriminate | ].
    now intros [= _ <-].
  - intros now key v c e Hget Hroom.
    assert (Hkeys : List.map fst (setCacheValue now key v c) = List.map fst c).
    { rewrite setCacheValue_eq. apply Nat.leb_gt in Hroom. rewrite Hroom.
      now apply (map_set_keys_present _ _ _ e). }
    split; [exact Hkeys | ].
    destruct (setCacheValue now key v c) as [| [k1 e1] r1];
      destruct c as [| [k2 e2] r2]; cbn in Hkeys |- *; congruence.
Qed.

Lemma cache_is_fifo_witness :
  List.map fst (setCacheValue 9 "0" 5%nat (run (fill 3))) = ["0"; "1"; "2"].
Proof.
  destruct (cache_is_fifo nat) as (_ & _ & Hset).
  destruct (Hset 9 "0" 5%nat (run (fill 3)) (mkEntry 0%nat 0)) as [-> _];
    [vm_compute; reflexivity | vm_compute; lia | vm_compute; reflexivity].
Defined.

End CacheFacts2.

(** ** More on the repository *)

Module RepositoryFacts2.
Import Status Schema Cache Repository Virtuals Repository2.
Import StatusFacts CacheFacts SchemaFacts RepositoryFacts.

Lemma repo_eta (st : Repo) : mkRepo (db st) (cache st) = st.
Proof. now destruct st. Qed.

(** A look-up that finds nothing cached reads the collection. *)
Lemma findById_uncached (now : Z) (id : string) (st : Repo) :
  map_get (cache st) (cacheKey id) = None ->
  findById now id st
  = match findOne_live id (db st) with
    | Some request =>
        (Ok request,
         mkRepo (db st) (setCacheValue now (cacheKey id) request (cache st)))
    | None => (Throw (mkError NotFoundError "Pickup request not found"), st)
    end.
Proof.
  intros Hnone. unfold findById, getCacheValue. rewrite Hnone.
  destruct (findOne_live id (db st)); [reflexivity | now rewrite repo_eta].
Qed.

(** A change of status that the checks of [update], the cast and the
    validators of the update let through. *)
Lemma update_status_ok {ids : ObjectIds} (now : Z) (id s : string)
  (collector note : option string) (cancelled : option Z) (st : Repo) (d : Doc) :
  db st !! id = Some d -> isDeleted d = false ->
  map_get (cache st) (cacheKey id) = None ->
  In s PICKUP_STATUSES ->
  (terminal (status d) -> s = status d) ->
  (s = "assigned" -> str_truthy collector = true) ->
  objectId_ok collector = true ->
  note_fits note = true ->
  history_valid (statusHistory d) = true ->
  exists st',
    update now id (status_change_at s collector note cancelled) st
    = (Ok (changed now d (status_change_at s collector note cancelled)), st') /\
    db st'
    = <[id := changed now d (status_change_at s collector note cancelled)]> (db st) /\
    map_get (cache st') (cacheKey id) = None.
Proof.
  intros Hd Hlive Hnone Hin Hterm Hcoll Hcast Hnote Hhist.
  assert (Htruthy : str_truthy (Some s) = true).
  { cbn in Hin. destruct Hin as [<- | [<- | [<- | [<- | []]]]]; reflexivity. }
  assert (Hvalid : includes PICKUP_STATUSES s = true) by now apply includes_In.
  unfold changed, update, status_change_at.
  cbn [data_status data_wasteType data_volumeKg str_truthy num_truthy default
       from_option validateStatus andb negb].
  change (str_truthy (Some s)) with (negb (String.eqb s "")) in Htruthy.
  rewrite Htruthy. unfold Datatypes.id. rewrite Hvalid. cbn [negb andb].
  rewrite (findById_uncached _ _ _ Hnone). unfold findOne_live.
  rewrite Hd, Hlive.
  assert (Hcheck : check_transition d
                     (mkData None collector None None JUndefined None None
                        (Some s) None note None None cancelled None None None)
                   = Ok tt).
  { unfold check_transition. cbn [data_status data_collectorId str_truthy str_is].
    rewrite Htruthy.
    destruct (String.eqb_spec (status d) "collected") as [Hc | Hc].
    { assert (Hs : s = "collected") by (rewrite (Hterm (or_introl Hc)); exact Hc).
      rewrite Hs. cbn. rewrite Hc. reflexivity. }
    destruct (String.eqb_spec (status d) "cancelled") as [Hx | Hx].
    { assert (Hs : s = "cancelled") by (rewrite (Hterm (or_intror Hx)); exact Hx).
      rewrite Hs. reflexivity. }
    cbn [andb]. destruct (String.eqb_spec s "assigned") as [Ha | Ha];
      [rewrite (Hcoll Ha) | ]; reflexivity. }
  rewrite Hcheck.
  destruct (history_valid_cast_snoc (statusHistory d) s now note Hhist)
    as [_ Hsnoc].
  unfold base_update, update_casts, update_valid, update_object.
  cbn [data_status data_wasteType data_volumeKg data_priority data_clinicId
       data_collectorId data_statusHistory data_statusNote
       data_emergencyReason data_responseDeadline data_location
       str_truthy in_enum volume_in_range objectId_ok is_some
       location_update_valid default from_option db].
  rewrite Htruthy. unfold Datatypes.id.
  cbn [in_enum from_option andb negb]. rewrite Hcast, Hvalid, Hsnoc, Hvalid, Hnote.
  cbn [andb negb]. rewrite Hd.
  eexists. split; [reflexivity | ]. cbn [db cache].
  split; [reflexivity | apply map_get_delete].
Qed.

(** The paths of the document after a change of status. *)
Lemma changed_fields (now : Z) (d : Doc) (s : string)
  (collector note : option string) (cancelled : option Z) :
  In s PICKUP_STATUSES ->
  history_valid (statusHistory d) = true ->
  let updated := changed now d (status_change_at s collector note cancelled) in
  status updated = s /\
  statusHistory updated
  = statusHistory d ++ [mkHistory s now (option_map js_trim note)] /\
  collectedAt updated
  = (if String.eqb s "collected" then Some now else collectedAt d) /\
  collectorId updated = or_old collector (collectorId d) /\
  cancelledAt updated = or_old cancelled (cancelledAt d) /\
  requestedAt updated = requestedAt d /\
  priority updated = priority d /\
  isDeleted updated = isDeleted d.
Proof.
  intros Hin Hhist.
  assert (Htruthy : negb (String.eqb s "") = true).
  { cbn in Hin. destruct Hin as [<- | [<- | [<- | [<- | []]]]]; reflexivity. }
  destruct (history_valid_cast_snoc (statusHistory d) s now note Hhist)
    as [Hsnoc _].
  unfold changed, update_object, status_change_at.
  cbn [data_status data_statusHistory data_statusNote data_collectedAt
       data_collectorId data_cancelledAt data_requestedAt data_priority
       data_isDeleted str_truthy str_is default from_option].
  rewrite Htruthy. unfold Datatypes.id.
  cbn [apply_update status statusHistory collectedAt collectorId cancelledAt
       requestedAt priority isDeleted data_status data_statusHistory
       data_collectedAt data_collectorId data_cancelledAt data_requestedAt
       data_priority data_isDeleted default from_option or_old option_map].
  unfold Datatypes.id. rewrite Hsnoc. repeat split.
  destruct (String.eqb s "collected"); reflexivity.
Qed.

(** A status change whose collector cannot be cast to an [ObjectId],
    or whose note has more than 200 characters once it is trimmed, is
    refused by [findByIdAndUpdate], and nothing is written. *)
Lemma update_status_refused {ids : ObjectIds} (now : Z) (id s : string)
  (collector note : option string) (cancelled : option Z) (st : Repo) :
  str_truthy (Some s) = true ->
  objectId_ok collector = false \/ note_fits note = false ->
  exists e st',
    update now id (status_change_at s collector note cancelled) st
    = (Throw e, st') /\
    db st' = db st.
Proof.
  intros Htruthy Hbad.
  destruct (update now id (status_change_at s collector note cancelled) st)
    as [[updated | e] st'] eqn:Hu.
  2:{ exists e, st'. split; [reflexivity | ].
      now apply update_spec in Hu as (_ & Hdb). }
  exfalso. revert Hu. unfold update.
  repeat match goal with
         | |- context [if ?b then (Throw _, _) else _] =>
             destruct b; [discriminate | ]
         end.
  destruct (findById now id st) as [[request | e] st1]; [ | discriminate].
  destruct (check_transition request _); [ | discriminate].
  unfold base_update, update_casts, update_valid, update_object, status_change_at.
  cbn [data_status data_wasteType data_volumeKg data_priority data_clinicId
       data_collectorId data_statusHistory data_statusNote
       data_emergencyReason data_responseDeadline data_location
       in_enum volume_in_range objectId_ok is_some
       location_update_valid default from_option].
  rewrite Htruthy. unfold Datatypes.id. cbn [andb from_option].
  destruct Hbad as [Hcast | Hnote].
  - rewrite Hcast. cbn [negb]. discriminate.
  - destruct (objectId_ok collector); cbn [negb]; [ | discriminate].
    rewrite cast_history_app, history_valid_app, history_valid_cast_entry,
      Hnote.
    rewrite !andb_false_r. cbn [andb negb]. discriminate.
Qed.

(** X7.  [update] does not consult the transition table: on a stored
    request that is not soft-deleted and not cached, and whose history
    has gone through the schema, it accepts every change to one of the
    four statuses unless the request is collected or cancelled and the
    status differs (a collector being required for 'assigned'), provided
    [findByIdAndUpdate] can cast the collector, if one is given, to an
    [ObjectId] and the note, if one is given, has no more than 200
    characters once it is trimmed; pending -> collected and assigned ->
    pending are accepted.  The updated request has the new status, one
    more history entry with the trimmed note, [collectedAt] set to the
    time of the call when the status is 'collected', and is written to
    the collection; the cache entry of the request is gone.  A change
    whose collector cannot be cast or whose trimmed note is longer than
    200 characters throws, and writes nothing. *)
Theorem update_accepts_status_change {ids : ObjectIds} (now : Z)
  (id s : string) (collector note : option string) (st : Repo) (d : Doc) :
  db st !! id = Some d -> isDeleted d = false ->
  map_get (cache st) (cacheKey id) = None ->
  In s PICKUP_STATUSES ->
  (terminal (status d) -> s = status d) ->
  (s = "assigned" -> str_truthy collector = true) ->
  history_valid (statusHistory d) = true ->
  (objectId_ok collector = true -> note_fits note = true ->
   exists updated st',
     update now id (status_change s collector note) st = (Ok updated, st') /\
     status updated = s /\
     statusHistory updated
     = statusHistory d ++ [mkHistory s now (option_map js_trim note)] /\
     collectedAt updated
     = (if String.eqb s "collected" then Some now else collectedAt d) /\
     collectorId updated = or_old collector (collectorId d) /\
     db st' = <[id := updated]> (db st) /\
     map_get (cache st') (cacheKey id) = None) /\
  (objectId_ok collector = false \/ note_fits note = false ->
   exists e st',
     update now id (status_change s collector note) st = (Throw e, st') /\
     db st' = db st).
Proof.
  intros Hd Hlive Hnone Hin Hterm Hcoll Hhist. split.
  - intros Hcast Hnote.
    destruct (update_status_ok now id s collector note None st d)
      as (st' & Hu & Hdb & Hcache); try assumption.
    destruct (changed_fields now d s collector note None Hin Hhist)
      as (Hs & Hh & Hc & Hcol & _).
    eexists _, st'. split; [exact Hu | ]. repeat split; assumption.
  - apply update_status_refused.
    cbn in Hin. destruct Hin as [<- | [<- | [<- | [<- | []]]]]; reflexivity.
Qed.

(** The theorem on the pending request [request1], set to 'collected'
    although the table has no such transition: with a note between
    spaces, which is stored trimmed, and with a note of 201 characters,
    which is refused. *)
Lemma update_accepts_status_change_witness :
  isOk (method_validateStatusTransition "pending" "collected") = false /\
  (exists updated st',
     update (ids := hexIds) 20 request1
       (status_change "collected" None (Some "  at the door ")) sampleRepo
     = (Ok updated, st') /\
     status updated = "collected" /\ collectedAt updated = Some 20 /\
     statusHistory updated
     = [mkHistory "pending" 0 None;
        mkHistory "collected" 20 (Some "at the door")]) /\
  (exists e st',
     update (ids := hexIds) 20 request1
       (status_change "collected" None (Some longNote)) sampleRepo
     = (Throw e, st') /\
     db st' = db sampleRepo).
Proof.
  split; [reflexivity | ].
  assert (Hterm : terminal (status (stored request1)) ->
                  "collected" = status (stored request1))
    by (intros [H | H]; discriminate).
  assert (Hcoll : "collected" = "assigned" -> str_truthy None = true)
    by discriminate.
  assert (Hin : In "collected" PICKUP_STATUSES) by (cbn; tauto).
  split.
  - destruct (update_accepts_status_change (ids := hexIds) 20 request1
                "collected" None (Some "  at the door ") sampleRepo
                (stored request1) eq_refl eq_refl eq_refl Hin Hterm Hcoll
                eq_refl) as [Hok _].
    destruct (Hok eq_refl eq_refl) as (updated & st' & Hu & Hs & Hh & Hc & _).
    exists updated, st'. repeat split; assumption.
  - destruct (update_accepts_status_change (ids := hexIds) 20 request1
                "collected" None (Some longNote) sampleRepo
                (stored request1) eq_refl eq_refl eq_refl Hin Hterm Hcoll
                eq_refl) as [_ Hrefused].
    apply Hrefused. right. reflexivity.
Defined.

(** X8.  Read your writes: after an [update] that returned, a look-up
    of the request at any later time returns the updated document (if it
    is not soft-deleted), since [update] deletes the cache entry. *)
Theorem update_then_findById {ids : ObjectIds}
  (now later : Z) (id : string) (data : PickupData)
  (st st' : Repo) (updated : Doc) :
  update now id data st = (Ok updated, st') ->
  isDeleted updated = false ->
  exists st'', findById later id st' = (Ok updated, st'') /\ db st'' = db st'.
Proof.
  intros Hu Hlive.
  apply update_spec in Hu
    as (_ & request & st1 & d & _ & _ & _ & _ & Hdb & _ & Hnone).
  rewrite (findById_uncached _ _ _ Hnone). unfold findOne_live.
  rewrite Hdb, lookup_insert_eq, Hlive. eexists. split; reflexivity.
Qed.

Lemma update_then_findById_witness :
  exists updated st' st'',
    update (ids := hexIds) 20 request1 assignData sampleRepo
    = (Ok updated, st') /\
    findById 21 request1 st' = (Ok updated, st'').
Proof.
  destruct (update 20 request1 assignData sampleRepo) as [[updated | e] st'] eqn:Hu;
    [ | exfalso; vm_compute in Hu; discriminate].
  destruct (update_then_findById 20 21 _ _ _ _ _ Hu) as (st'' & Hf & _).
  - vm_compute in Hu. injection Hu as <- _. reflexivity.
  - exists updated, st', st''. now split.
Defined.

(** What [create] has checked and stored. *)
Lemma create_fields {ids : ObjectIds}
  (now : Z) (oid : string) (data : PickupData)
  (st st' : Repo) (created : Doc) :
  create now oid data st = (Ok created, st') ->
  clinicId created = data_clinicId data /\
  str_truthy (data_clinicId data) = true /\
  wasteType created = data_wasteType data /\
  (exists w, data_wasteType data = Some w /\ In w WASTE_TYPES) /\
  volumeKg created = data_volumeKg data /\
  (exists q, data_volumeKg data = Some q /\ (0 < q)%Q /\ (q <= 1000)%Q) /\
  isDeleted created = default false (data_isDeleted data) /\
  requestedAt created = now.
Proof.
  unfold create.
  destruct (str_truthy (data_clinicId data)) eqn:Hclinic; cbn [negb];
    [ | discriminate].
  destruct (negb (str_truthy (data_wasteType data))
            || negb (validateWasteType (default "" (data_wasteType data))))
    eqn:Hwaste; [discriminate | ].
  destruct (negb (num_truthy (data_volumeKg data))
            || Qle_bool (default 0%Q (data_volumeKg data)) 0
            || negb (Qle_bool (default 0%Q (data_volumeKg data)) 1000))
    eqn:Hvol; [discriminate | ].
  match goal with
  | |- context [if ?b then (Throw _, _) else _] => destruct b; [discriminate | ]
  end.
  match goal with |- base_create _ _ ?d _ = _ -> _ => set (data' := d) end.
  unfold base_create, save.
  destruct (schema_valid now (new_model now oid data')); cbn [negb];
    [ | cbn; discriminate].
  set (i := new_model now oid data').
  assert (Hkeep : clinicId (pre_save now i) = data_clinicId data /\
                  wasteType (pre_save now i) = data_wasteType data /\
                  volumeKg (pre_save now i) = data_volumeKg data /\
                  isDeleted (pre_save now i) = default false (data_isDeleted data) /\
                  requestedAt (pre_save now i) = now).
  { unfold pre_save. destruct (isModified i "status");
      match goal with |- context [if ?b then _ else _] => destruct b end;
      cbn; repeat split. }
  destruct Hkeep as (Hk1 & Hk2 & Hk3 & Hk4 & Hk5).
  destruct (db st !! _id (pre_save now i)); [cbn; discriminate | ].
  intros [= <- _].
  apply orb_false_iff in Hwaste as [Hw1 Hw2].
  apply negb_false_iff in Hw1, Hw2.
  apply orb_false_iff in Hvol as [Hv Hv3]. apply orb_false_iff in Hv as [Hv1 Hv2].
  apply negb_false_iff in Hv1, Hv3.
  repeat split; try assumption.
  - destruct (data_wasteType data) as [w |]; [ | discriminate].
    exists w. split; [reflexivity | ]. now apply includes_In.
  - destruct (data_volumeKg data) as [q |]; [ | discriminate].
    exists q. cbn [default from_option] in Hv2, Hv3. unfold Datatypes.id in Hv2, Hv3.
    split; [reflexivity | ]. split.
    + apply Qnot_le_lt. intros Hle. apply Qle_bool_iff in Hle. congruence.
    + now apply Qle_bool_iff.
Qed.

(** X9.  A request that [create] returns carries the clinic, a waste
    type of the schema and a volume in (0, 1000] as they were given, and
    is requested at the time of the call; [create] changes no other
    stored request, and a look-up of the new id returns the created
    document, unless the caller asked for it to be born soft-deleted. *)
Theorem create_then_findById {ids : ObjectIds}
  (now later : Z) (oid : string) (data : PickupData)
  (st st' : Repo) (created : Doc) :
  create now oid data st = (Ok created, st') ->
  (str_truthy (clinicId created) = true /\
   (exists w, wasteType created = Some w /\ In w WASTE_TYPES) /\
   (exists q, volumeKg created = Some q /\ (0 < q)%Q /\ (q <= 1000)%Q) /\
   requestedAt created = now) /\
  (forall id, id <> oid -> db st' !! id = db st !! id) /\
  (map_get (cache st) (cacheKey oid) = None ->
   data_isDeleted data <> Some true ->
   exists st'', findById later oid st' = (Ok created, st'')).
Proof.
  intros Hc. pose proof (create_fields _ _ _ _ _ _ Hc)
    as (Hk1 & Hclinic & Hk2 & Hw & Hk3 & Hq & Hdel & Hreq).
  apply create_ok in Hc as (_ & _ & _ & _ & _ & ->).
  split; [ | split].
  - rewrite Hk1, Hk2, Hk3. now repeat split.
  - intros id Hne. cbn [db]. now apply lookup_insert_ne.
  - intros Hnone Hnot.
    assert (Hlive : isDeleted created = false).
    { rewrite Hdel. destruct (data_isDeleted data) as [[|] |];
        [congruence | reflexivity | reflexivity]. }
    rewrite findById_uncached by exact Hnone. unfold findOne_live.
    cbn [db]. rewrite lookup_insert_eq, Hlive. eauto.
Qed.

Lemma create_then_findById_witness :
  exists created st' st'',
    create (ids := hexIds) 7 request3 sampleRequest sampleRepo
    = (Ok created, st') /\
    findById 8 request3 st' = (Ok created, st'') /\
    db st' !! request1 = db sampleRepo !! request1.
Proof.
  destruct (create 7 request3 sampleRequest sampleRepo) as [[created | e] st'] eqn:Hc;
    [ | exfalso; vm_compute in Hc; discriminate].
  destruct (create_then_findById 7 8 _ _ _ _ _ Hc) as (_ & Hother & Hfind).
  destruct Hfind as (st'' & Hf); [reflexivity | discriminate | ].
  exists created, st', st''. repeat split; [exact Hf | ].
  apply Hother. discriminate.
Defined.



(** X11.  [BaseRepository.delete] removes the stored request and
    leaves the cache alone: a request that was cached is still returned
    by [findById] until its entry is older than [CACHE_TTL], and only a
    request that was not cached is gone at once. *)
Theorem delete_leaves_cache (now : Z) (id : string) (st st' : Repo) (d : Doc) :
  base_delete id st = (Ok d, st') ->
  db st' !! id = None /\
  (forall e, map_get (cache st) (cacheKey id) = Some e ->
             now - timestamp e <= CACHE_TTL ->
             findById now id st' = (Ok (value e), st')) /\
  (map_get (cache st) (cacheKey id) = None ->
   findById now id st'
   = (Throw (mkError NotFoundError "Pickup request not found"), st')).
Proof.
  unfold base_delete. destruct (db st !! id) as [d0 |] eqn:Hd; [ | discriminate].
  intros [= <- <-]. cbn [db cache]. split; [apply lookup_delete_eq | ]. split.
  - intros e Hget Hfresh. unfold findById, getCacheValue. cbn [cache db].
    rewrite Hget. apply Z.ltb_ge in Hfresh. now rewrite Hfresh.
  - intros Hnone. rewrite findById_uncached by exact Hnone.
    unfold findOne_live. cbn [db]. now rewrite lookup_delete_eq.
Qed.

Lemma delete_leaves_cache_witness :
  exists looked cached st',
    findById 1 request1 sampleRepo = (Ok cached, looked) /\
    base_delete request1 looked = (Ok cached, st') /\
    db st' !! request1 = None /\
    findById 2 request1 st' = (Ok cached, st').
Proof.
  destruct (findById 1 request1 sampleRepo) as [[cached | e] looked] eqn:Hf;
    [ | exfalso; vm_compute in Hf; discriminate].
  destruct (base_delete request1 looked) as [[d | e] st'] eqn:Hdel.
  2:{ exfalso. vm_compute in Hf. injection Hf as _ <-. vm_compute in Hdel.
      discriminate. }
  destruct (delete_leaves_cache 2 _ _ _ _ Hdel) as (Hgone & Hstale & _).
  assert (Hd : d = cached).
  { vm_compute in Hf. injection Hf as <- <-. vm_compute in Hdel.
    now injection Hdel as <- _. }
  subst d. exists looked, cached, st'. repeat split; try assumption.
  apply (Hstale (mkEntry cached 1)).
  - vm_compute in Hf. injection Hf as <- <-. reflexivity.
  - vm_compute. discriminate.
Defined.

End RepositoryFacts2.

(** ** More on the bulk operations *)

Module BulkFacts.
Import Status Schema Cache Repository Repository2 Conditions.
Import StatusFacts CacheFacts CacheFacts2 RepositoryFacts RepositoryFacts2.
Import LifecycleFacts.

Lemma bulkWrite_fold (ops : list UpdateOne) (ordered : bool)
  (m : gmap string Doc) :
  bulkWrite (mkBulkWrite ops ordered) m = fold_left write_one ops (m, 0%nat).
Proof. reflexivity. Qed.

Lemma write_one_spec (acc : gmap string Doc * nat) (op : UpdateOne) :
  (forall id, is_Some (fst (write_one acc op) !! id) <-> is_Some (fst acc !! id)) /\
  (forall id, id <> filter_id op -> fst (write_one acc op) !! id = fst acc !! id) /\
  (snd acc <= snd (write_one acc op) <= S (snd acc))%nat /\
  (is_Some (fst acc !! filter_id op) -> snd (write_one acc op) = S (snd acc)).
Proof.
  unfold write_one. destruct (fst acc !! filter_id op) as [d |] eqn:Hd;
    cbn [fst snd].
  - split; [ | split; [ | split]].
    + intros id. destruct (decide (filter_id op = id)) as [<- | Hne].
      * rewrite lookup_insert_eq, Hd. split; eauto.
      * now rewrite lookup_insert_ne.
    + intros id Hne. now rewrite lookup_insert_ne.
    + lia.
    + reflexivity.
  - split; [tauto | ]. split; [tauto | ]. split; [lia | ].
    intros [x Hx]. discriminate.
Qed.

Lemma writes_spec (ops : list UpdateOne) (acc : gmap string Doc * nat) :
  (forall id, is_Some (fst (fold_left write_one ops acc) !! id)
              <-> is_Some (fst acc !! id)) /\
  (forall id, ~ In id (List.map filter_id ops) ->
              fst (fold_left write_one ops acc) !! id = fst acc !! id) /\
  (snd acc <= snd (fold_left write_one ops acc) <= snd acc + length ops)%nat /\
  ((forall op, In op ops -> is_Some (fst acc !! filter_id op)) ->
   snd (fold_left write_one ops acc) = (snd acc + length ops)%nat).
Proof.
  revert acc. induction ops as [| op ops IH]; intros acc; cbn [fold_left].
  - cbn. repeat split; try tauto; lia.
  - destruct (IH (write_one acc op)) as (Hdom & Hother & Hcount & Hall).
    destruct (write_one_spec acc op) as (Hdom1 & Hother1 & Hcount1 & Hall1).
    split; [ | split; [ | split]].
    + intros id. now rewrite Hdom, Hdom1.
    + intros id Hnot. cbn [List.map] in Hnot. rewrite Hother.
      * apply Hother1. intros ->. apply Hnot. now left.
      * intros Hin. apply Hnot. now right.
    + cbn [length]. lia.
    + intros Hin. cbn [length]. rewrite Hall.
      * rewrite Hall1; [lia | ]. apply Hin. now left.
      * intros op' Hop'. apply Hdom1. apply Hin. now right.
Qed.

Section Named.
Context {U : Type}.
Variable check : U -> Repo -> result UpdateOne * Repo.
Variable ident : U -> option string.
Hypothesis check_ident :
  forall u st st1 op, check u st = (Ok op, st1) -> ident u = Some (filter_id op).

(** Every operation carries the id of an entry. *)
Lemma validate_entries_ids (entries : list U) (index : nat) (st st1 : Repo)
  (ops : list UpdateOne) (errors : list EntryError) :
  validate_entries check ident index entries st = (ops, errors, st1) ->
  forall op, In op ops -> In (Some (filter_id op)) (List.map ident entries).
Proof.
  revert index st st1 ops errors.
  induction entries as [| u rest IH]; intros index st st1 ops errors;
    cbn [validate_entries].
  - intros [= <- _ _] op [].
  - destruct (check u st) as [r st'] eqn:Hcheck.
    destruct (validate_entries check ident (S index) rest st')
      as [[ops' errors'] st2] eqn:Hrest.
    specialize (IH _ _ _ _ _ Hrest).
    destruct r as [op0 | e]; intros [= <- _ _] op Hin; cbn [List.map].
    + destruct Hin as [<- | Hin].
      * left. now apply check_ident in Hcheck.
      * right. now apply IH.
    + right. now apply IH.
Qed.

End Named.

Lemma check_status_update_ident (now : Z) (u : StatusUpdate) (st st1 : Repo)
  (op : UpdateOne) :
  check_status_update now u st = (Ok op, st1) -> u_id u = Some (filter_id op).
Proof.
  unfold check_status_update.
  destruct (u_id u) as [id |]; [ | cbn; discriminate].
  destruct (negb (str_truthy (Some id)) || negb (str_truthy (u_status u)));
    [discriminate | ].
  destruct (findById now (default "" (Some id)) st) as [[pickup | e] st'];
    [ | discriminate].
  destruct (method_validateStatusTransition _ _); [ | discriminate].
  now intros [= <- _].
Qed.

Lemma check_assignment_ident (now : Z) (a : Assignment) (st st1 : Repo)
  (op : UpdateOne) :
  check_assignment now a st = (Ok op, st1) -> a_pickupId a = Some (filter_id op).
Proof.
  unfold check_assignment.
  destruct (a_pickupId a) as [id |]; [ | cbn; discriminate].
  destruct (negb (str_truthy (Some id)) || negb (str_truthy (a_collectorId a)));
    [discriminate | ].
  destruct (findById now (default "" (Some id)) st) as [[pickup | e] st'];
    [ | discriminate].
  destruct (negb (String.eqb (status pickup) "pending")); [discriminate | ].
  now intros [= <- _].
Qed.

Lemma finish_bulk_touches (failed none : string) (ops : list UpdateOne)
  (errors : list EntryError) (st1 st' : Repo) (r : result BulkResult) :
  finish_bulk failed none (ops, errors, st1) = (r, st') ->
  (forall id, is_Some (db st' !! id) <-> is_Some (db st1 !! id)) /\
  (forall id, ~ In id (List.map filter_id ops) -> db st' !! id = db st1 !! id) /\
  (forall res, r = Ok res ->
     (matchedCount res <= length ops)%nat /\
     modifiedCount res = matchedCount res /\
     (success res = true <-> ops <> [])).
Proof.
  unfold finish_bulk. destruct (0 <? length errors)%nat.
  { intros [= <- <-]. split; [tauto | split; [tauto | intros res [=]]]. }
  destruct ops as [| op ops]; cbn [length Nat.ltb Nat.leb].
  { intros [= <- <-]. split; [tauto | split; [tauto | ]].
    intros res [= <-]. cbn. split; [lia | split; [reflexivity | ]].
    split; [discriminate | intros H; now destruct H]. }
  rewrite bulkWrite_fold.
  destruct (writes_spec (op :: ops) (db st1, 0%nat)) as (Hdom & Hother & Hcount & _).
  destruct (fold_left write_one (op :: ops) (db st1, 0%nat)) as [m matched].
  cbn [fst snd] in *. intros [= <- <-]. cbn [db].
  split; [exact Hdom | ]. split; [exact Hother | ].
  intros res [= <-]. cbn [matchedCount modifiedCount success length] in *.
  split; [lia | ]. split; [reflexivity | ]. split; [discriminate | reflexivity].
Qed.

(** X12.  The bulk functions never create or delete a request and
    never touch a request that no entry names; the counts they report
    are equal and at most the number of entries, and [success] is true
    exactly when there were entries. *)
Theorem bulk_touches_only_named (now : Z) (st : Repo) :
  (forall updates r st',
     bulkUpdateStatus now updates st = (r, st') ->
     (forall id, is_Some (db st' !! id) <-> is_Some (db st !! id)) /\
     (forall id, ~ In (Some id) (List.map u_id updates) ->
                 db st' !! id = db st !! id) /\
     (forall res, r = Ok res ->
        (matchedCount res <= length updates)%nat /\
        modifiedCount res = matchedCount res /\
        (success res = true <-> updates <> []))) /\
  (forall assignments r st',
     bulkAssignCollectors now assignments st = (r, st') ->
     (forall id, is_Some (db st' !! id) <-> is_Some (db st !! id)) /\
     (forall id, ~ In (Some id) (List.map a_pickupId assignments) ->
                 db st' !! id = db st !! id) /\
     (forall res, r = Ok res ->
        (matchedCount res <= length assignments)%nat /\
        modifiedCount res = matchedCount res /\
        (success res = true <-> assignments <> []))).
Proof.
  split.
  - intros updates r st'. unfold bulkUpdateStatus.
    destruct (validate_entries (check_status_update now) u_id 0 updates st)
      as [[ops errors] st1] eqn:Hv.
    pose proof (validate_entries_ids _ _ (check_status_update_ident now)
                  _ _ _ _ _ _ Hv) as Hids.
    destruct (validate_entries_spec _ u_id (check_status_update_db now)
                _ _ _ _ _ _ Hv) as (Hdb & Hlen & _).
    intros Hfin. pose proof Hfin as Hfin'.
    apply finish_bulk_touches in Hfin as (Hdom & Hother & Hres).
    rewrite Hdb in Hdom, Hother. split; [exact Hdom | ]. split.
    + intros id Hnot. apply Hother. intros Hin. apply Hnot.
      apply list_elem_of_In, list_elem_of_fmap in Hin as (op & -> & Hop).
      apply Hids. now apply list_elem_of_In.
    + intros res ->. destruct (Hres res eq_refl) as (Hm & Hmod & Hsucc).
      split; [lia | ]. split; [exact Hmod | ]. rewrite Hsucc.
      unfold finish_bulk in Hfin'.
      destruct errors as [| err errors]; [ | cbn in Hfin'; discriminate].
      cbn [length] in Hlen. rewrite Nat.add_0_r in Hlen.
      destruct ops, updates; cbn in Hlen; try discriminate; split; congruence.
  - intros assignments r st'. unfold bulkAssignCollectors.
    destruct (validate_entries (check_assignment now) a_pickupId 0 assignments st)
      as [[ops errors] st1] eqn:Hv.
    pose proof (validate_entries_ids _ _ (check_assignment_ident now)
                  _ _ _ _ _ _ Hv) as Hids.
    destruct (validate_entries_spec _ a_pickupId (check_assignment_db now)
                _ _ _ _ _ _ Hv) as (Hdb & Hlen & _).
    intros Hfin. pose proof Hfin as Hfin'.
    apply finish_bulk_touches in Hfin as (Hdom & Hother & Hres).
    rewrite Hdb in Hdom, Hother. split; [exact Hdom | ]. split.
    + intros id Hnot. apply Hother. intros Hin. apply Hnot.
      apply list_elem_of_In, list_elem_of_fmap in Hin as (op & -> & Hop).
      apply Hids. now apply list_elem_of_In.
    + intros res ->. destruct (Hres res eq_refl) as (Hm & Hmod & Hsucc).
      split; [lia | ]. split; [exact Hmod | ]. rewrite Hsucc.
      unfold finish_bulk in Hfin'.
      destruct errors as [| err errors]; [ | cbn in Hfin'; discriminate].
      cbn [length] in Hlen. rewrite Nat.add_0_r in Hlen.
      destruct ops, assignments; cbn in Hlen; try discriminate; split; congruence.
Qed.

Lemma bulk_touches_only_named_witness :
  db (snd (bulkUpdateStatus 5 (firstn 1 mixedUpdates) sampleRepo)) !! request2
  = db sampleRepo !! request2.
Proof.
  destruct (bulk_touches_only_named 5 sampleRepo) as [Hupd _].
  destruct (bulkUpdateStatus 5 (firstn 1 mixedUpdates) sampleRepo)
    as [r st'] eqn:Hb.
  destruct (Hupd _ _ _ Hb) as (_ & Hother & _).
  cbn [snd]. apply Hother. cbn. intros [H | []]. discriminate.
Defined.

(** A look-up within a call finds the stored request, cached by the
    call or not. *)
Lemma findById_current (now : Z) (id : string) (st : Repo) (d : Doc) :
  cache_current now st -> db st !! id = Some d -> isDeleted d = false ->
  exists st1, findById now id st = (Ok d, st1) /\
              db st1 = db st /\ cache_current now st1.
Proof.
  intros Hcur Hd Hlive.
  assert (Hone : findOne_live id (db st) = Some d).
  { unfold findOne_live. now rewrite Hd, Hlive. }
  destruct (map_get (cache st) (cacheKey id)) as [e |] eqn:Hget.
  - destruct (Hcur id e Hget) as [Ht Hv].
    assert (He : value e = d) by congruence.
    exists (mkRepo (db st) (cache st)). split; [ | split; [reflexivity | ]].
    + unfold findById, getCacheValue. rewrite Hget, Ht, Z.sub_diag, He.
      reflexivity.
    + exact Hcur.
  - exists (mkRepo (db st) (setCacheValue now (cacheKey id) d (cache st))).
    split; [ | split; [reflexivity | ]].
    + rewrite (findById_uncached _ _ _ Hget). now rewrite Hone.
    + intros id' e' Hget'. cbn [cache db] in *.
      apply setCacheValue_get in Hget' as [[Hkey ->] | Hold].
      * apply cacheKey_inj in Hkey as ->. now split.
      * now apply Hcur.
Qed.

Lemma check_allowed_update (now : Z) (u : StatusUpdate) (st : Repo) :
  cache_current now st -> allowed_update (db st) u ->
  exists op st1,
    check_status_update now u st = (Ok op, st1) /\
    db st1 = db st /\ cache_current now st1 /\
    is_Some (db st !! filter_id op).
Proof.
  intros Hcur (id & s & d & Hid & Hne & Hs & Hd & Hlive & Hedge).
  destruct (findById_current now id st d Hcur Hd Hlive) as (st1 & Hf & Hdb & Hcur1).
  unfold check_status_update. rewrite Hid, Hs.
  assert (Hidt : str_truthy (Some id) = true).
  { cbn. apply negb_true_iff, String.eqb_neq. exact Hne. }
  assert (Hst : str_truthy (Some s) = true).
  { unfold edge in Hedge. cbn.
    destruct Hedge as [[_ ->] | [[_ ->] | [[_ ->] | [_ ->]]]]; reflexivity. }
  rewrite Hidt, Hst. cbn [negb orb].
  change (default "" (Some id)) with id. change (default "" (Some s)) with s.
  rewrite Hf. apply method_ok_edge in Hedge.
  destruct (method_validateStatusTransition (status d) s); [ | discriminate].
  eexists _, st1. split; [reflexivity | ]. cbn [filter_id]. eauto.
Qed.

Lemma validate_allowed_updates (now : Z) (updates : list StatusUpdate)
  (index : nat) (st : Repo) :
  cache_current now st -> Forall (allowed_update (db st)) updates ->
  exists ops st1,
    validate_entries (check_status_update now) u_id index updates st
    = (ops, [], st1) /\
    length ops = length updates /\
    (forall op, In op ops -> is_Some (db st !! filter_id op)).
Proof.
  revert index st. induction updates as [| u rest IH]; intros index st Hcur Hall.
  - exists [], st. cbn. repeat split. intros op [].
  - apply Forall_cons in Hall as [Hu Hrest].
    destruct (check_allowed_update now u st Hcur Hu)
      as (op & st' & Hcheck & Hdb & Hcur' & Hin).
    rewrite <- Hdb in Hrest.
    destruct (IH (S index) st' Hcur' Hrest) as (ops & st1 & Hv & Hlen & Hops).
    exists (op :: ops), st1. cbn [validate_entries]. rewrite Hcheck, Hv.
    split; [reflexivity | ]. split; [cbn; congruence | ].
    intros op' [<- | Hop']; [exact Hin | ]. rewrite <- Hdb. now apply Hops.
Qed.

(** X13.  Within one call of [bulkUpdateStatus] every entry is
    validated against the request that [findById] returns, and not
    against the other entries.  When the cache holds nothing stale
    (every cached request was cached at the time of the call and is the
    stored request, [cache_current]), that request is the stored one:
    if each entry names a stored request and a status that the table
    allows after the stored one, all of them are written, also when
    several name the same request.  Two entries that move one pending
    request to 'cancelled' and to 'assigned' are both applied.  (With a
    stale entry in the cache the validation is against the cached
    status.) *)
Theorem bulk_entries_validated_independently (now : Z)
  (updates : list StatusUpdate) (st : Repo) :
  cache_current now st -> updates <> [] ->
  Forall (allowed_update (db st)) updates ->
  exists res st',
    bulkUpdateStatus now updates st = (Ok res, st') /\
    success res = true /\ matchedCount res = length updates.
Proof.
  intros Hcur Hne Hall.
  destruct (validate_allowed_updates now updates 0 st Hcur Hall)
    as (ops & st1 & Hv & Hlen & Hops).
  destruct (validate_entries_spec _ u_id (check_status_update_db now)
              _ _ _ _ _ _ Hv) as (Hdb & _).
  unfold bulkUpdateStatus. rewrite Hv. unfold finish_bulk.
  cbn [length Nat.ltb Nat.leb].
  destruct ops as [| op ops];
    [destruct updates; [contradiction | discriminate] | ].
  cbn [length Nat.ltb Nat.leb]. rewrite bulkWrite_fold, Hdb.
  destruct (writes_spec (op :: ops) (db st, 0%nat)) as (_ & _ & _ & Hcount).
  specialize (Hcount Hops).
  destruct (fold_left write_one (op :: ops) (db st, 0%nat)) as [m matched].
  cbn [fst snd] in Hcount. eexists _, _. split; [reflexivity | ].
  cbn [success matchedCount]. split; [reflexivity | ]. rewrite Hcount, <- Hlen.
  reflexivity.
Qed.

Lemma bulk_entries_validated_independently_witness :
  exists res st',
    bulkUpdateStatus 5
      [mkStatusUpdate (Some request1) (Some "cancelled") None;
       mkStatusUpdate (Some request1) (Some "assigned") None] sampleRepo
    = (Ok res, st') /\
    success res = true /\ matchedCount res = 2%nat.
Proof.
  apply (bulk_entries_validated_independently 5
           [mkStatusUpdate (Some request1) (Some "cancelled") None;
            mkStatusUpdate (Some request1) (Some "assigned") None] sampleRepo).
  - intros id e. cbn. discriminate.
  - discriminate.
  - repeat constructor.
    + exists request1, "cancelled", (stored request1). unfold edge.
      repeat split; try reflexivity; try discriminate. right. left. now split.
    + exists request1, "assigned", (stored request1). unfold edge.
      repeat split; try reflexivity; try discriminate. left. now split.
Defined.

End BulkFacts.

(** ** Pagination *)

Module PaginationFacts.
Import Schema Repository Repository2.

(** Consecutive chunks of a list make up its prefix. *)
Lemma chunks_prefix {A} (l : list A) (size n : nat) :
  concat (List.map (fun k => firstn size (skipn (k * size) l)) (seq 0 n))
  = firstn (n * size) l.
Proof.
  induction n as [| n IH].
  - reflexivity.
  - rewrite seq_S, List.map_app, concat_app, IH. cbn [List.map concat].
    rewrite app_nil_r, Nat.add_0_l.
    replace (S n * size)%nat with (n * size + size)%nat by lia.
    apply take_take_drop.
Qed.

Lemma page_limit_range (limit : option Z) : 1 <= page_limit limit <= 100.
Proof. unfold page_limit. lia. Qed.

Lemma page_number_ge (k : Z) : 1 <= k -> page_number (Some k) = k.
Proof.
  intros Hk. unfold page_number. destruct (Z.eqb_spec k 0); lia.
Qed.

Lemma ceil_div_covers (total limit : Z) :
  0 <= total -> 1 <= limit ->
  total <= ceil_div total limit * limit /\
  (ceil_div total limit - 1) * limit < total + (if total =? 0 then 1 else 0) /\
  0 <= ceil_div total limit.
Proof.
  intros Ht Hl. unfold ceil_div.
  pose proof (Z.div_mod (total + limit - 1) limit ltac:(lia)) as Hdm.
  pose proof (Z.mod_pos_bound (total + limit - 1) limit ltac:(lia)) as Hmod.
  destruct (Z.eqb_spec total 0); nia.
Qed.

(** X14.  [findWithPagination] serves pages from 1 and at most 100
    documents a page (10 when no limit is given; a page or a limit of 0
    counts as not given, a negative one as 1); a page past the last one
    is empty, and the pages 1 to [pages] put one after the other are the
    documents found, each of them once and in order. *)
Theorem findWithPagination_covers (found : list Doc) (page limit : option Z) :
  let r := findWithPagination found page limit in
  1 <= p_page r /\ 1 <= p_limit r <= 100 /\
  p_total r = Z.of_nat (length found) /\
  (Z.of_nat (length (p_docs r)) <= p_limit r) /\
  (p_pages r < p_page r -> p_docs r = []) /\
  p_total r <= p_pages r * p_limit r /\
  concat (List.map
            (fun k => p_docs (findWithPagination found (Some (Z.of_nat k)) limit))
            (seq 1 (Z.to_nat (p_pages r))))
  = found.
Proof.
  cbv zeta. unfold findWithPagination. cbn [p_page p_limit p_total p_docs p_pages].
  pose proof (page_limit_range limit) as Hlim.
  set (L := page_limit limit) in *.
  destruct (ceil_div_covers (Z.of_nat (length found)) L ltac:(lia) ltac:(lia))
    as (Hcover & _ & Hpos).
  set (P := ceil_div (Z.of_nat (length found)) L) in *.
  split; [unfold page_number; lia | ]. split; [exact Hlim | ].
  split; [reflexivity | ]. split; [ | split; [ | split; [exact Hcover | ]]].
  - rewrite length_take. lia.
  - intros Hpast. set (p := page_number page) in *.
    rewrite skipn_all2; [now rewrite firstn_nil | ]. nia.
  - assert (Hmap : List.map
              (fun k => firstn (Z.to_nat L)
                          (skipn (Z.to_nat ((page_number (Some (Z.of_nat k)) - 1) * L))
                                 found))
              (seq 1 (Z.to_nat P))
            = List.map
                (fun k => firstn (Z.to_nat L) (skipn (k * Z.to_nat L) found))
                (seq 0 (Z.to_nat P))).
    { rewrite <- seq_shift, List.map_map. apply List.map_ext. intros k.
      rewrite page_number_ge by lia. do 2 f_equal. nia. }
    rewrite Hmap, chunks_prefix. apply firstn_all2. nia.
Qed.

(** Twenty-five documents in pages of ten. *)
Example pages_of_ten :
  let found := List.map (fun i => stored (NilZero.string_of_uint (Nat.to_uint i)))
                        (seq 0 25) in
  List.map (fun k => length (p_docs (findWithPagination found (Some k) None)))
           [0; 1; 2; 3; 4]
  = [10; 10; 10; 5; 0]%nat /\
  p_pages (findWithPagination found None None) = 3.
Proof. vm_compute. split; reflexivity. Qed.

End PaginationFacts.

(** ** The weekly and the daily series *)

Module SeriesFacts.
Import Trends TrendsConditions.

Lemma last_In (l : list Z) : l <> [] -> In (List.last l 0) l.
Proof.
  intros Hl. destruct (exists_last Hl) as (l' & a & ->).
  rewrite last_last. apply in_or_app. right. now left.
Qed.

Lemma hd_In (l : list Z) : l <> [] -> In (hd 0 l) l.
Proof. destruct l; [congruence | now left]. Qed.

Lemma weeks_snoc (ws : list Weekly) (w : Weekly) :
  StronglySorted week_before ws ->
  (forall w', In w' ws -> week_before w' w) ->
  StronglySorted week_before (ws ++ [w]).
Proof.
  intros Hsorted. induction Hsorted as [| w0 ws Hws IH Hall]; intros Hlast.
  - repeat constructor.
  - cbn [app]. constructor.
    + apply IH. intros w' Hw'. apply Hlast. now right.
    + apply Forall_app. split; [exact Hall | ].
      constructor; [apply Hlast; now left | constructor].
Qed.

Section Dates.
Variable mkDate : Z -> Z -> Z -> Z.
Variable getMonth : Z -> Z.
Variable getFullYear : Z -> Z.

Local Abbreviation date_of := (Trends.date_of mkDate).
Local Abbreviation insert_stat := (Trends.insert_stat mkDate).
Local Abbreviation sort_stats := (Trends.sort_stats mkDate).
Local Abbreviation each := (Trends.each mkDate getMonth getFullYear).
Local Abbreviation calculateTrends :=
  (Trends.calculateTrends mkDate getMonth getFullYear).

Lemma each_week (l : Loop) (s : TimeStat) :
  l_weekly (each l s)
  = (if same_week (date_of s) (currentWeek l)
     then l_weekly l else l_weekly l ++ [week_of (currentWeek l)]) /\
  currentWeek (each l s)
  = (if same_week (date_of s) (currentWeek l)
     then accumulate (date_of s) s (currentWeek l)
     else restart (date_of s) s).
Proof.
  unfold Trends.each.
  destruct (same_week _ _); destruct (same_month _ _ _ _); split; reflexivity.
Qed.

Lemma week_of_span (c : Current) :
  c_days c <> [] ->
  (forall d, In d (c_days c) -> hd 0 (c_days c) <= d <= hd 0 (c_days c) + WEEK_MS) ->
  week_span (week_of c).
Proof.
  intros Hne Hall. unfold week_span, week_of. cbn [startDate endDate].
  apply Hall, last_In, Hne.
Qed.

Lemma each_weeks (l : Loop) (s : TimeStat) :
  weeks_invariant l ->
  (forall d, In d (c_days (currentWeek l)) -> d <= date_of s) ->
  weeks_invariant (each l s) /\
  (forall d, In d (c_days (currentWeek (each l s))) -> d <= date_of s).
Proof.
  intros (Hspan & Hsorted & Hbefore & Hempty & Hdays) Hle.
  destruct (each_week l s) as [Hw Hc].
  unfold weeks_invariant. rewrite Hw, Hc. clear Hw Hc.
  unfold same_week.
  destruct (c_days (currentWeek l)) as [| first days] eqn:Hcd.
  - (* the first day of all *)
    cbn [accumulate c_days]. rewrite Hcd, (Hempty eq_refl). cbn [app hd].
    split; [ | intros d [<- | []]; lia].
    split; [constructor | ]. split; [constructor | ].
    split; [intros w d [] | ]. split; [discriminate | ].
    intros d [<- | []]. unfold WEEK_MS. lia.
  - cbn [hd] in Hdays.
    assert (Hfirst : first <= date_of s) by (apply Hle; now left).
    destruct (Z.leb_spec (date_of s - first) WEEK_MS) as [Hin | Hout].
    + (* the day joins the current week *)
      cbn [accumulate c_days]. rewrite Hcd. cbn [app hd].
      split.
      * split; [exact Hspan | ]. split; [exact Hsorted | ].
        split; [ | split; [discriminate | ]].
        -- intros w d Hwin [<- | Hd].
           ++ now apply Hbefore; [ | left].
           ++ apply in_app_or in Hd. destruct Hd as [Hd | [<- | []]].
              ** apply Hbefore; [exact Hwin | now right].
              ** specialize (Hbefore w first Hwin (or_introl eq_refl)). lia.
        -- intros d [<- | Hd]; [unfold WEEK_MS; lia | ].
           apply in_app_or in Hd. destruct Hd as [Hd | [<- | []]].
           ++ apply Hdays. now right.
           ++ lia.
      * intros d [<- | Hd]; [exact Hfirst | ].
        apply in_app_or in Hd. destruct Hd as [Hd | [<- | []]]; [ | lia].
        apply Hle. now right.
    + (* the current week is pushed and the day starts the next one *)
      cbn [restart c_days hd].
      assert (Hweek : week_span (week_of (currentWeek l))).
      { apply week_of_span; rewrite Hcd; [discriminate | exact Hdays]. }
      assert (Hstart : startDate (week_of (currentWeek l)) = first).
      { unfold week_of. cbn [startDate]. now rewrite Hcd. }
      split.
      * split; [apply Forall_app; split; [exact Hspan | now constructor] | ].
        split; [ | split; [ | split]].
        -- apply weeks_snoc; [exact Hsorted | ].
           intros w Hwin. unfold week_before. rewrite Hstart.
           apply Hbefore; [exact Hwin | now left].
        -- intros w d Hwin [<- | []].
           apply in_app_or in Hwin. destruct Hwin as [Hwin | [<- | []]].
           ++ specialize (Hbefore w first Hwin (or_introl eq_refl)). lia.
           ++ unfold week_span in Hweek. rewrite Hstart in Hweek. lia.
        -- discriminate.
        -- intros d [<- | []]. unfold WEEK_MS. lia.
      * intros d [<- | []]. lia.
Qed.

Lemma loop_weeks (stats : list TimeStat) (l : Loop) :
  weeks_invariant l ->
  Sorted Z.le (List.map date_of stats) ->
  (forall d s, In d (c_days (currentWeek l)) -> In s stats -> d <= date_of s) ->
  weeks_invariant (fold_left each stats l).
Proof.
  revert l. induction stats as [| s stats IH]; intros l Hinv Hsorted Hle.
  - exact Hinv.
  - cbn [fold_left]. cbn [List.map] in Hsorted.
    apply Sorted_StronglySorted in Hsorted; [ | intros x y z; lia].
    inversion Hsorted as [| ? ? Hrest Hall]; subst.
    destruct (each_weeks l s Hinv) as [Hinv' Hle'].
    { intros d Hd. apply (Hle d s Hd). now left. }
    apply IH; [exact Hinv' | now apply StronglySorted_Sorted | ].
    intros d s' Hd Hs'. specialize (Hle' d Hd).
    rewrite List.Forall_forall in Hall.
    specialize (Hall (date_of s') (in_map date_of _ _ Hs')). lia.
Qed.

(** X15.  The weekly buckets of [calculateTrends] follow one another in
    time without overlap: each ends at or after its start and no more
    than seven days after it, and the next one starts after it has
    ended. *)
Theorem weekly_buckets_span_a_week (timeStats : list TimeStat) :
  Forall week_span (weekly (calculateTrends timeStats)) /\
  StronglySorted week_before (weekly (calculateTrends timeStats)).
Proof.
  unfold Trends.calculateTrends. cbn [weekly].
  set (l := fold_left each (sort_stats timeStats)
                      (mkLoop [] emptyCurrent [] emptyCurrent)).
  assert (Hinv : weeks_invariant l).
  { apply loop_weeks.
    - unfold weeks_invariant. cbn [l_weekly currentWeek emptyCurrent c_days].
      split; [constructor | ]. split; [constructor | ].
      split; [intros w d [] | ]. split; [reflexivity | intros d []].
    - apply TrendsFacts.sort_stats_sorted.
    - intros d s []. }
  destruct Hinv as (Hspan & Hsorted & Hbefore & _ & Hdays).
  destruct (c_days (currentWeek l)) as [| first days] eqn:Hcd; cbn [length Nat.ltb Nat.leb].
  - rewrite app_nil_r. now split.
  - assert (Hweek : week_span (week_of (currentWeek l))).
    { apply week_of_span; rewrite Hcd; [discriminate | exact Hdays]. }
    split; [apply Forall_app; split; [exact Hspan | now constructor] | ].
    apply weeks_snoc; [exact Hsorted | ].
    intros w Hwin. unfold week_before, week_of. cbn [startDate].
    rewrite Hcd. cbn [hd]. apply Hbefore; [exact Hwin | now left].
Qed.

Lemma insert_stat_perm (s : TimeStat) (l : list TimeStat) :
  Permutation (insert_stat s l) (s :: l).
Proof.
  induction l as [| x l IH]; cbn [Trends.insert_stat]; [reflexivity | ].
  destruct (date_of x <? date_of s); [ | reflexivity].
  rewrite IH. apply perm_swap.
Qed.

Lemma sort_stats_perm (l : list TimeStat) : Permutation (sort_stats l) l.
Proof.
  unfold Trends.sort_stats. induction l as [| s l IH]; cbn [fold_right].
  - reflexivity.
  - rewrite insert_stat_perm. now constructor.
Qed.

(** X16.  The daily series of [calculateTrends] has one entry for each
    element of [timeStats], with its count, volume and response time,
    and runs in ascending order of date. *)
Theorem daily_is_sorted_input (timeStats : list TimeStat) :
  Permutation
    (daily (calculateTrends timeStats))
    (List.map (fun s => mkDaily (date_of s) (count s) (totalVolume s)
                                (avgResponseTime s)) timeStats) /\
  Sorted Z.le (List.map date (daily (calculateTrends timeStats))).
Proof.
  unfold Trends.calculateTrends. cbn [daily]. split.
  - apply Permutation_map, sort_stats_perm.
  - rewrite List.map_map. cbn [date]. apply TrendsFacts.sort_stats_sorted.
Qed.

End Dates.

(** On a server in UTC two days exactly a week apart share a bucket,
    which then covers eight calendar days. *)
Example a_week_of_eight_days :
  weekly (Trends.calculateTrends utc_mkDate utc_getMonth utc_getFullYear
            [ mkStat (mkId 2024 1 8) 1 1%float None;
              mkStat (mkId 2024 1 1) 1 1%float None ])
  = [ mkWeekly (utc_mkDate 2024 0 1) (utc_mkDate 2024 0 8) 2 2%float None ].
Proof. vm_compute. reflexivity. Qed.

End SeriesFacts.

(** ** More on the pickup service *)

Module ServiceFacts2.
Import Status Schema Cache Repository Repository2 Service Service2.
Import StatusFacts CacheFacts SchemaFacts RepositoryFacts RepositoryFacts2.

(** X17.  [findNearbyPickups] does not return on a location that is
    JSON data, as the body of a request is (the values of [JsVal]):
    coordinates that [validateCoordinates] accepts then belong to a
    location object, which the service hands to the repository where the
    array of the coordinates is expected, so that the call ends in the
    [InternalError] 'Failed to fetch nearby pickups'.  (An array that a
    program has given a property [coordinates] of its own is not JSON
    data, and not a value of [JsVal].) *)
Theorem findNearbyPickups_always_fails (location radius : JsVal) :
  findNearbyPickups location radius
  = Throw (mkError InternalError "Failed to fetch nearby pickups").
Proof.
  unfold findNearbyPickups.
  destruct (validateCoordinates (opt_prop location "coordinates")) eqn:Hv;
    [ | reflexivity].
  destruct location; try (cbn in Hv; discriminate).
  reflexivity.
Qed.

(** X18.  [cancelPickup] never cancels: it calls a method
    [updateStatus] that the repository does not have.  An invalid id is
    answered with a [ValidationError], every other call with the
    [InternalError] 'Failed to cancel pickup request', and the
    repository is left as it was. *)
Theorem cancelPickup_never_cancels (ObjectId_isValid : string -> bool)
  (pickupRequestId : string) (reason : option string) (st : Repo) :
  exists e,
    cancelPickup ObjectId_isValid pickupRequestId reason st = (Throw e, st) /\
    (validateObjectId ObjectId_isValid (Some pickupRequestId) = false ->
     e = mkError ValidationError "Invalid pickup request ID") /\
    (validateObjectId ObjectId_isValid (Some pickupRequestId) = true ->
     e = mkError InternalError "Failed to cancel pickup request").
Proof.
  unfold cancelPickup.
  destruct (validateObjectId ObjectId_isValid (Some pickupRequestId));
    eexists; (split; [reflexivity | ]); split; intros H;
    try discriminate; reflexivity.
Qed.

Lemma validate_strings (now : Z) (ids : list string) (index : nat) (st : Repo) :
  exists errors,
    validate_entries (check_status_update now) u_id index
                     (List.map entry_of_string ids) st
    = ([], errors, st) /\
    length errors = length ids.
Proof.
  revert index. induction ids as [| id ids IH]; intros index.
  - exists []. split; reflexivity.
  - destruct (IH (S index)) as (errors & Hv & Hlen).
    cbn [List.map validate_entries]. unfold check_status_update at 1.
    cbn [entry_of_string u_id u_status str_truthy negb orb].
    rewrite Hv. eexists. split; [reflexivity | ]. cbn [length]. now rewrite Hlen.
Qed.

(** X19.  [bulkUpdatePickupStatus] updates nothing when it is given
    ids: the repository looks for [id] and [status] inside each element
    of the array, finds neither in a string, and refuses the whole
    call.  Every call with an array of id strings throws a
    [ValidationError] and leaves the repository, cache included, as it
    was. *)
Theorem bulkUpdatePickupStatus_rejects_ids (now : Z) (ids : list string)
  (st : Repo) :
  bulkUpdatePickupStatus now ids st
  = (Throw (mkError ValidationError
              (if (length ids =? 0)%nat then "Invalid pickup request IDs"
               else "Bulk update validation failed")),
     st).
Proof.
  unfold bulkUpdatePickupStatus. destruct ids as [| id ids]; [reflexivity | ].
  cbn [length Nat.eqb]. unfold bulkUpdateStatus.
  destruct (validate_strings now (id :: ids) 0 st) as (errors & -> & Hlen).
  unfold finish_bulk. destruct errors as [| err errors]; [discriminate | ].
  reflexivity.
Qed.

(** X20.  [deletePickupRequest] removes the stored request whatever
    its status is, soft-deleted or not, and does not consult
    [isDeletable]; the cache is not touched.  It throws only for an
    invalid id (a [ValidationError]) and for an id that is not stored
    (the [NotFoundError] of the base repository). *)
Theorem deletePickupRequest_any_status (ObjectId_isValid : string -> bool)
  (id : string) (st : Repo) :
  (validateObjectId ObjectId_isValid (Some id) = false ->
   deletePickupRequest ObjectId_isValid id st
   = (Throw (mkError ValidationError "Invalid pickup request ID"), st)) /\
  (validateObjectId ObjectId_isValid (Some id) = true ->
   match db st !! id with
   | Some d =>
       deletePickupRequest ObjectId_isValid id st
       = (Ok d, mkRepo (delete id (db st)) (cache st))
   | None =>
       deletePickupRequest ObjectId_isValid id st
       = (Throw (mkError NotFoundError "PickupRequest not found"), st)
   end).
Proof.
  unfold deletePickupRequest, base_delete. split; intros ->; cbn [negb].
  - reflexivity.
  - destruct (db st !! id); reflexivity.
Qed.

(** The theorem on the collected request [request2], which is not
    deletable and is deleted. *)
Lemma deletePickupRequest_any_status_witness :
  Virtuals.isDeletable (with_status "collected" (stored request2)) = false /\
  deletePickupRequest hex24 request2 sampleRepo
  = (Ok (with_status "collected" (stored request2)),
     mkRepo (delete request2 (db sampleRepo)) (cache sampleRepo)).
Proof.
  split; [reflexivity | ].
  apply (proj2 (deletePickupRequest_any_status hex24 request2 sampleRepo)).
  reflexivity.
Defined.

Section External.
Variable ObjectId_isValid : string -> bool.
Variable createNotification : Notification -> result unit.

Local Abbreviation modifyPickupRequest :=
  (Service2.modifyPickupRequest ObjectId_isValid createNotification).
Local Abbreviation assignPickupCollector :=
  (Service2.assignPickupCollector ObjectId_isValid createNotification).

(** X21.  [modifyPickupRequest] writes before it notifies: when the
    notification fails after an update of the status, the service
    throws (an [InternalError] 'Failed to update pickup request', unless
    the notification threw an error of a class the service passes on)
    and the request stays updated in the collection.  An update without
    a status sends no notification. *)
Theorem modifyPickupRequest_writes_before_notifying (now : Z) (id : string)
  (updatedData : PickupData) (st st1 : Repo) (updated : Doc) :
  validateObjectId ObjectId_isValid (Some id) = true ->
  data_location updatedData = JUndefined ->
  update (ids := mkIds ObjectId_isValid) now id updatedData st
  = (Ok updated, st1) ->
  db st1 !! id = Some updated /\
  (str_truthy (data_status updatedData) = false ->
   modifyPickupRequest now id updatedData st = (Ok updated, st1)) /\
  (forall e,
     str_truthy (data_status updatedData) = true ->
     createNotification
       (status_notification updated (default "" (data_status updatedData)))
     = Throw e ->
     modifyPickupRequest now id updatedData st
     = (Throw (rethrow [ValidationError; NotFoundError]
                       "Failed to update pickup request" e), st1) /\
     (kind e <> ValidationError -> kind e <> NotFoundError ->
      rethrow [ValidationError; NotFoundError]
              "Failed to update pickup request" e
      = mkError InternalError "Failed to update pickup request")).
Proof.
  intros Hid Hloc Hu. split; [ | split].
  - apply update_spec in Hu as (_ & request & st0 & d & _ & _ & _ & _ & Hdb & _).
    rewrite Hdb. apply lookup_insert_eq.
  - intros Hs. unfold Service2.modifyPickupRequest.
    rewrite Hid, Hloc, Hu, Hs. reflexivity.
  - intros e Hs Hn. split.
    + unfold Service2.modifyPickupRequest.
      rewrite Hid, Hloc, Hu, Hs, Hn. reflexivity.
    + intros Hv Hf. unfold rethrow. rewrite bool_decide_eq_false_2; [reflexivity | ].
      intros Hin. apply elem_of_cons in Hin as [Hin | Hin]; [contradiction | ].
      apply elem_of_cons in Hin as [Hin | Hin]; [contradiction | ].
      inversion Hin.
Qed.

(** X22.  [assignPickupCollector] assigns every stored request that is
    neither collected nor cancelled, also one that is assigned to
    another collector already (a step the transition table does not
    have): the request returned has the status 'assigned', the new
    collector and one more history entry with the empty note, and it
    replaces the stored one.  (The two ids are valid [ObjectId]s, the
    notification service answers, and the request is not soft-deleted,
    not cached, and has a history that has gone through the schema.) *)
Theorem assignPickupCollector_assigns (now : Z) (pickupRequestId collector : string)
  (st : Repo) (d : Doc) :
  validateObjectId ObjectId_isValid (Some pickupRequestId) = true ->
  validateObjectId ObjectId_isValid (Some collector) = true ->
  (forall n, createNotification n = Ok tt) ->
  db st !! pickupRequestId = Some d -> isDeleted d = false ->
  map_get (cache st) (cacheKey pickupRequestId) = None ->
  ~ terminal (status d) ->
  history_valid (statusHistory d) = true ->
  exists updated st',
    assignPickupCollector now pickupRequestId (Some collector) st
    = (Ok updated, st') /\
    status updated = "assigned" /\
    collectorId updated = Some collector /\
    statusHistory updated
    = statusHistory d ++ [mkHistory "assigned" now (Some "")] /\
    db st' = <[pickupRequestId := updated]> (db st).
Proof.
  intros Hid Hcid Hn Hd Hlive Hnone Hterm Hhist.
  assert (Hcoll : str_truthy (Some collector) = true
                  /\ ObjectId_isValid collector = true).
  { unfold validateObjectId in Hcid.
    destruct (str_truthy (Some collector)); [now split | discriminate]. }
  destruct (update_status_ok (ids := mkIds ObjectId_isValid) now
              pickupRequestId "assigned" (Some collector)
              (Some "") None st d Hd Hlive Hnone)
    as (st' & Hu & Hdb & _).
  - cbn. tauto.
  - intros H. contradiction.
  - intros _. apply Hcoll.
  - apply Hcoll.
  - reflexivity.
  - exact Hhist.
  - destruct (changed_fields now d "assigned" (Some collector) (Some "") None)
      as (Hs & Hh & _ & Hc & _); [cbn; tauto | exact Hhist | ].
    eexists _, st'.
    unfold Service2.assignPickupCollector, assignCollector.
    rewrite Hid, Hcid. cbn [negb orb].
    change (mkData None (Some collector) None None JUndefined None None
              (Some "assigned") None (Some "") None None None None None None)
      with (status_change_at "assigned" (Some collector) (Some "") None).
    rewrite Hu, Hn. repeat split; assumption.
Qed.

End External.

(** The theorem on the pending request [request1] with a notification
    service that is down: the update is reported as failed and the
    request is collected. *)
Lemma modifyPickupRequest_writes_before_notifying_witness :
  exists st1,
    Service2.modifyPickupRequest hex24
      (fun _ => Throw (mkError PlainError "down")) 20 request1
      (status_change "collected" None None) sampleRepo
    = (Throw (mkError InternalError "Failed to update pickup request"), st1) /\
    option_map status (db st1 !! request1) = Some "collected".
Proof.
  destruct (update (ids := hexIds) 20 request1
              (status_change "collected" None None) sampleRepo)
    as [[updated | e] st1] eqn:Hu; [ | exfalso; vm_compute in Hu; discriminate].
  destruct (modifyPickupRequest_writes_before_notifying hex24
              (fun _ => Throw (mkError PlainError "down")) 20 request1
              (status_change "collected" None None) sampleRepo st1 updated
              eq_refl eq_refl Hu) as (Hdb & _ & Hfail).
  destruct (Hfail (mkError PlainError "down") eq_refl eq_refl) as [Hm _].
  exists st1. split; [exact Hm | ].
  rewrite Hdb. vm_compute in Hu. injection Hu as <- _. reflexivity.
Defined.

(** The theorem on the request [request1], assigned twice in a row. *)
Lemma assignPickupCollector_assigns_witness :
  exists first st1 second st2,
    Service2.assignPickupCollector hex24 (fun _ => Ok tt) 20 request1
      (Some collector1) sampleRepo = (Ok first, st1) /\
    Service2.assignPickupCollector hex24 (fun _ => Ok tt) 30 request1
      (Some collector2) st1 = (Ok second, st2) /\
    collectorId second = Some collector2 /\
    List.map h_status (statusHistory second)
    = List.map h_status (statusHistory (stored request1)) ++ ["assigned"; "assigned"].
Proof.
  destruct (assignPickupCollector_assigns hex24 (fun _ => Ok tt)
              20 request1 collector1 sampleRepo (stored request1))
    as (first & st1 & H1 & Hs1 & Hc1 & Hh1 & Hdb1); try reflexivity.
  { intros [H | H]; discriminate. }
  assert (Hst1 : st1 = snd (Service2.assignPickupCollector hex24
                              (fun _ => Ok tt) 20 request1 (Some collector1) sampleRepo))
    by now rewrite H1.
  assert (Hfirst : Ok first = fst (Service2.assignPickupCollector hex24
                              (fun _ => Ok tt) 20 request1 (Some collector1) sampleRepo))
    by now rewrite H1.
  vm_compute in Hfirst. injection Hfirst as Hfirst.
  destruct (assignPickupCollector_assigns hex24 (fun _ => Ok tt)
              30 request1 collector2 st1 first)
    as (second & st2 & H2 & Hs2 & Hc2 & Hh2 & Hdb2); try reflexivity.
  { rewrite Hdb1. apply lookup_insert_eq. }
  { rewrite Hfirst. reflexivity. }
  { rewrite Hst1. vm_compute. reflexivity. }
  { rewrite Hs1. intros [H | H]; discriminate. }
  { rewrite Hfirst. reflexivity. }
  exists first, st1, second, st2. split; [exact H1 | ]. split; [exact H2 | ].
  split; [exact Hc2 | ].
  rewrite Hh2, Hh1, !List.map_app. cbn [List.map h_status].
  rewrite <- app_assoc. reflexivity.
Defined.

End ServiceFacts2.

(** ** The cache of the user repository *)

Module UserCacheFacts.
Import Schema Cache Validation UserCache CacheFacts CacheFacts2.

Section WithValue.
Context {V : Type}.
Implicit Types (c : list (string * Entry V)) (key : string).

(** Deleting, in turn, those of [keys] that satisfy [p]. *)
Lemma map_get_sweep (p : string -> bool) (keys : list string) c key :
  map_get
    (fold_left (fun acc k => if p k then map_delete k acc else acc) keys c) key
  = if p key && existsb (String.eqb key) keys then None else map_get c key.
Proof.
  revert c. induction keys as [| k keys IH]; intros c; cbn [fold_left existsb].
  - now rewrite andb_false_r.
  - rewrite IH. destruct (String.eqb_spec key k) as [-> | Hne].
    + cbn [orb]. rewrite andb_true_r. destruct (p k) eqn:Hp; cbn [andb].
      * destruct (existsb _ keys); [reflexivity | apply map_get_delete].
      * reflexivity.
    + cbn [orb]. destruct (p key && existsb (String.eqb key) keys);
        [reflexivity | ].
      destruct (p k); [ | reflexivity].
      apply map_get_delete_ne. congruence.
Qed.

Lemma map_get_sweep_all (p : string -> bool) c key :
  map_get
    (fold_left (fun acc k => if p k then map_delete k acc else acc)
               (List.map fst c) c) key
  = if p key then None else map_get c key.
Proof.
  rewrite map_get_sweep. destruct (p key); [ | reflexivity]. cbn [andb].
  destruct (existsb (String.eqb key) (List.map fst c)) eqn:Hex; [reflexivity | ].
  destruct (map_get c key) as [e |] eqn:Hget; [ | reflexivity].
  exfalso. assert (Hin : In key (List.map fst c)).
  { clear Hex. unfold map_get in Hget.
    induction c as [| [k' v'] rest IH]; cbn [own_prop] in Hget; [discriminate | ].
    cbn [List.map fst]. destruct (String.eqb_spec key k') as [-> | Hne];
      [now left | right; now apply IH]. }
  assert (Hex' : existsb (String.eqb key) (List.map fst c) = true).
  { apply existsb_exists. exists key. split; [exact Hin | apply String.eqb_refl]. }
  congruence.
Qed.

Lemma map_get_delete_if (b : bool) key key' c :
  map_get (if b then map_delete key c else c) key'
  = if b && String.eqb key key' then None else map_get c key'.
Proof.
  destruct b; [ | reflexivity]. cbn [andb].
  destruct (String.eqb_spec key key') as [<- | Hne].
  - apply map_get_delete.
  - now apply map_get_delete_ne.
Qed.

End WithValue.

(** X23.  [invalidateUserCache] removes every cached search and the
    entries of the user's e-mail address and of the old one, whatever
    their case, and nothing else: every other key keeps its entry. *)
Theorem invalidateUserCache_removes (V : Type) (email oldEmail : option string)
  (c : list (string * Entry V)) (key : string) :
  map_get (invalidateUserCache email oldEmail c) key
  = if String.prefix "search:" key
       || (str_truthy email && String.eqb (emailKey (default "" email)) key)
       || (str_truthy oldEmail && String.eqb (emailKey (default "" oldEmail)) key)
    then None else map_get c key.
Proof.
  unfold invalidateUserCache. rewrite map_get_sweep_all.
  destruct (String.prefix "search:" key); [reflexivity | ]. cbn [orb].
  rewrite !map_get_delete_if.
  destruct (str_truthy oldEmail && _); [now rewrite orb_true_r | ].
  now rewrite orb_false_r.
Qed.

(** A cache with a user under the lower-case address, a search and a
    pickup request: invalidating for the address in capitals leaves the
    pickup request alone. *)
Example invalidate_sample :
  List.map fst
    (invalidateUserCache (Some "Ann@Clinic.org") None
       [ ("email:ann@clinic.org", mkEntry 1%nat 0);
         ("search:ann:{}", mkEntry 2%nat 0);
         ("pickup:r1", mkEntry 3%nat 0) ])
  = ["pickup:r1"].
Proof. vm_compute. reflexivity. Qed.

End UserCacheFacts.

(** ** The validators *)

Module ValidationFacts.
Import Status Validation PickupValidation ValidationConditions StatusFacts.

Lemma invalid_not_valid (msg : string) : isValid (invalid msg) = false.
Proof. reflexivity. Qed.

Lemma own_prop_In {A} (o : list (string * A)) (k : string) (v : A) :
  own_prop o k = Some v -> In k (List.map fst o).
Proof.
  induction o as [| [k' v'] rest IH]; cbn [own_prop]; [discriminate | ].
  cbn [List.map fst]. destruct (String.eqb_spec k k') as [-> | Hne].
  - now left.
  - intros H. right. now apply IH.
Qed.

(** What an object that passes [validateObject] looks like. *)
Lemma validateObject_valid (obj : JsVal) (schema : list (string * FieldValidator))
  (options : list (string * Opt)) (r : ValidationResult) :
  validateObject obj schema options = Ok r -> isValid r = true ->
  bool_opt options "required" true = true ->
  bool_opt options "allowUnknown" false = false ->
  exists fields,
    obj = JObject fields /\
    (forall key, In key (List.map fst fields) -> known_key schema key = true) /\
    validate_fields fields schema = Ok r.
Proof.
  unfold validateObject. intros Hv Hvalid Hreq Hunknown0.
  rewrite Hreq, Hunknown0 in Hv. cbn [negb andb] in Hv.
  destruct (isEmpty obj).
  { injection Hv as <-. discriminate. }
  destruct obj as [ | | b | n | s | items | fields];
    try (injection Hv as <-; discriminate).
  exists fields. split; [reflexivity | ].
  destruct (List.filter _ _) as [| key0 unknown] eqn:Hunknown;
    cbn [length Nat.ltb Nat.leb] in Hv.
  - split; [ | exact Hv]. intros key Hin.
    destruct (known_key schema key) eqn:Hk; [reflexivity | exfalso].
    assert (Hf : In key (List.filter (fun key => negb (known_key schema key))
                                     (List.map fst fields))).
    { apply List.filter_In. split; [exact Hin | now rewrite Hk]. }
    rewrite Hunknown in Hf. destruct Hf.
  - injection Hv as <-. discriminate.
Qed.

(** Every field of an object that passes is absent and optional, or
    passes its validator. *)
Lemma validate_fields_valid (obj : list (string * JsVal))
  (schema : list (string * FieldValidator)) (r : ValidationResult) :
  validate_fields obj schema = Ok r -> isValid r = true ->
  forall key validator,
    In (key, validator) schema ->
    (opt_prop (JObject obj) key = JUndefined /\ required validator = false) \/
    (opt_prop (JObject obj) key <> JUndefined /\
     exists validation,
       validate validator (opt_prop (JObject obj) key) = Ok validation /\
       isValid validation = true).
Proof.
  intros Hv Hvalid key validator.
  induction schema as [| [key0 validator0] rest IH]; intros Hin; [destruct Hin | ].
  cbn [validate_fields] in Hv.
  assert (Hhere :
    ((opt_prop (JObject obj) key0 = JUndefined /\ required validator0 = false) \/
     (opt_prop (JObject obj) key0 <> JUndefined /\
      exists validation,
        validate validator0 (opt_prop (JObject obj) key0) = Ok validation /\
        isValid validation = true)) /\
    validate_fields obj rest = Ok r).
  { destruct (opt_prop (JObject obj) key0) as [ | | b | n | s | items | fields]
      eqn:Hprop.
    1: { destruct (required validator0).
         - injection Hv as <-. discriminate.
         - split; [left; now split | exact Hv]. }
    all: destruct (validate validator0 _) as [validation | e] eqn:Hval;
      [ | discriminate];
      destruct (isValid validation) eqn:Hok; cbn [negb] in Hv;
      [ | injection Hv as <-; discriminate];
      (split; [right; split; [discriminate | now exists validation] | exact Hv]). }
  destruct Hhere as [Hhere Hrest].
  destruct Hin as [[= <- <-] | Hin]; [exact Hhere | now apply IH].
Qed.

(** The enumerations accept the strings of their lists and nothing else. *)
Lemma validateEnum_valid (value : JsVal) (values : list string)
  (options : list (string * Opt)) (r : ValidationResult) :
  bool_opt options "required" true = true ->
  values_opt options "values" = Some values ->
  bool_opt options "caseSensitive" true = true ->
  validateEnum value options = Ok r -> isValid r = true ->
  exists s, value = JString s /\ In s values.
Proof.
  unfold validateEnum. intros -> -> -> Hv Hvalid. cbn [negb] in Hv.
  destruct (isEmpty value); [injection Hv as <-; discriminate | ].
  destruct value as [ | | b | n | s | items | fields]; cbn [negb] in Hv;
    try (injection Hv as <-; discriminate).
  destruct (includes values s) eqn:Hin; cbn [negb] in Hv;
    [ | injection Hv as <-; discriminate].
  exists s. split; [reflexivity | now apply includes_In].
Qed.

Lemma validateStatus_valid (status : JsVal) (r : ValidationResult) :
  validateStatus status = Ok r -> isValid r = true ->
  exists s, status = JString s /\ In s PICKUP_STATUSES.
Proof. apply validateEnum_valid; reflexivity. Qed.

(** A number that [validateNumber] accepts between two bounds. *)
Lemma validateNumber_between (num : JsVal) (lo hi : Z) (name : string) :
  isValid (validateNumber num
             [("min", ONum lo); ("max", ONum hi); ("fieldName", OStr name)])
  = true ->
  exists q, num = JNumber (Num q) /\
            num_lt (Num q) (QofZ lo) = false /\
            num_gt (Num q) (QofZ hi) = false.
Proof.
  unfold validateNumber.
  change (bool_opt _ "required" true) with true.
  change (bool_opt _ "integer" false) with false.
  change (bool_opt _ "positive" false) with false.
  change (num_opt _ "min") with (Some lo).
  change (num_opt _ "max") with (Some hi).
  cbn [negb andb].
  destruct (isEmpty num); [discriminate | ].
  destruct num as [ | | b | [q |] | s | items | fields]; try discriminate.
  destruct (num_lt (Num q) (QofZ lo)) eqn:Hlo; [discriminate | ].
  destruct (num_gt (Num q) (QofZ hi)) eqn:Hhi; [discriminate | ].
  intros _. now exists q.
Qed.

(** X24.  [validateBulkStatusUpdate] looks at the length of the array
    and at nothing else: it hands its validator of the elements to
    [validateArray] under the name [validate], where [validateArray]
    reads [elementValidator].  Every array of 1 to 50 elements passes,
    whatever the elements are. *)
Theorem validateBulkStatusUpdate_ignores_elements
  (ObjectId_isValid : string -> bool) (updates : JsVal) :
  exists r,
    validateBulkStatusUpdate ObjectId_isValid updates = Ok r /\
    (isValid r = true <->
     exists items, updates = JArray items /\ (1 <= length items <= 50)%nat).
Proof.
  unfold validateBulkStatusUpdate.
  destruct updates as [ | | b | n | s | items | fields];
    try (eexists; split; [reflexivity | ];
         split; [discriminate | intros (items & H & _); discriminate]).
  destruct (Nat.eqb_spec (length items) 0) as [H0 | H0].
  { eexists. split; [reflexivity | ].
    split; [discriminate | intros (items' & [= <-] & Hlen); lia]. }
  destruct (Z.ltb_spec MAX_BULK_OPERATIONS (Z.of_nat (length items)))
    as [Hmax | Hmax].
  { eexists. split; [reflexivity | ].
    split; [discriminate | ].
    intros (items' & [= <-] & Hlen). unfold MAX_BULK_OPERATIONS in Hmax. lia. }
  exists valid. split.
  - unfold validateArray.
    change (validator_opt _ "elementValidator") with
      (@None (JsVal -> result ValidationResult)).
    change (num_opt _ "minLength") with (@None Z).
    change (num_opt _ "maxLength") with (@None Z).
    change (bool_opt _ "unique" false) with false.
    reflexivity.
  - split; [ | reflexivity]. intros _. exists items. split; [reflexivity | ].
    unfold MAX_BULK_OPERATIONS in Hmax. lia.
Qed.

(** An array of [null]s passes although no element would pass the
    validator of the elements. *)
Example nulls_pass :
  validateBulkStatusUpdate Schema.hex24 (JArray [JNull; JNull]) = Ok valid /\
  validate_update Schema.hex24 JNull = Ok (invalid "Object is required").
Proof. split; reflexivity. Qed.

(** X25.  [validatePickupRequestUpdate] cannot accept an assignment:
    it rejects the field [collectorId] as unknown and a status
    'assigned' without it.  The changes of status it accepts are the
    transitions of the table that do not lead to 'assigned': pending to
    cancelled, assigned to collected and assigned to cancelled. *)
Theorem validatePickupRequestUpdate_accepts (data : JsVal)
  (currentStatus : string) (r : ValidationResult) :
  validatePickupRequestUpdate data currentStatus = Ok r -> isValid r = true ->
  opt_prop data "collectorId" = JUndefined /\
  (opt_prop data "status" = JUndefined \/
   exists s, opt_prop data "status" = JString s /\
             edge currentStatus s /\ s <> "assigned").
Proof.
  unfold validatePickupRequestUpdate. intros Hv Hvalid.
  destruct (validateObject data _ _) as [base | e] eqn:Hbase; [ | discriminate].
  destruct (isValid base) eqn:Hb; cbn [negb] in Hv;
    [ | injection Hv as <-; congruence].
  apply validateObject_valid in Hbase as (fields & -> & Hknown & Hfields);
    try reflexivity; [ | exact Hb].
  assert (Hcollector : opt_prop (JObject fields) "collectorId" = JUndefined).
  { cbn [opt_prop]. destruct (own_prop fields "collectorId") as [v |] eqn:Hc;
      [ | reflexivity].
    apply own_prop_In, Hknown in Hc. discriminate. }
  split; [exact Hcollector | ].
  destruct (validate_fields_valid _ _ _ Hfields Hb "status"
              (mkField false
                 (fun status =>
                    match validateStatus status with
                    | Throw e => Throw e
                    | Ok statusValidation =>
                        if negb (isValid statusValidation) then Ok statusValidation
                        else
                          match status with
                          | JString s => validateStatusTransition currentStatus s
                          | _ => Ok statusValidation
                          end
                    end)))
    as [[Hnone _] | (Hsome & validation & Hval & Hok)].
  { unfold update_schema. cbn [In]. tauto. }
  { now left. }
  right. cbn [validate] in Hval.
  destruct (validateStatus _) as [statusValidation | e] eqn:Hstatus;
    [ | discriminate].
  destruct (isValid statusValidation) eqn:Hsv; cbn [negb] in Hval;
    [ | injection Hval as <-; congruence].
  destruct (validateStatus_valid _ _ Hstatus Hsv) as (s & Hs & Hin).
  rewrite Hs in *. exists s. split; [reflexivity | ].
  assert (Hedge : edge currentStatus s).
  { apply table_allows_edge. unfold validateStatusTransition in Hval.
    destruct (table_allows currentStatus s) as [[|] |]; try discriminate.
    - reflexivity.
    - injection Hval as <-. discriminate. }
  split; [exact Hedge | ]. intros ->.
  rewrite Hcollector in Hv. cbn [truthy negb andb String.eqb] in Hv.
  change (String.eqb "assigned" "assigned") with true in Hv.
  cbn [andb] in Hv. injection Hv as <-. discriminate.
Qed.

(** The theorem on the cancellation of a pending request. *)
Lemma validatePickupRequestUpdate_accepts_witness :
  validatePickupRequestUpdate
    (JObject [("status", JString "cancelled"); ("note", JString "closed")])
    "pending" = Ok valid /\
  edge "pending" "cancelled".
Proof.
  split; [reflexivity | ].
  destruct (validatePickupRequestUpdate_accepts
              (JObject [("status", JString "cancelled");
                        ("note", JString "closed")])
              "pending" valid eq_refl eq_refl) as [_ [H | (s & Hs & He & _)]].
  - discriminate.
  - injection Hs as <-. exact He.
Defined.

(** X26.  A location that [validateLocation] accepts is a 'Point'
    whose coordinates are two numbers, a longitude in [-180, 180] and a
    latitude in [-90, 90], and these coordinates pass the
    [validateCoordinates] of the service.  The converse fails on
    numbers that are [NaN], which only [validateCoordinates] lets
    through. *)
Theorem validateLocation_coordinates (location : JsVal) (r : ValidationResult) :
  validateLocation location = Ok r -> isValid r = true ->
  opt_prop location "type" = JString "Point" /\
  (exists lon lat,
     opt_prop location "coordinates" = JArray [JNumber (Num lon); JNumber (Num lat)] /\
     (inject_Z (-180) <= lon)%Q /\ (lon <= inject_Z 180)%Q /\
     (inject_Z (-90) <= lat)%Q /\ (lat <= inject_Z 90)%Q) /\
  Service.validateCoordinates (opt_prop location "coordinates") = true /\
  Service.validateCoordinates (JArray [JNumber NaN; JNumber NaN]) = true.
Proof.
  unfold validateLocation. intros Hv Hvalid.
  destruct (truthy location); cbn [negb] in Hv;
    [ | injection Hv as <-; discriminate].
  apply validateObject_valid in Hv as (fields & -> & Hknown & Hfields);
    try reflexivity; [ | exact Hvalid].
  destruct (validate_fields_valid _ _ _ Hfields Hvalid "type"
              (mkField true
                 (fun type =>
                    validateEnum type
                      [("values", OValues ["Point"]);
                       ("fieldName", OStr "Location type")])))
    as [[_ Hreq] | (_ & validation & Hval & Hok)];
    [cbn [In]; tauto | discriminate | ].
  cbn [validate] in Hval.
  apply validateEnum_valid with (values := ["Point"]) in Hval
      as (s & Hs & [<- | []]); try reflexivity; [ | exact Hok].
  pose proof (validate_fields_valid _ _ _ Hfields Hvalid "coordinates"
                (mkField true (fun coords => Ok (validateCoords coords))))
    as Hfield.
  remember (opt_prop (JObject fields) "coordinates") as coords eqn:Hcoords0.
  clear Hcoords0.
  destruct Hfield as [[_ Hreq] | (_ & validation' & Hval' & Hok')];
    [cbn [In]; tauto | discriminate | ].
  cbn [validate] in Hval'. injection Hval' as <-.
  assert (Hcoords : exists lon lat,
            coords = JArray [JNumber (Num lon); JNumber (Num lat)] /\
            num_lt (Num lon) (QofZ (-180)) = false /\
            num_gt (Num lon) (QofZ 180) = false /\
            num_lt (Num lat) (QofZ (-90)) = false /\
            num_gt (Num lat) (QofZ 90) = false).
  { unfold validateCoords in Hok'.
    destruct coords as [ | | b | n | s | items | fs]; try discriminate.
    destruct items as [| longitude [| latitude [| extra items]]];
      try discriminate.
    destruct (isValid (validateNumber longitude _)) eqn:Hlon; cbn [negb] in Hok';
      [ | congruence].
    destruct (isValid (validateNumber latitude _)) eqn:Hlat; cbn [negb] in Hok';
      [ | congruence].
    apply validateNumber_between in Hlon as (lon & -> & Hlon1 & Hlon2).
    apply validateNumber_between in Hlat as (lat & -> & Hlat1 & Hlat2).
    exists lon, lat. tauto. }
  destruct Hcoords as (lon & lat & Hc & Hlon1 & Hlon2 & Hlat1 & Hlat2).
  split; [exact Hs | ]. split; [ | split; [ | reflexivity]].
  - exists lon, lat. split; [exact Hc | ].
    unfold num_gt, num_lt, QofZ in *.
    apply negb_false_iff in Hlon1, Hlon2, Hlat1, Hlat2.
    apply Qle_bool_iff in Hlon1, Hlon2, Hlat1, Hlat2. tauto.
  - rewrite Hc. unfold Service.validateCoordinates.
    rewrite Hlon1, Hlon2, Hlat1, Hlat2. reflexivity.
Qed.

(** The theorem on a point at longitude 77 and latitude 13. *)
Lemma validateLocation_coordinates_witness :
  validateLocation
    (JObject [("type", JString "Point");
              ("coordinates", JArray [JNumber (QofZ 77); JNumber (QofZ 13)])])
  = Ok valid /\
  Service.validateCoordinates (JArray [JNumber (QofZ 77); JNumber (QofZ 13)])
  = true.
Proof.
  split; [reflexivity | ].
  apply (validateLocation_coordinates
           (JObject [("type", JString "Point");
                     ("coordinates",
                      JArray [JNumber (QofZ 77); JNumber (QofZ 13)])])
           valid eq_refl eq_refl).
Defined.

Lemma isInteger_int (q : Q) :
  isInteger q = true -> (q == inject_Z (Qnum (Qred q)))%Q.
Proof.
  unfold isInteger. intros H. apply Pos.eqb_eq in H.
  rewrite <- (Qred_correct q) at 1.
  destruct (Qred q) as [n d]. cbn [Qden Qnum] in *. subst d. reflexivity.
Qed.

(** An integer that [validateNumber] accepts from [lo] on. *)
Lemma validateNumber_integer (num : JsVal) (lo : Z) (hi : option Z)
  (options : list (string * Opt)) :
  bool_opt options "required" true = true ->
  bool_opt options "integer" false = true ->
  bool_opt options "positive" false = false ->
  num_opt options "min" = Some lo ->
  num_opt options "max" = hi ->
  isValid (validateNumber num options) = true ->
  exists z, is_int num z /\ lo <= z /\
            match hi with Some m => z <= m | None => True end.
Proof.
  unfold validateNumber. intros -> -> -> -> ->. cbn [negb andb].
  destruct (isEmpty num); [discriminate | ].
  destruct num as [ | | b | [q |] | s | items | fields]; try discriminate.
  destruct (isInteger q) eqn:Hint; cbn [negb]; [ | discriminate].
  destruct (num_lt (Num q) (QofZ lo)) eqn:Hlo; [discriminate | ].
  intros Hhi. apply isInteger_int in Hint.
  exists (Qnum (Qred q)). split; [exists q; now split | ].
  unfold num_lt, QofZ in Hlo. apply negb_false_iff, Qle_bool_iff in Hlo.
  rewrite Hint in Hlo. rewrite <- Zle_Qle in Hlo. split; [exact Hlo | ].
  destruct hi as [m |]; [ | exact I].
  destruct (num_gt (Num q) (QofZ m)) eqn:Hm; [discriminate | ].
  unfold num_gt, num_lt, QofZ in Hm. apply negb_false_iff, Qle_bool_iff in Hm.
  rewrite Hint in Hm. now rewrite <- Zle_Qle in Hm.
Qed.

(** X27.  A page and a limit that [validatePagination] accepts are
    used by [findWithPagination] as they are: each is left out or is an
    integer, the page at least 1 and the limit from 1 to 100, which the
    clamping of [findWithPagination] does not change. *)
Theorem validatePagination_fits (page limit : JsVal) :
  isValid (validatePagination page limit) = true ->
  (page = JUndefined \/
   exists p, is_int page p /\ 1 <= p /\ Repository2.page_number (Some p) = p) /\
  (limit = JUndefined \/
   exists l, is_int limit l /\ 1 <= l <= 100 /\
             Repository2.page_limit (Some l) = l).
Proof.
  unfold validatePagination. intros Hv.
  assert (Hpage : page = JUndefined \/
            isValid (validateNumber page
                       [("required", OBool true); ("min", ONum 1);
                        ("integer", OBool true); ("fieldName", OStr "Page")])
            = true).
  { destruct page; [now left | right ..];
      cbn [app combineValidations] in Hv;
      destruct (isValid (validateNumber _ _)) eqn:H; try reflexivity;
      cbn [negb] in Hv; congruence. }
  assert (Hlimit : limit = JUndefined \/
            isValid (validateNumber limit
                       [("required", OBool true); ("min", ONum 1);
                        ("max", ONum 100); ("integer", OBool true);
                        ("fieldName", OStr "Limit")])
            = true).
  { assert (Hrest : isValid (combineValidations
                      (match limit with
                       | JUndefined => []
                       | _ => [validateNumber limit
                                 [("required", OBool true); ("min", ONum 1);
                                  ("max", ONum 100); ("integer", OBool true);
                                  ("fieldName", OStr "Limit")]]
                       end)) = true).
    { destruct page; cbn [app combineValidations] in Hv; try exact Hv;
        destruct (isValid (validateNumber _ _)) eqn:H; cbn [negb] in Hv;
        try exact Hv; congruence. }
    clear Hv Hpage.
    destruct limit; [now left | right ..];
      cbn [combineValidations] in Hrest;
      destruct (isValid (validateNumber _ _)) eqn:H; try reflexivity;
      cbn [negb] in Hrest; congruence. }
  split.
  - destruct Hpage as [-> | Hpage]; [now left | right].
    apply validateNumber_integer with (lo := 1) (hi := None) in Hpage
        as (p & Hint & Hlo & _); try reflexivity.
    exists p. split; [exact Hint | ]. split; [exact Hlo | ].
    unfold Repository2.page_number. destruct (Z.eqb_spec p 0); lia.
  - destruct Hlimit as [-> | Hlimit]; [now left | right].
    apply validateNumber_integer with (lo := 1) (hi := Some 100) in Hlimit
        as (l & Hint & Hlo & Hhi); try reflexivity.
    exists l. split; [exact Hint | ]. split; [lia | ].
    unfold Repository2.page_limit. destruct (Z.eqb_spec l 0); lia.
Qed.

(** The theorem on page 3 with 25 documents a page. *)
Lemma validatePagination_fits_witness :
  (exists p, is_int (JNumber (QofZ 3)) p /\ 1 <= p /\
             Repository2.page_number (Some p) = p) /\
  (exists l, is_int (JNumber (QofZ 25)) l /\ 1 <= l <= 100 /\
             Repository2.page_limit (Some l) = l).
Proof.
  destruct (validatePagination_fits (JNumber (QofZ 3)) (JNumber (QofZ 25))
              eq_refl) as [[Hp | Hp] [Hl | Hl]]; try discriminate.
  split; assumption.
Defined.

(** [validateVolume] accepts the numbers in (0, 1000] and nothing
    else, and what it accepts satisfies the validators of the schema. *)
Lemma validateVolume_range (volumeKg : JsVal) :
  isValid (validateVolume volumeKg) = true <->
  exists q, volumeKg = JNumber (Num q) /\ (0 < q)%Q /\ (q <= inject_Z 1000)%Q /\
            Schema.volume_in_range (Some q) = true.
Proof.
  unfold validateVolume, validateNumber.
  change (bool_opt _ "required" true) with true.
  change (bool_opt _ "integer" false) with false.
  change (bool_opt _ "positive" false) with true.
  change (num_opt _ "min") with (Some 0).
  change (num_opt _ "max") with (Some MAX_VOLUME_KG).
  cbn [negb andb]. split.
  - destruct (isEmpty volumeKg); [discriminate | ].
    destruct volumeKg as [ | | b | [q |] | s | items | fields]; try discriminate.
    destruct (Qle_bool q 0) eqn:Hpos; [discriminate | ].
    destruct (num_lt (Num q) (QofZ 0)) eqn:Hlo; [discriminate | ].
    destruct (num_gt (Num q) (QofZ MAX_VOLUME_KG)) eqn:Hhi; [discriminate | ].
    intros _. exists q. split; [reflexivity | ].
    unfold num_gt, num_lt, QofZ, MAX_VOLUME_KG in *.
    apply negb_false_iff in Hlo, Hhi.
    assert (H0 : (0 < q)%Q).
    { apply Qnot_le_lt. intros H. apply Qle_bool_iff in H. congruence. }
    split; [exact H0 | ]. split; [now apply Qle_bool_iff | ].
    unfold Schema.volume_in_range. change (inject_Z 1000) with 1000%Q in Hhi.
    change (inject_Z 0) with 0%Q in Hlo. now rewrite Hlo, Hhi.
  - intros (q & -> & Hpos & Hmax & _). cbn [isEmpty].
    assert (H1 : Qle_bool q 0 = false).
    { destruct (Qle_bool q 0) eqn:H; [ | reflexivity].
      apply Qle_bool_iff in H. exfalso. exact (Qlt_not_le _ _ Hpos H). }
    rewrite H1. unfold num_gt, num_lt, QofZ, MAX_VOLUME_KG.
    assert (H2 : Qle_bool (inject_Z 0) q = true).
    { apply Qle_bool_iff. now apply Qlt_le_weak. }
    assert (H3 : Qle_bool q (inject_Z 1000) = true) by now apply Qle_bool_iff.
    rewrite H2, H3. reflexivity.
Qed.

End ValidationFacts.

(** ** Cancellation, priority and the times of a request *)

Module LifecycleFacts2.
Import Status Schema Cache Repository Virtuals Repository2.
Import StatusFacts CacheFacts SchemaFacts RepositoryFacts RepositoryFacts2.

(** A value is read back at the time it was cached. *)
Lemma getCacheValue_now {V} (now : Z) (key : string) (v : V)
  (c : list (string * Entry V)) :
  getCacheValue now key (setCacheValue now key v c)
  = (Some v, setCacheValue now key v c).
Proof.
  unfold getCacheValue. rewrite CacheFacts2.setCacheValue_eq at 1.
  rewrite map_get_set. cbn [timestamp value].
  replace (now - now) with 0 by lia. reflexivity.
Qed.

Lemma find_snoc {A} (f : A -> bool) (l : list A) (x : A) :
  List.find f (l ++ [x])
  = match List.find f l with
    | Some y => Some y
    | None => if f x then Some x else None
    end.
Proof.
  induction l as [| a l IH]; cbn [app List.find]; [reflexivity | ].
  destruct (f a); [reflexivity | exact IH].
Qed.

(** X28.  [cancel] needs a reason and then cancels every stored request
    that is not collected, a cancelled one again (the request not being
    soft-deleted nor cached, with a history that has gone through the
    schema), when the reason has no more than 200 characters once it is
    trimmed: the request gets the status 'cancelled', the time of the
    call as [cancelledAt] and one more history entry with the trimmed
    reason.  Without a reason it throws and the repository is left as it
    was; with a reason that is longer than 200 characters after the
    trimming it throws and nothing is written. *)
Theorem cancel_cancels {ids : ObjectIds}
  (now : Z) (id : string) (reason : option string)
  (st : Repo) :
  (str_truthy reason = false ->
   cancel now id reason st
   = (Throw (mkError ValidationError "Cancellation reason is required"), st)) /\
  (forall d,
     str_truthy reason = true ->
     note_fits reason = true ->
     db st !! id = Some d -> isDeleted d = false ->
     map_get (cache st) (cacheKey id) = None ->
     status d <> "collected" ->
     history_valid (statusHistory d) = true ->
     exists updated st',
       cancel now id reason st = (Ok updated, st') /\
       status updated = "cancelled" /\
       cancelledAt updated = Some now /\
       statusHistory updated
       = statusHistory d
         ++ [mkHistory "cancelled" now (option_map js_trim reason)] /\
       db st' = <[id := updated]> (db st)) /\
  (str_truthy reason = true ->
   note_fits reason = false ->
   exists e st', cancel now id reason st = (Throw e, st') /\ db st' = db st).
Proof.
  split; [ | split].
  - intros Hr. unfold cancel. now rewrite Hr.
  - intros d Hr Hfits Hd Hlive Hnone Hstatus Hhist.
    destruct (update_status_ok now id "cancelled" None reason (Some now) st d
                Hd Hlive Hnone) as (st' & Hu & Hdb & _).
    + cbn. tauto.
    + intros [Hc | Hc]; [contradiction | now symmetry].
    + discriminate.
    + reflexivity.
    + exact Hfits.
    + exact Hhist.
    + destruct (changed_fields now d "cancelled" None reason (Some now))
        as (Hs & Hh & _ & _ & Hc & _); [cbn; tauto | exact Hhist | ].
      eexists _, st'. unfold cancel. rewrite Hr. cbn [negb].
      change (mkData None None None None JUndefined None None (Some "cancelled")
                None reason None None (Some now) None None None)
        with (status_change_at "cancelled" None reason (Some now)).
      split; [exact Hu | ]. repeat split; assumption.
  - intros Hr Hfits. unfold cancel. rewrite Hr. cbn [negb].
    change (mkData None None None None JUndefined None None (Some "cancelled")
              None reason None None (Some now) None None None)
      with (status_change_at "cancelled" None reason (Some now)).
    apply update_status_refused; [reflexivity | now right].
Qed.

(** The theorem on the pending request [request1]: cancelled with a
    reason that ends in a space, and not cancelled with a reason of 201
    characters. *)
Lemma cancel_cancels_witness :
  (exists updated st',
     cancel (ids := hexIds) 20 request1 (Some "closed ") sampleRepo
     = (Ok updated, st') /\
     status updated = "cancelled" /\ cancelledAt updated = Some 20 /\
     statusHistory updated
     = [mkHistory "pending" 0 None; mkHistory "cancelled" 20 (Some "closed")])
  /\
  (exists e st',
     cancel (ids := hexIds) 20 request1 (Some longNote) sampleRepo
     = (Throw e, st') /\
     db st' = db sampleRepo).
Proof.
  split.
  - destruct (proj1 (proj2 (cancel_cancels (ids := hexIds) 20 request1
                              (Some "closed ") sampleRepo))
                (stored request1))
      as (updated & st' & Hc & Hs & Hat & Hh & _); try reflexivity.
    + discriminate.
    + exists updated, st'. repeat split; assumption.
  - apply (proj2 (proj2 (cancel_cancels (ids := hexIds) 20 request1
                           (Some longNote) sampleRepo))); reflexivity.
Defined.

(** X29.  [updatePriority] does not look at the status: it changes the
    priority of every stored request, a collected or cancelled one as
    well (the request not being soft-deleted nor cached, with a history
    that has gone through the schema), unless the request is an
    emergency and the priority is not 'urgent', when the note it writes,
    'Priority changed to ' followed by the priority and, after ': ', by
    the note given, has no more than 200 characters once it is trimmed.
    The status stays as it is and the history gets one more entry with
    that status and the trimmed note.  When the note it writes is
    longer, [updatePriority] throws and nothing is written. *)
Theorem updatePriority_any_status {ids : ObjectIds}
  (now : Z) (id level note : string) (st : Repo) (d : Doc) :
  db st !! id = Some d -> isDeleted d = false ->
  map_get (cache st) (cacheKey id) = None ->
  In level PRIORITIES ->
  (isEmergency d = true -> level = "urgent") ->
  In (status d) PICKUP_STATUSES ->
  history_valid (statusHistory d) = true ->
  (note_fits (Some (priority_note level note)) = true ->
   exists updated st',
     updatePriority now id level note st = (Ok updated, st') /\
     priority updated = level /\
     status updated = status d /\
     statusHistory updated
     = statusHistory d
       ++ [mkHistory (status d) now
             (Some (js_trim (priority_note level note)))] /\
     db st' = <[id := updated]> (db st) /\
     map_get (cache st') (cacheKey id) = None) /\
  (note_fits (Some (priority_note level note)) = false ->
   exists e st',
     updatePriority now id level note st = (Throw e, st') /\
     db st' = db st).
Proof.
  intros Hd Hlive Hnone Hlevel Hem Hstatus Hhist.
  assert (Hl : includes PRIORITIES level = true) by now apply includes_In.
  assert (Hs : includes PICKUP_STATUSES (status d) = true) by now apply includes_In.
  destruct (history_valid_cast_snoc (statusHistory d) (status d) now
              (Some (priority_note level note)) Hhist) as [Hcast Hsnoc].
  rewrite Hs in Hsnoc. cbn [andb] in Hsnoc.
  unfold updatePriority. rewrite Hl. cbn [negb].
  rewrite (findById_uncached _ _ _ Hnone). unfold findOne_live.
  rewrite Hd, Hlive.
  assert (Hcheck : isEmergency d && negb (String.eqb level "urgent") = false).
  { destruct (isEmergency d); [ | reflexivity].
    rewrite (Hem eq_refl). reflexivity. }
  rewrite Hcheck. unfold update, priority_update.
  cbn [data_status data_wasteType data_volumeKg str_truthy num_truthy andb].
  unfold findById. cbn [cache db]. rewrite getCacheValue_now.
  unfold check_transition. cbn [data_status str_truthy].
  unfold base_update, update_casts, update_valid, update_object.
  cbn [data_status data_wasteType data_volumeKg data_priority data_clinicId
       data_collectorId data_statusHistory data_emergencyReason
       data_responseDeadline data_location objectId_ok is_some
       location_update_valid str_truthy in_enum volume_in_range default
       from_option db andb negb].
  unfold Datatypes.id. rewrite Hl, Hsnoc. cbn [andb].
  split; intros Hfits; rewrite Hfits; cbn [andb negb].
  - rewrite Hd.
    eexists _, _. split; [reflexivity | ].
    cbn [apply_update priority status statusHistory data_priority data_status
         data_statusHistory default from_option db cache str_is option_map].
    unfold Datatypes.id. rewrite Hcast. cbn [option_map].
    split; [reflexivity | ]. split; [reflexivity | ].
    split; [reflexivity | ]. split; [reflexivity | ].
    apply map_get_delete.
  - eexists _, _. split; reflexivity.
Qed.

(** The theorem on the collected request [request2], whose priority is
    raised after the collection, and is not with a note of 190
    characters, which makes one of 216. *)
Lemma updatePriority_any_status_witness :
  (exists updated st',
     updatePriority (ids := hexIds) 20 request2 "high" "late" sampleRepo
     = (Ok updated, st') /\
     priority updated = "high" /\ status updated = "collected" /\
     statusHistory updated
     = [mkHistory "pending" 0 None;
        mkHistory "collected" 20 (Some "Priority changed to high: late")]) /\
  String.length (priority_note "high" (substring 0 190 longNote)) = 216%nat /\
  (exists e st',
     updatePriority (ids := hexIds) 20 request2 "high"
       (substring 0 190 longNote) sampleRepo
     = (Throw e, st') /\
     db st' = db sampleRepo).
Proof.
  assert (Hlevel : In "high" PRIORITIES) by (cbn; tauto).
  assert (Hstatus : In (status (with_status "collected" (stored request2)))
                       PICKUP_STATUSES) by (cbn; tauto).
  assert (Hem : isEmergency (with_status "collected" (stored request2)) = true ->
                "high" = "urgent") by discriminate.
  split; [ | split; [reflexivity | ]].
  - destruct (updatePriority_any_status (ids := hexIds) 20 request2 "high"
                "late" sampleRepo (with_status "collected" (stored request2))
                eq_refl eq_refl eq_refl Hlevel Hem Hstatus eq_refl)
      as [Hok _].
    destruct (Hok eq_refl) as (updated & st' & Hu & Hp & Hs & Hh & _).
    exists updated, st'. repeat split; assumption.
  - destruct (updatePriority_any_status (ids := hexIds) 20 request2 "high"
                (substring 0 190 longNote) sampleRepo
                (with_status "collected" (stored request2))
                eq_refl eq_refl eq_refl Hlevel Hem Hstatus eq_refl)
      as [_ Hrefused].
    apply Hrefused. reflexivity.
Defined.

(** X30.  The times of a request follow its updates, for an update that
    [findByIdAndUpdate] accepts (a collector that can be cast to an
    [ObjectId], a note of no more than 200 characters once it is
    trimmed) of a stored request that is neither collected nor
    cancelled, not soft-deleted, not cached, and has a history that has
    gone through the schema: after the update that marks the request
    collected at [now], [responseTime] is [now] less the time of the
    request; after an update that assigns it, [waitTime] is counted to
    the first 'assigned' entry of the history, the time of the call when
    there was none before, so that assigning again does not start it
    anew. *)
Theorem times_after_update {ids : ObjectIds} (now : Z) (id : string)
  (collector note : option string) (st : Repo) (d : Doc) :
  db st !! id = Some d -> isDeleted d = false ->
  map_get (cache st) (cacheKey id) = None ->
  ~ terminal (status d) ->
  history_valid (statusHistory d) = true ->
  objectId_ok collector = true ->
  note_fits note = true ->
  (exists updated st',
     update now id (status_change "collected" collector note) st
     = (Ok updated, st') /\
     responseTime updated = Some (now - requestedAt d)) /\
  (str_truthy collector = true ->
   exists updated st',
     update now id (status_change "assigned" collector note) st
     = (Ok updated, st') /\
     waitTime updated
     = Some (match List.find (fun h => String.eqb (h_status h) "assigned")
                             (statusHistory d) with
             | Some first => h_updatedAt first
             | None => now
             end - requestedAt d)).
Proof.
  intros Hd Hlive Hnone Hterm Hhist Hcast Hfits. split.
  - destruct (update_status_ok now id "collected" collector note None st d
                Hd Hlive Hnone) as (st' & Hu & _);
      [cbn; tauto | intros H; contradiction | discriminate | exact Hcast
       | exact Hfits | exact Hhist | ].
    destruct (changed_fields now d "collected" collector note None)
      as (Hs & _ & Hc & _ & _ & Hr & _); [cbn; tauto | exact Hhist | ].
    eexists _, st'. split; [exact Hu | ].
    unfold responseTime. rewrite Hs, Hc, Hr. reflexivity.
  - intros Hcoll.
    destruct (update_status_ok now id "assigned" collector note None st d
                Hd Hlive Hnone) as (st' & Hu & _);
      [cbn; tauto | intros H; contradiction | intros _; exact Hcoll
       | exact Hcast | exact Hfits | exact Hhist | ].
    destruct (changed_fields now d "assigned" collector note None)
      as (Hs & Hh & _ & _ & _ & Hr & _); [cbn; tauto | exact Hhist | ].
    eexists _, st'. split; [exact Hu | ].
    unfold waitTime. rewrite Hs, Hh, Hr, find_snoc. cbn [orb String.eqb].
    change (String.eqb "assigned" "assigned") with true. cbn [orb].
    destruct (List.find _ (statusHistory d)) as [first |]; reflexivity.
Qed.

(** The theorem on the pending request [request1], requested at time 0:
    collected at time 20, or assigned at time 20 to the collector
    [collector1]. *)
Lemma times_after_update_witness :
  (exists updated st',
     update (ids := hexIds) 20 request1
       (status_change "collected" (Some collector1) (Some "weighed")) sampleRepo
     = (Ok updated, st') /\
     responseTime updated = Some 20) /\
  (exists updated st',
     update (ids := hexIds) 20 request1
       (status_change "assigned" (Some collector1) (Some "weighed")) sampleRepo
     = (Ok updated, st') /\
     waitTime updated = Some 20).
Proof.
  destruct (times_after_update (ids := hexIds) 20 request1 (Some collector1)
              (Some "weighed") sampleRepo (stored request1))
    as [(updated & st' & Hu & Hr) Hassign]; try reflexivity.
  - intros [H | H]; discriminate.
  - split; [exists updated, st'; split; [exact Hu | exact Hr] | ].
    destruct (Hassign eq_refl) as (assigned & st2 & Hu2 & Hw).
    exists assigned, st2. split; [exact Hu2 | exact Hw].
Defined.

End LifecycleFacts2.
